(** * dranet: a shallow embedding of the node-local core

    The embedding follows the Go packages of the repository:
    - [strings], [errors]: the few standard-library functions the code calls;
    - [inventory_names], [inventory]: PCI name normalisation, default-gateway
      discovery and the refresh loop of the device database;
    - [apis] and [driverconfig]: the two generations of [ValidateConfig];
    - [driver]: the namespace effector ([applyRoutingConfig],
      [applyNeighborConfig], [applyRulesConfig]) and the pod-sandbox hook.
    - [regexp], [inventory_sysfs]: the pattern of PCI addresses and the
      search of an address in a sysfs path;
    - [inventory_db], [inventory_net], [inventory_cloud]: the lookups of the
      database, the eBPF probes and the helpers of the cloud attributes;
    - [driver_hooks]: [Synchronize] and [StopPodSandbox];
    - [cache], [driver_claims]: the indexed store of client-go and the cache
      of the prepared claims ([prepareResourceClaim],
      [unprepareResourceClaim]).

    Kernel, sysfs and library calls are taken as interfaces (records of
    operations).  Each interface has a concrete instance ([ipv4], [decoders],
    [sample_host], [simkernel]) on which the embedded functions run.  The
    properties come last. *)

From Stdlib Require Import ZArith Ascii String List Lia Permutation Sorted.
From Stdlib Require Import DecimalString.
From stdpp Require Import base option list sorting strings gmap.

Local Open Scope Z_scope.

(* ===================================================================== *)
(** ** Go standard library: package [strings]                             *)
(* ===================================================================== *)

Module strings.

(** [strings.HasPrefix(s, prefix)] *)
Fixpoint HasPrefix (s prefix : string) {struct prefix} : bool :=
  match prefix, s with
  | EmptyString, _ => true
  | String p prefix', String c s' => Ascii.eqb c p && HasPrefix s' prefix'
  | String _ _, EmptyString => false
  end.

(** [s[n:]] for [n <= len(s)] *)
Fixpoint drop (n : nat) (s : string) : string :=
  match n, s with
  | O, _ => s
  | S n', String _ s' => drop n' s'
  | S _, EmptyString => EmptyString
  end.

(** [strings.TrimPrefix(s, prefix)] *)
Definition TrimPrefix (s prefix : string) : string :=
  if HasPrefix s prefix then drop (String.length prefix) s else s.

(** [strings.Split(s, sep)] for a non-empty separator: scan [s] from the
    left; at every position where [sep] matches, close the current part
    and jump over the separator ([skip] counts the bytes of the separator
    still to be jumped over).  With an empty separator Go splits after
    each UTF-8 sequence; on byte strings that is one part per byte. *)
Fixpoint genSplit (sep : string) (s : string) (skip : nat) (cur : string)
  : list string :=
  match s with
  | EmptyString => [cur]
  | String c s' =>
      match skip with
      | S k => genSplit sep s' k cur
      | O =>
          if HasPrefix s sep
          then cur :: genSplit sep s' (String.length sep - 1) EmptyString
          else genSplit sep s' O (cur +:+ String c EmptyString)
      end
  end.

Fixpoint explode (s : string) : list string :=
  match s with
  | EmptyString => []
  | String c s' => String c EmptyString :: explode s'
  end.

Definition Split (s sep : string) : list string :=
  match sep with
  | EmptyString => explode s
  | _ => genSplit sep s O EmptyString
  end.

(** [strings.NewReplacer(old1, new1, old2, new2, ...)] when every old and
    new string is a single byte: Go builds a 256-entry byte table, filling
    it from the last pair to the first so that the first pair wins. *)
Definition byteReplacer : Type := ascii -> ascii.

Definition NewReplacer (oldnew : list (ascii * ascii)) : byteReplacer :=
  fold_right (fun '(o, n) r => fun c => if Ascii.eqb c o then n else r c)
             (fun c => c) oldnew.

Fixpoint Replace (r : byteReplacer) (s : string) : string :=
  match s with
  | EmptyString => EmptyString
  | String c s' => String (r c) (Replace r s')
  end.

(** [strings.Join(elems, sep)] *)
Fixpoint Join (elems : list string) (sep : string) : string :=
  match elems with
  | [] => EmptyString
  | [e] => e
  | e :: rest => e +:+ sep +:+ Join rest sep
  end.

(** [strings.Contains(s, substr)] as a proposition. *)
Definition Contains (s substr : string) : Prop :=
  exists pre post, s = pre +:+ substr +:+ post.

End strings.

(* ===================================================================== *)
(** ** Package [inventory]: device names                                  *)
(* ===================================================================== *)

Module inventory_names.

Definition pciClassNetwork : string := "02".
Definition normalizedNamePrefix : string := "net1".

(** [NormalizePCIAddress] (pci.go) *)
Definition NormalizePCIAddress (pciAddress : string) : string :=
  if String.eqb pciAddress "" then ""
  else
    let r := strings.NewReplacer [(":", "-"); (".", "-")]%char in
    normalizedNamePrefix +:+ "-" +:+ strings.Replace r pciAddress.

(** [DeNormalizePCIAddress] (pci.go); the two [klog.Errorf] calls only
    log. *)
Definition DeNormalizePCIAddress (normalizedAddress : string) : string :=
  if String.eqb normalizedAddress "" then ""
  else if negb (strings.HasPrefix normalizedAddress (normalizedNamePrefix +:+ "-"))
  then ""
  else
    let pciAddress :=
      strings.TrimPrefix normalizedAddress (normalizedNamePrefix +:+ "-") in
    let parts := strings.Split pciAddress "-" in
    if negb (Nat.eqb (length parts) 4) then ""
    else nth 0 parts "" +:+ ":" +:+ nth 1 parts "" +:+ ":" +:+
         nth 2 parts "" +:+ "." +:+ nth 3 parts "".

(** [pciAddress] in BDF notation (sysfs.go) and its [String] method. *)
Record pciAddress : Type := mkPciAddress {
  domain : string;
  bus : string;
  device : string;
  function : string
}.

Definition pciAddress_String (a : pciAddress) : string :=
  if String.eqb (domain a) ""
  then bus a +:+ ":" +:+ device a +:+ "." +:+ function a
  else domain a +:+ ":" +:+ bus a +:+ ":" +:+ device a +:+ "." +:+ function a.

(** Hexadecimal digits, as the [[0-9a-fA-F]] classes of
    [pciAddressRegex]. *)
Definition isHexDigit (c : ascii) : bool :=
  let n := nat_of_ascii c in
  ((48 <=? n) && (n <=? 57) || (97 <=? n) && (n <=? 102)
   || (65 <=? n) && (n <=? 70))%nat.

Fixpoint allHex (s : string) : bool :=
  match s with
  | EmptyString => true
  | String c s' => isHexDigit c && allHex s'
  end.

Definition hexComponent (s : string) : bool :=
  negb (String.eqb s "") && allHex s.

(** A well-formed four-component address domain:bus:device.function. *)
Definition wellFormedBDF (a : pciAddress) : bool :=
  hexComponent (domain a) && hexComponent (bus a) &&
  hexComponent (device a) && hexComponent (function a).

(** The spec's wording of the normalised name: every ':' and '.' becomes
    '-'. *)
Definition dashed (c : ascii) : ascii :=
  if Ascii.eqb c ":" then "-"%char
  else if Ascii.eqb c "." then "-"%char else c.

End inventory_names.


(* ===================================================================== *)
(** ** Go errors: [syscall.Errno], [fmt.Errorf], [errors.Join]            *)
(* ===================================================================== *)

Module errors.

(** A non-nil Go [error] value.  A nil error is [None : option error]. *)
#[warnings="-register-all"] Inductive error : Type :=
| Errno (e : Z)                          (* syscall.Errno *)
| New (msg : string)                     (* errors.New, fmt.Errorf without %w *)
| Wrap (pre : string) (inner : error) (post : string)
                                         (* fmt.Errorf("pre %w post", inner) *)
| JoinError (errs : list error).         (* errors.Join of non-nil errors *)

Definition EEXIST : Z := 17.
Definition ENOENT : Z := 2.
Definition ENODEV : Z := 19.
Definition EINVAL : Z := 22.
Definition ENETDOWN : Z := 100.

(** [strconv.Itoa] *)
Definition Itoa (z : Z) : string := NilZero.string_of_int (Z.to_int z).

(** [syscall.Errno.Error]: the strerror table (the entries the driver can
    meet), and "errno N" for the others. *)
Definition errnoText (e : Z) : string :=
  if e =? ENOENT then "no such file or directory"
  else if e =? EEXIST then "file exists"
  else if e =? ENODEV then "no such device"
  else if e =? EINVAL then "invalid argument"
  else if e =? ENETDOWN then "network is down"
  else "errno " +:+ Itoa e.

(** [err.Error()] *)
Fixpoint Error (err : error) : string :=
  match err with
  | Errno e => errnoText e
  | New msg => msg
  | Wrap pre inner post => pre +:+ Error inner +:+ post
  | JoinError errs =>
      (fix joinLines (l : list error) : string :=
         match l with
         | [] => ""
         | [e] => Error e
         | e :: rest => Error e +:+ String "010"%char "" +:+ joinLines rest
         end) errs
  end.

(** [errors.Is(err, target)] for a [syscall.Errno] target: walk the
    [Unwrap] tree looking for that errno. *)
Fixpoint IsErrno (err : error) (target : Z) : bool :=
  match err with
  | Errno e => e =? target
  | New _ => false
  | Wrap _ inner _ => IsErrno inner target
  | JoinError errs =>
      (fix any (l : list error) : bool :=
         match l with
         | [] => false
         | e :: rest => IsErrno e target || any rest
         end) errs
  end.

(** [errors.Join(errs...)]: nil when there is no non-nil error.  The
    callers below append only non-nil errors to their lists. *)
Definition Join (errs : list error) : option error :=
  match errs with
  | [] => None
  | _ => Some (JoinError errs)
  end.

End errors.

Abbreviation error := errors.error.

(* ===================================================================== *)
(** ** Package [net] / [net/netip]: the parsing interface                 *)
(* ===================================================================== *)

(** The address parsers are library code.  [IP] stands for a non-nil
    [net.IP]; a nil [net.IP] is [None]. *)
Class NetLib : Type := {
  IP : Type;
  IPNet : Type;
  HardwareAddr : Type;
  ParseIP : string -> option IP;                 (* net.ParseIP, nil = None *)
  ParseCIDR : string -> error + (IP * IPNet);    (* net.ParseCIDR *)
  ParsePrefix : string -> bool;                  (* netip.ParsePrefix: err == nil *)
  ParseAddr : string -> bool;                    (* netip.ParseAddr: err == nil *)
  ParseMAC : string -> option HardwareAddr;      (* net.ParseMAC: err == nil *)
  IP_eqb : IP -> IP -> bool;                     (* IP.Equal on non-nil values *)
  IPNet_String : IPNet -> string                 (* IPNet.String *)
}.

(** [net.IP.Equal]: two nil addresses have equal length and equal bytes. *)
Definition IP_Equal `{NetLib} (a b : option IP) : bool :=
  match a, b with
  | None, None => true
  | Some x, Some y => IP_eqb x y
  | _, _ => false
  end.

(* ===================================================================== *)
(** ** [k8s.io/apimachinery/pkg/runtime.RawExtension]                     *)
(* ===================================================================== *)

(** [Raw []byte]: [None] is the nil slice, [Some s] a non-nil slice (maybe
    of length 0).  A [*RawExtension] is an [option RawExtension]. *)
Record RawExtension : Type := mkRawExtension { Raw : option string }.

(** The quote character, for messages that print a quoted name. *)
Definition dquote : string := String (ascii_of_nat 34) EmptyString.

(* ===================================================================== *)
(** ** Package [apis]: [ValidateConfig] with route scopes                 *)
(* ===================================================================== *)

Module apis.

(** Modelled from the spec: the declaration of [apis.NetworkConfig] and of
    its parts is not among the sources; the fields are those of the opaque
    configuration schema (spec section 6) and those the code reads
    ([config.Interface.Addresses], [route.Scope], ...).  [Scope] is the
    kernel's 8-bit route scope. *)
Record InterfaceConfig : Type := mkInterfaceConfig {
  Name : string;
  Addresses : list string;
  MTU : Z;
  HardwareAddr : string;
  GSOMaxSize : Z;
  GROMaxSize : Z;
  GSOIPv4MaxSize : Z;
  GROIPv4MaxSize : Z;
  DisableEbpfPrograms : bool
}.

Record RouteConfig : Type := mkRouteConfig {
  Destination : string;
  Gateway : string;
  Source : string;
  Scope : Z;
  Table : Z
}.

Record NeighborConfig : Type := mkNeighborConfig {
  NeighDestination : string;
  NeighHardwareAddr : string
}.

Record RuleConfig : Type := mkRuleConfig {
  Priority : Z;
  RuleTable : Z;
  RuleSource : string;
  RuleDestination : string
}.

Record EthtoolConfig : Type := mkEthtoolConfig {
  Features : list (string * bool)
}.

Record NetworkConfig : Type := mkNetworkConfig {
  Interface : InterfaceConfig;
  Routes : list RouteConfig;
  Neighbors : list NeighborConfig;
  Rules : list RuleConfig;
  Ethtool : EthtoolConfig
}.

(** Go's zero value, [var config NetworkConfig]. *)
Definition zeroInterfaceConfig : InterfaceConfig :=
  mkInterfaceConfig EmptyString [] 0 EmptyString 0 0 0 0 false.

Definition zeroNetworkConfig : NetworkConfig :=
  mkNetworkConfig zeroInterfaceConfig [] [] [] (mkEthtoolConfig []).

(** [unix.RT_SCOPE_UNIVERSE], [unix.RT_SCOPE_LINK] *)
Definition RT_SCOPE_UNIVERSE : Z := 0.
Definition RT_SCOPE_LINK : Z := 253.

(** [sigs.k8s.io/json.UnmarshalStrict(data, &v)]: the strict errors, the
    fatal error and the value decoded into [v]. *)
Class JSONLib : Type := {
  UnmarshalStrict : string -> NetworkConfig -> list error * option error * NetworkConfig
}.

Section ValidateConfig.
Context {net : NetLib} {json : JSONLib}.

(** The loop over [config.Interface.Addresses]. *)
Definition addressErrors (addresses : list string) : list error :=
  flat_map (fun ip =>
              if ParsePrefix ip then []
              else [errors.New ("invalid IP in CIDR format " +:+ ip)])
           addresses.

(** The body of the loop over [config.Routes], for the route at index [i]. *)
Definition routeErrors (i : Z) (route : RouteConfig) : list error :=
  (if String.eqb (Destination route) EmptyString
   then [errors.New ("route " +:+ errors.Itoa i +:+ ": destination cannot be empty")]
   else
     match ParseCIDR (Destination route) with
     | inr _ => []
     | inl _ =>
         match ParseIP (Destination route) with
         | Some _ => []
         | None =>
             [errors.New ("route " +:+ errors.Itoa i +:+
                          ": invalid destination IP or CIDR '" +:+
                          Destination route +:+ "'")]
         end
     end)
  ++
  (if negb (Scope route =? RT_SCOPE_UNIVERSE) && negb (Scope route =? RT_SCOPE_LINK)
   then [errors.New ("route " +:+ errors.Itoa i +:+ ": invalid scope '" +:+
                     errors.Itoa (Scope route) +:+
                     "' only Link (253) or Universe (0) allowed")]
   else [])
  ++
  (if negb (String.eqb (Gateway route) EmptyString)
   then
     match ParseIP (Gateway route) with
     | Some _ => []
     | None =>
         [errors.New ("route " +:+ errors.Itoa i +:+ ": invalid gateway IP '" +:+
                      Gateway route +:+ "'")]
     end
   else if negb (Scope route =? RT_SCOPE_LINK)
   then [errors.New ("route " +:+ errors.Itoa i +:+ ": for destination '" +:+
                     Destination route +:+ "' must have a gateway")]
   else []).

Fixpoint routesErrors (i : Z) (routes : list RouteConfig) : list error :=
  match routes with
  | [] => []
  | route :: rest => routeErrors i route ++ routesErrors (i + 1) rest
  end.

(** [ValidateConfig]: the parsed configuration (nil = [None]) and the
    error (nil = [None]). *)
Definition ValidateConfig (raw : option RawExtension)
  : option NetworkConfig * option error :=
  match raw with
  | None => (None, None)
  | Some r =>
      match Raw r with
      | None => (None, None)
      | Some data =>
          if Nat.eqb (String.length data) 0 then (None, None)
          else
            let '(strictErrs, err, config) := UnmarshalStrict data zeroNetworkConfig in
            match err with
            | Some e =>
                (None, Some (errors.Wrap "failed to unmarshal JSON data: " e EmptyString))
            | None =>
                if (0 <? length strictErrs)%nat
                then (None, Some (errors.Wrap "failed to unmarshal strict JSON data: "
                                              (errors.JoinError strictErrs) EmptyString))
                else
                  let errorsList :=
                    addressErrors (Addresses (Interface config))
                    ++ routesErrors 0 (Routes config) in
                  (Some config, errors.Join errorsList)
            end
      end
  end.

End ValidateConfig.

End apis.

(* ===================================================================== *)
(** ** Package [driver], config.go: the first [ValidateConfig]            *)
(* ===================================================================== *)

Module driverconfig.

Record Route : Type := mkRoute {
  Destination : string;
  Gateway : string
}.

Record NetworkConfig : Type := mkNetworkConfig {
  Name : string;
  IPs : list string;
  Routes : list Route;
  MTU : Z
}.

Definition zeroNetworkConfig : NetworkConfig :=
  mkNetworkConfig EmptyString [] [] 0.

(** [sigs.k8s.io/yaml.Unmarshal(data, &v, yaml.DisallowUnknownFields)] *)
Class YAMLLib : Type := {
  UnmarshalDisallowUnknownFields : string -> NetworkConfig -> option error * NetworkConfig
}.

Section ValidateConfig.
Context {net : NetLib} {yaml : YAMLLib}.

Definition ipErrors (ips : list string) : list error :=
  flat_map (fun ip =>
              if ParsePrefix ip then []
              else [errors.New ("invalid IP in CIDR format " +:+ ip)])
           ips.

(** [%v] of a [Route] value *)
Definition Route_v (route : Route) : string :=
  "{" +:+ Destination route +:+ " " +:+ Gateway route +:+ "}".

Definition routeErrors (route : Route) : list error :=
  (if String.eqb (Destination route) EmptyString || String.eqb (Gateway route) EmptyString
   then [errors.New ("invalid route " +:+ Route_v route)] else [])
  ++
  (if ParsePrefix (Destination route) then []
   else [errors.New ("invalid CIDR " +:+ Destination route)])
  ++
  (if ParseAddr (Gateway route) then []
   else [errors.New ("invalid IP address " +:+ Gateway route)]).

Definition ValidateConfig (raw : option RawExtension)
  : option NetworkConfig * option error :=
  match raw with
  | None => (None, None)
  | Some r =>
      match Raw r with
      | None => (None, None)
      | Some data =>
          if Nat.eqb (String.length data) 0 then (None, None)
          else
            let '(err, config) := UnmarshalDisallowUnknownFields data zeroNetworkConfig in
            match err with
            | Some e =>
                (None, Some (errors.Wrap "failed to unmarshal YAML data: " e EmptyString))
            | None =>
                let errorsList :=
                  ipErrors (IPs config) ++ flat_map routeErrors (Routes config) in
                (Some config, errors.Join errorsList)
            end
      end
  end.

End ValidateConfig.

End driverconfig.

(* ===================================================================== *)
(** ** Package [inventory]: the device database and its refresh loop      *)
(* ===================================================================== *)

Module inventory.

(** [resourceapi.DeviceAttribute]: the code always sets exactly one of the
    value fields.  A key missing from the attribute map is a failed lookup. *)
Inductive DeviceAttribute : Type :=
| StringValue (s : string)
| IntValue (i : Z)
| BoolValue (b : bool).

(** [resourceapi.Device]; the capacity map is created empty and never
    filled. *)
Record Device : Type := mkDevice {
  Name : string;
  Attributes : gmap string DeviceAttribute;
  Capacity : gmap string Z
}.

(** Modelled from the spec: the attribute-name constants [apis.Attr...] are
    not among the sources; the names are the published vocabulary of spec
    section 6 under the driver's domain. *)
Definition AttrInterfaceName : string := "dra.net/ifName".
Definition AttrMac : string := "dra.net/mac".
Definition AttrMTU : string := "dra.net/mtu".
Definition AttrEncapsulation : string := "dra.net/encapsulation".
Definition AttrAlias : string := "dra.net/alias".
Definition AttrState : string := "dra.net/state".
Definition AttrType : string := "dra.net/type".
Definition AttrIPv4 : string := "dra.net/ipv4".
Definition AttrIPv6 : string := "dra.net/ipv6".
Definition AttrPCIVendor : string := "dra.net/pciVendor".
Definition AttrPCIDevice : string := "dra.net/pciDevice".
Definition AttrPCISubsystem : string := "dra.net/pciSubsystem".
Definition AttrNUMANode : string := "dra.net/numaNode".
Definition AttrRDMA : string := "dra.net/rdma".
Definition AttrSRIOV : string := "dra.net/sriov".
Definition AttrSRIOVVfs : string := "dra.net/sriovVfs".
Definition AttrVirtual : string := "dra.net/virtual".
Definition AttrEBPF : string := "dra.net/ebpf".
Definition AttrTCFilterNames : string := "dra.net/tcFilterNames".
Definition AttrTCXProgramNames : string := "dra.net/tcxProgramNames".

(** [ghw.PCIDevice], the fields the driver reads. *)
Record PCIDevice : Type := mkPCIDevice {
  Address : string;
  ClassID : string;
  VendorName : option string;
  ProductName : option string;
  SubsystemID : option string;
  NodeID : option Z
}.

(** A kernel link as [netlink.Link] shows it. *)
Record Link : Type := mkLink {
  LinkName : string;
  LinkIndex : Z;
  LinkHardwareAddr : string;
  LinkMTU : Z;
  EncapType : string;
  LinkAlias : string;
  OperState : string;
  LinkType : string;
  FlagLoopback : bool
}.

Inductive IPFamily : Type := IPv4 | IPv6 | IPMalformed.

(** An interface address: its text, [IP.IsGlobalUnicast] and which of
    [To4]/[To16] is non-nil. *)
Record Addr : Type := mkAddr {
  AddrString : string;
  IsGlobalUnicast : bool;
  Family : IPFamily
}.

(** A kernel route as [netlink.Route] shows it. *)
Record NexthopInfo : Type := mkNexthopInfo {
  NhGw : option string;
  NhLinkIndex : Z
}.

Record Route : Type := mkRoute {
  RtFamily : Z;
  RtDst : option (string * bool);   (* destination text, IP.IsUnspecified *)
  RtGw : option string;
  RtMultiPath : list NexthopInfo;
  RtLinkIndex : Z
}.

Definition FAMILY_V4 : Z := 2.
Definition FAMILY_V6 : Z := 10.

(** The listing of a sysfs directory. *)
Inductive DirListing : Type :=
| NotExist
| ReadDirError (err : error)
| Entries (names : list string).

(** What the probes of one refresh observe on the host. *)
Record Host : Type := mkHost {
  ghw_PCI : error + list PCIDevice;
  pciNetDir : string -> DirListing;
  LinkByName : string -> error + Link;
  LinkByIndex : Z -> error + Link;
  LinkList : error + list Link;
  AddrList : Link -> error + list Addr;
  RouteListFiltered : error + list Route;
  TcFilters : Link -> list string * bool;
  TcxFilters : Link -> list string * bool;
  sriov_totalvfs : string -> Z;
  sriov_numvfs : string -> Z;
  sysVirtualNet : string -> bool;
  PCIeRootAttribute : string -> error + (string * DeviceAttribute);
  RdmaDevicesForPcidev : string -> list string;
  ProviderAttributes : string -> gmap string DeviceAttribute
}.

(** [DB]; the limiter and the channels are represented by the run below. *)
Record DB : Type := mkDB {
  netNsForPod : gmap string string;
  deviceStore : gmap string Device;
  hasDevices : bool
}.

Definition New : DB := mkDB ∅ ∅ false.

Definition isNetworkDevice (dev : PCIDevice) : bool :=
  strings.HasPrefix (ClassID dev) inventory_names.pciClassNetwork.

(** [GetNetworkInterface] (pci.go) *)
Definition GetNetworkInterface (h : Host) (pciAddress : string) : error + string :=
  match pciNetDir h pciAddress with
  | NotExist => inl (errors.New ("no net directory for pci device " +:+ pciAddress))
  | ReadDirError err => inl err
  | Entries files =>
      match files with
      | [] => inl (errors.New ("no interface found for pci device " +:+ pciAddress))
      | f :: _ => inr f
      end
  end.

Definition setAttr (k : string) (v : DeviceAttribute) (d : Device) : Device :=
  mkDevice (Name d) (<[k := v]> (Attributes d)) (Capacity d).

Definition setAttrOpt (k : string) (v : option DeviceAttribute) (d : Device) : Device :=
  match v with
  | Some a => setAttr k a d
  | None => d
  end.

Definition GetDevice (db : DB) (deviceName : string) : option Device :=
  deviceStore db !! deviceName.

(** [mergeDeviceAttributes] *)
Definition mergeDeviceAttributes (dest src : Device) (attrsToCopy : list string) : Device :=
  fold_left (fun d attr => setAttrOpt attr (Attributes src !! attr) d) attrsToCopy dest.

Definition addPCIAttributes (h : Host) (device : Device) (pciDev : PCIDevice) : Device :=
  let device := setAttrOpt AttrPCIVendor (StringValue <$> VendorName pciDev) device in
  let device := setAttrOpt AttrPCIDevice (StringValue <$> ProductName pciDev) device in
  let device := setAttrOpt AttrPCISubsystem (StringValue <$> SubsystemID pciDev) device in
  let device := setAttrOpt AttrNUMANode (IntValue <$> NodeID pciDev) device in
  match PCIeRootAttribute h (Address pciDev) with
  | inl _ => device
  | inr (name, value) => setAttr name value device
  end.

(** The address sets of [addNetDevAttributes].  Go lists a set in no
    particular order; [elements] fixes one. *)
Definition addressSets (ips : list Addr) : gset string * gset string :=
  fold_left (fun '(v4, v6) address =>
               if negb (IsGlobalUnicast address) then (v4, v6)
               else match Family address with
                    | IPv6 => (v4, {[AddrString address]} ∪ v6)
                    | IPv4 => ({[AddrString address]} ∪ v4, v6)
                    | IPMalformed => (v4, v6)
                    end)
            ips (∅, ∅).

Definition addNetDevAttributes (h : Host) (db : DB) (device : Device) (pciAddress : string)
  : Device :=
  match GetNetworkInterface h pciAddress with
  | inl _ =>
      match GetDevice db (inventory_names.NormalizePCIAddress pciAddress) with
      | Some prevDevice =>
          mergeDeviceAttributes device prevDevice
            [AttrInterfaceName; AttrMac; AttrEncapsulation; AttrAlias; AttrState;
             AttrType; AttrIPv4; AttrIPv6; AttrTCFilterNames; AttrTCXProgramNames;
             AttrEBPF; AttrSRIOV; AttrSRIOVVfs; AttrVirtual]
      | None => device
      end
  | inr ifName =>
      let device := setAttr AttrInterfaceName (StringValue ifName) device in
      match LinkByName h ifName with
      | inl _ => device
      | inr link =>
          let device := setAttr AttrMac (StringValue (LinkHardwareAddr link)) device in
          let device := setAttr AttrMTU (IntValue (LinkMTU link)) device in
          let device := setAttr AttrEncapsulation (StringValue (EncapType link)) device in
          let device := setAttr AttrAlias (StringValue (LinkAlias link)) device in
          let device := setAttr AttrState (StringValue (OperState link)) device in
          let device := setAttr AttrType (StringValue (LinkType link)) device in
          let device :=
            match AddrList h link with
            | inr (_ :: _ as ips) =>
                let '(v4, v6) := addressSets ips in
                let device :=
                  if (0 <? size v4)%nat
                  then setAttr AttrIPv4 (StringValue (strings.Join (elements v4) ",")) device
                  else device in
                if (0 <? size v6)%nat
                then setAttr AttrIPv6 (StringValue (strings.Join (elements v6) ",")) device
                else device
            | _ => device
            end in
          let '(filterNames, ok1) := TcFilters h link in
          let device :=
            if ok1
            then setAttr AttrTCFilterNames (StringValue (strings.Join filterNames ",")) device
            else device in
          let '(programNames, ok2) := TcxFilters h link in
          let device :=
            if ok2
            then setAttr AttrTCXProgramNames (StringValue (strings.Join programNames ",")) device
            else device in
          let isEbpf := ok1 || ok2 in
          let device := setAttr AttrEBPF (BoolValue isEbpf) device in
          let isSRIOV := 0 <? sriov_totalvfs h ifName in
          let device := setAttr AttrSRIOV (BoolValue isSRIOV) device in
          let device :=
            if isSRIOV
            then setAttr AttrSRIOVVfs (IntValue (sriov_numvfs h ifName)) device
            else device in
          setAttr AttrVirtual (BoolValue (sysVirtualNet h ifName)) device
      end
  end.

Definition addRDMADevAttributes (h : Host) (device : Device) (pciAddress : string) : Device :=
  let isRDMA := negb (Nat.eqb (length (RdmaDevicesForPcidev h pciAddress)) 0) in
  setAttr AttrRDMA (BoolValue isRDMA) device.

(** [maps.Copy(dst, src)] overwrites the keys of [src] in [dst]. *)
Definition addCloudProviderAttributes (h : Host) (device : Device) : Device :=
  match Attributes device !! AttrMac with
  | Some (StringValue mac) =>
      mkDevice (Name device) (ProviderAttributes h mac ∪ Attributes device) (Capacity device)
  | _ => device
  end.

Definition pciToDRAdev (h : Host) (db : DB) (pciDev : PCIDevice) : Device :=
  let device := mkDevice (inventory_names.NormalizePCIAddress (Address pciDev)) ∅ ∅ in
  let device := addPCIAttributes h device pciDev in
  let device := addNetDevAttributes h db device (Address pciDev) in
  let device := addRDMADevAttributes h device (Address pciDev) in
  addCloudProviderAttributes h device.

Definition updateDeviceStore (db : DB) (devices : list Device) : DB :=
  mkDB (netNsForPod db)
       (fold_left (fun store device => <[Name device := device]> store) devices ∅)
       (hasDevices db).

(** The device list one pass of the loop of [Run] builds: every PCI device
    of network class, in enumeration order.  No device is left out here. *)
Definition buildDevices (h : Host) (db : DB) : error + list Device :=
  match ghw_PCI h with
  | inl err => inl (errors.New ("error getting PCI info: " +:+ errors.Error err))
  | inr pci => inr (map (pciToDRAdev h db) (filter (fun d => isNetworkDevice d = true) pci))
  end.

(** The lines of [Run] after the list is built: the new database and the
    list sent on [db.notifications], if one is sent. *)
Definition notify (db : DB) (devices : list Device) : DB * option (list Device) :=
  if (0 <? length devices)%nat || hasDevices db
  then
    let db := mkDB (netNsForPod db) (deviceStore db) (0 <? length devices)%nat in
    (updateDeviceStore db devices, Some devices)
  else (db, None).

(** One refresh as the log of a run records it. *)
Record Refresh : Type := mkRefresh {
  built : list Device;
  sent : option (list Device)
}.

(** [Run]: one host observation per pass of the loop.  The run ends with
    the fatal PCI error, or when the observations are exhausted (the
    context is then cancelled and [Run] returns [ctx.Err()], [Canceled]). *)
Definition Canceled : error := errors.New "context canceled".

Fixpoint Run (ticks : list Host) (db : DB) : list Refresh * DB * error :=
  match ticks with
  | [] => ([], db, Canceled)
  | h :: rest =>
      match buildDevices h db with
      | inl err => ([], db, err)
      | inr devices =>
          let '(db', out) := notify db devices in
          let '(log, dbEnd, err) := Run rest db' in
          (mkRefresh devices out :: log, dbEnd, err)
      end
  end.

(** The lists received on the notification channel, in order. *)
Definition notifications (log : list Refresh) : list (list Device) :=
  omap sent log.

(** [getDefaultGwInterfaces] (net.go) *)
Definition gwOfRoute (h : Host) (r : Route) : gset string :=
  if negb (RtFamily r =? FAMILY_V4) && negb (RtFamily r =? FAMILY_V6) then ∅
  else
    match RtDst r with
    | Some (_, false) => ∅
    | _ =>
        let single : gset string :=
          match RtMultiPath r with
          | [] =>
              match RtGw r with
              | None => ∅
              | Some _ =>
                  match LinkByIndex h (RtLinkIndex r) with
                  | inl _ => ∅
                  | inr intfLink => {[LinkName intfLink]}
                  end
              end
          | _ :: _ => ∅
          end in
        fold_left (fun (acc : gset string) nh =>
                     match NhGw nh with
                     | None => acc
                     | Some _ =>
                         match LinkByIndex h (RtLinkIndex r) with
                         | inl _ => acc
                         | inr intfLink => {[LinkName intfLink]} ∪ acc
                         end
                     end)
                  (RtMultiPath r) single
    end.

Definition getDefaultGwInterfaces (h : Host) : gset string :=
  match RouteListFiltered h with
  | inl _ => ∅
  | inr routes => fold_left (fun acc r => gwOfRoute h r ∪ acc) routes ∅
  end.

(** The parts of net.go's netlink discovery that are declared elsewhere in
    the package: the ignore list and the two per-interface probes. *)
Class NetdevProbe : Type := {
  ignoredInterfaceNames : gset string;
  netdevToDRAdev : Link -> error + Device;
  bdfAddress : string -> error + string
}.

(** [discoverNetlinkDevices] (net.go): the catalog keyed by PCI address.  A
    failing [LinkList] is logged and leaves no interface to visit. *)
Definition discoverNetlinkDevices `{NetdevProbe} (h : Host) : gmap string Device :=
  let gwInterfaces := getDefaultGwInterfaces h in
  let ifaces := match LinkList h with inl _ => [] | inr l => l end in
  fold_left (fun devices iface =>
               if bool_decide (LinkName iface ∈ gwInterfaces) then devices
               else if bool_decide (LinkName iface ∈ ignoredInterfaceNames) then devices
               else if FlagLoopback iface then devices
               else
                 match netdevToDRAdev iface with
                 | inl _ => devices
                 | inr device =>
                     let pciAddr :=
                       match bdfAddress (LinkName iface) with
                       | inr pciAddress => pciAddress
                       | inl _ => "netdev-" +:+ LinkName iface
                       end in
                     <[pciAddr := device]> devices
                 end)
            ifaces ∅.

End inventory.

(* ===================================================================== *)
(** ** [slices.SortFunc]                                                  *)
(* ===================================================================== *)

(** [cmp] is a strict weak ordering, as [slices.SortFunc] requires: with
    [a < b] read as [cmp a b < 0], the order is asymmetric and its
    complement is transitive. *)
Record StrictWeakOrdering {A : Type} (cmp : A -> A -> Z) : Prop := {
  cmp_asym : forall a b, cmp a b < 0 -> ~ cmp b a < 0;
  cmp_negtrans : forall a b c, ~ cmp a b < 0 -> ~ cmp b c < 0 -> ~ cmp a c < 0
}.

(** Ascending order as determined by [cmp]: no later element is less than
    an earlier one. *)
Definition Ascending {A : Type} (cmp : A -> A -> Z) (x : list A) : Prop :=
  StronglySorted (fun a b => ~ cmp b a < 0) x.

(** The contract of [slices.SortFunc]: the result holds the same elements
    and is ascending; the sort is not promised to be stable. *)
Class Slices : Type := {
  SortFunc : forall {A : Type}, list A -> (A -> A -> Z) -> list A;
  SortFunc_Permutation : forall (A : Type) (x : list A) cmp,
    Permutation (SortFunc x cmp) x;
  SortFunc_Ascending : forall (A : Type) (x : list A) cmp,
    StrictWeakOrdering cmp -> Ascending cmp (SortFunc x cmp)
}.

(** Go's [insertionSortCmpFunc], which [slices.SortFunc] runs on slices of up
    to 12 elements: each element moves left while it is less than its left
    neighbour.  [sortedRev] is the sorted prefix, last element first. *)
Fixpoint insertLeft {A : Type} (cmp : A -> A -> Z) (x : A) (sortedRev : list A) : list A :=
  match sortedRev with
  | [] => [x]
  | y :: rest => if cmp x y <? 0 then y :: insertLeft cmp x rest else x :: sortedRev
  end.

Definition insertionSortCmpFunc {A : Type} (data : list A) (cmp : A -> A -> Z) : list A :=
  rev (fold_left (fun sortedRev x => insertLeft cmp x sortedRev) data []).

(* ===================================================================== *)
(** ** Package [driver]: the kernel interface                             *)
(* ===================================================================== *)

Module driver.

(** [netlink.Route], the fields [applyRoutingConfig] sets and compares, over
    the address types of the parsing library. *)
Record Route (IP IPNet : Type) : Type := mkRoute {
  LinkIndex : Z;
  Scope : Z;
  Table : Z;
  Dst : option IPNet;
  Gw : option IP;
  Src : option IP
}.
Arguments mkRoute {IP IPNet}.
Arguments LinkIndex {IP IPNet}.
Arguments Scope {IP IPNet}.
Arguments Table {IP IPNet}.
Arguments Dst {IP IPNet}.
Arguments Gw {IP IPNet}.
Arguments Src {IP IPNet}.

(** [netlink.Neigh] *)
Record Neigh (IP HardwareAddr : Type) : Type := mkNeigh {
  NeighLinkIndex : Z;
  NeighState : Z;
  NeighIP : IP;
  NeighHardwareAddr : HardwareAddr
}.
Arguments mkNeigh {IP HardwareAddr}.
Arguments NeighLinkIndex {IP HardwareAddr}.
Arguments NeighState {IP HardwareAddr}.
Arguments NeighIP {IP HardwareAddr}.
Arguments NeighHardwareAddr {IP HardwareAddr}.

Definition NUD_PERMANENT : Z := 128.

(** [netlink.Rule] as [netlink.NewRule()] followed by the assignments of
    [applyRulesConfig] leaves it. *)
Record Rule (IPNet : Type) : Type := mkRule {
  RulePriority : Z;
  RuleTable : Z;
  RuleSrc : option IPNet;
  RuleDst : option IPNet
}.
Arguments mkRule {IPNet}.
Arguments RulePriority {IPNet}.
Arguments RuleTable {IPNet}.
Arguments RuleSrc {IPNet}.
Arguments RuleDst {IPNet}.

Section Netlink.
Context {net : NetLib}.

(** The system calls the driver issues, over a world state [W].  Lookups
    leave the world unchanged; the add and move operations return the new
    world and the error.  [nsAttachNetdev] is declared in a file that is not
    among the sources and is taken as one operation. *)
Class Kernel (W : Type) : Type := {
  NsHandle : Type;
  Handle : Type;
  RdmaLink : Type;
  GetFromPath : W -> string -> error + NsHandle;
  NewHandleAt : W -> NsHandle -> error + Handle;
  LinkByName : W -> Handle -> string -> error + Z;
  RouteList : W -> Handle -> Z -> error + list (Route IP IPNet);
  RouteAdd : W -> Handle -> Route IP IPNet -> W * option error;
  NeighAdd : W -> Handle -> Neigh IP HardwareAddr -> W * option error;
  RuleAdd : W -> Handle -> Rule IPNet -> W * option error;
  Route_String : Route IP IPNet -> string;
  Rule_String : Rule IPNet -> string;
  GetRdmaDeviceForNetdevice : W -> string -> string;
  RdmaLinkByName : W -> string -> error + RdmaLink;
  RdmaLink_Name : RdmaLink -> string;
  RdmaLinkSetNsFd : W -> RdmaLink -> NsHandle -> W * option error;
  nsAttachNetdev : W -> string -> string -> string -> W * option error
}.

End Netlink.

Arguments Kernel {net} W.

(* --------------------------------------------------------------------- *)
(** *** netnamespace.go                                                   *)
(* --------------------------------------------------------------------- *)

Section Effector.
Context {net : NetLib} {W : Type} {kernel : Kernel W} {slices : Slices}.

(** The comparison function handed to [slices.SortFunc]:
    [int(b.Scope) - int(a.Scope)]. *)
Definition byScopeDescending (a b : apis.RouteConfig) : Z :=
  apis.Scope b - apis.Scope a.

(** The duplicate test of [applyRoutingConfig] against one listed route. *)
Definition sameRoute (existingRoute r : Route IP IPNet) : bool :=
  match Dst existingRoute, Dst r with
  | Some edst, Some rdst =>
      String.eqb (IPNet_String edst) (IPNet_String rdst)
      && IP_Equal (Gw existingRoute) (Gw r)
      && IP_Equal (Src existingRoute) (Src r)
      && (Scope existingRoute =? Scope r)
  | _, _ => false
  end.

(** The [netlink.Route] built for a configured route whose destination
    parsed to [dst]. *)
Definition routeOf (nsLink : Z) (route : apis.RouteConfig) (dst : IPNet) : Route IP IPNet :=
  mkRoute nsLink (apis.Scope route) (apis.Table route) (Some dst)
    (ParseIP (apis.Gateway route))
    (if negb (String.eqb (apis.Source route) EmptyString)
     then ParseIP (apis.Source route) else None).

(** One pass of the loop over the sorted routes: the world and the error
    list after it. *)
Definition applyRoute (containerNsPAth ifName : string) (nhNs : Handle) (nsLink : Z)
    (st : W * list error) (route : apis.RouteConfig) : W * list error :=
  let '(w, errorList) := st in
  match ParseCIDR (apis.Destination route) with
  | inl err => (w, errorList ++ [err])
  | inr (_, dst) =>
      let r := routeOf nsLink route dst in
      match RouteList w nhNs nsLink with
      | inl err =>
          (w, errorList ++
              [errors.Wrap ("failed to list routes for interface " +:+ ifName +:+ ": ")
                           err EmptyString])
      | inr existingRoutes =>
          if existsb (fun existingRoute => sameRoute existingRoute r) existingRoutes
          then (w, errorList)
          else
            match RouteAdd w nhNs r with
            | (w', Some err) =>
                if negb (errors.IsErrno err errors.EEXIST)
                then (w', errorList ++
                          [errors.Wrap ("fail to add route " +:+ Route_String r +:+
                                        " for interface " +:+ ifName +:+
                                        " on namespace " +:+ containerNsPAth +:+ ": ")
                                       err EmptyString])
                else (w', errorList)
            | (w', None) => (w', errorList)
            end
      end
  end.

(** [applyRoutingConfig].  The sort is in place in Go: the caller's slice
    is reordered as well. *)
Definition applyRoutingConfig (containerNsPAth ifName : string)
    (routeConfig : list apis.RouteConfig) (w : W) : W * option error :=
  match GetFromPath w containerNsPAth with
  | inl err => (w, Some err)
  | inr containerNs =>
      match NewHandleAt w containerNs with
      | inl err => (w, Some (errors.New ("can not get netlink handle: " +:+ errors.Error err)))
      | inr nhNs =>
          match LinkByName w nhNs ifName with
          | inl err =>
              (w, Some (errors.Wrap ("link not found for interface " +:+ ifName +:+
                                     " on namespace " +:+ containerNsPAth +:+ ": ")
                                    err EmptyString))
          | inr nsLink =>
              let routeConfig := SortFunc routeConfig byScopeDescending in
              let '(w', errorList) :=
                fold_left (applyRoute containerNsPAth ifName nhNs nsLink) routeConfig (w, []) in
              (w', errors.Join errorList)
          end
      end
  end.

Definition applyNeighbor (ifName : string) (nhNs : Handle) (nsLink : Z)
    (st : W * list error) (neigh : apis.NeighborConfig) : W * list error :=
  let '(w, errorList) := st in
  match ParseIP (apis.NeighDestination neigh) with
  | None =>
      (w, errorList ++ [errors.New ("invalid ip address: " +:+ apis.NeighDestination neigh)])
  | Some ip =>
      match ParseMAC (apis.NeighHardwareAddr neigh) with
      | None =>
          (w, errorList ++
              [errors.New ("invalid mac address: " +:+ apis.NeighHardwareAddr neigh)])
      | Some mac =>
          let n := mkNeigh nsLink NUD_PERMANENT ip mac in
          match NeighAdd w nhNs n with
          | (w', Some err) =>
              if negb (errors.IsErrno err errors.EEXIST)
              then (w', errorList ++
                        [errors.Wrap ("failed to add permanent neighbor entry " +:+
                                      apis.NeighDestination neigh +:+ " (" +:+
                                      apis.NeighHardwareAddr neigh +:+ ") for interface " +:+
                                      ifName +:+ ": ")
                                     err EmptyString])
              else (w', errorList)
          | (w', None) => (w', errorList)
          end
      end
  end.

(** [applyNeighborConfig] *)
Definition applyNeighborConfig (containerNsPAth ifName : string)
    (neighConfig : list apis.NeighborConfig) (w : W) : W * option error :=
  match GetFromPath w containerNsPAth with
  | inl err =>
      (w, Some (errors.Wrap ("could not get network namespace from path " +:+
                             containerNsPAth +:+ ": ") err EmptyString))
  | inr containerNs =>
      match NewHandleAt w containerNs with
      | inl err => (w, Some (errors.New ("could not get netlink handle: " +:+ errors.Error err)))
      | inr nhNs =>
          match LinkByName w nhNs ifName with
          | inl err =>
              (w, Some (errors.Wrap ("link not found for interface " +:+ ifName +:+
                                     " on namespace " +:+ containerNsPAth +:+ ": ")
                                    err EmptyString))
          | inr nsLink =>
              let '(w', errorList) :=
                fold_left (applyNeighbor ifName nhNs nsLink) neighConfig (w, []) in
              (w', errors.Join errorList)
          end
      end
  end.

(** The two optional prefixes of a rule: [continue] on the first that does
    not parse. *)
Definition ruleOf (ruleCfg : apis.RuleConfig) : error + Rule IPNet :=
  let src :=
    if negb (String.eqb (apis.RuleSource ruleCfg) EmptyString)
    then match ParseCIDR (apis.RuleSource ruleCfg) with
         | inl err => inl err
         | inr (_, n) => inr (Some n)
         end
    else inr None in
  match src with
  | inl err => inl err
  | inr src =>
      let dst :=
        if negb (String.eqb (apis.RuleDestination ruleCfg) EmptyString)
        then match ParseCIDR (apis.RuleDestination ruleCfg) with
             | inl err => inl err
             | inr (_, n) => inr (Some n)
             end
        else inr None in
      match dst with
      | inl err => inl err
      | inr dst => inr (mkRule (apis.Priority ruleCfg) (apis.RuleTable ruleCfg) src dst)
      end
  end.

Definition applyRule (containerNsPath : string) (nsHandle : Handle)
    (st : W * list error) (ruleCfg : apis.RuleConfig) : W * list error :=
  let '(w, errorList) := st in
  match ruleOf ruleCfg with
  | inl err => (w, errorList ++ [err])
  | inr rule =>
      match RuleAdd w nsHandle rule with
      | (w', Some err) =>
          if negb (errors.IsErrno err errors.EEXIST)
          then (w', errorList ++
                    [errors.Wrap ("failed to add rule " +:+ Rule_String rule +:+
                                  " on namespace " +:+ containerNsPath +:+ ": ")
                                 err EmptyString])
          else (w', errorList)
      | (w', None) => (w', errorList)
      end
  end.

(** [applyRulesConfig] *)
Definition applyRulesConfig (containerNsPath : string)
    (rulesConfig : list apis.RuleConfig) (w : W) : W * option error :=
  match GetFromPath w containerNsPath with
  | inl err => (w, Some err)
  | inr containerNs =>
      match NewHandleAt w containerNs with
      | inl err => (w, Some (errors.New ("could not get netlink handle: " +:+ errors.Error err)))
      | inr nsHandle =>
          let '(w', errorList) :=
            fold_left (applyRule containerNsPath nsHandle) rulesConfig (w, []) in
          (w', errors.Join errorList)
      end
  end.

End Effector.

(* --------------------------------------------------------------------- *)
(** *** rdmadevice.go and driver.go: the pod-sandbox hook                 *)
(* --------------------------------------------------------------------- *)

(** [resourceapi.DeviceRequestAllocationResult] *)
Record DeviceRequestAllocationResult : Type := mkResult {
  Request : string;
  Driver : string;
  Pool : string;
  Device : string
}.

Record OpaqueDeviceConfiguration : Type := mkOpaque {
  OpaqueDriver : string;
  Parameters : RawExtension
}.

Record DeviceAllocationConfiguration : Type := mkAllocationConfig {
  Requests : list string;
  Opaque : option OpaqueDeviceConfiguration
}.

(** [claim.Status.Allocation.Devices] *)
Record AllocationResult : Type := mkAllocation {
  Results : list DeviceRequestAllocationResult;
  Config : list DeviceAllocationConfiguration
}.

Record ResourceClaim : Type := mkClaim {
  ClaimNamespace : string;
  ClaimName : string;
  ClaimUID : string;
  Allocation : option AllocationResult
}.

(** An object of the claim cache: the type assertion to a resource claim
    fails on [OtherObj]. *)
Inductive Obj : Type :=
| ClaimObj (claim : ResourceClaim)
| OtherObj.

Record LinuxNamespace : Type := mkLinuxNamespace {
  NsType : string;
  NsPath : string
}.

Record PodSandbox : Type := mkPodSandbox {
  Uid : string;
  PodName : string;
  PodNamespace : string;
  LinuxNamespaces : list LinuxNamespace
}.

(** [NetworkDriver]: the claim cache is read through
    [ByIndex(podUIDIndex, uid)]. *)
Record NetworkDriver : Type := mkNetworkDriver {
  driverName : string;
  claimAllocations : string -> error + list Obj;
  netdb : inventory.DB
}.

Definition getNetworkNamespace (pod : PodSandbox) : string :=
  match List.find (fun namespace => String.eqb (NsType namespace) "network")
                  (LinuxNamespaces pod) with
  | Some namespace => NsPath namespace
  | None => EmptyString
  end.

Definition podKey (pod : PodSandbox) : string :=
  PodNamespace pod +:+ "/" +:+ PodName pod.

Section Hooks.
Context {net : NetLib} {W : Type} {kernel : Kernel W}.

(** [DB.AddPodNetNs]: the namespace is recorded only if its path opens. *)
Definition AddPodNetNs (w : W) (db : inventory.DB) (pod netNsPath : string) : inventory.DB :=
  match GetFromPath w netNsPath with
  | inl _ => db
  | inr _ =>
      inventory.mkDB (<[pod := netNsPath]> (inventory.netNsForPod db))
                     (inventory.deviceStore db) (inventory.hasDevices db)
  end.

(** [nsAttachRdmadev] (rdmadevice.go) *)
Definition nsAttachRdmadev (hostIfName containerNsPAth : string) (w : W) : W * option error :=
  match GetFromPath w containerNsPAth with
  | inl err =>
      (w, Some (errors.Wrap ("could not get network namespace from path " +:+
                             containerNsPAth +:+ " for network device " +:+
                             hostIfName +:+ " : ") err EmptyString))
  | inr containerNs =>
      match RdmaLinkByName w hostIfName with
      | inl err => (w, Some err)
      | inr hostDev =>
          match RdmaLinkSetNsFd w hostDev containerNs with
          | (w', Some err) =>
              (w', Some (errors.New ("failed to move " +:+ dquote +:+ RdmaLink_Name hostDev
                                     +:+ dquote +:+ " to container ns: " +:+ errors.Error err)))
          | (w', None) => (w', None)
          end
      end
  end.

(** The body of the loop over [claim.Status.Allocation.Devices.Results].
    [Some err] in the result is the [return err] of the handler; [None] is
    the end of the body or a [continue].  The inner loop over the opaque
    configurations only logs. *)
Definition attachResult (np : NetworkDriver) (ns : string) (w : W)
    (result : DeviceRequestAllocationResult) : W * option error :=
  if negb (String.eqb (Driver result) (driverName np)) then (w, None)
  else
    let rdmaDev := GetRdmaDeviceForNetdevice w (Device result) in
    let '(w1, rdmaErr) :=
      if negb (String.eqb rdmaDev EmptyString)
      then nsAttachRdmadev rdmaDev ns w
      else (w, None) in
    match rdmaErr with
    | Some _ => (w1, None)
    | None => nsAttachNetdev w1 (Device result) ns (Device result)
    end.

Fixpoint attachResults (np : NetworkDriver) (ns : string) (w : W)
    (results : list DeviceRequestAllocationResult) : W * option error :=
  match results with
  | [] => (w, None)
  | result :: rest =>
      match attachResult np ns w result with
      | (w', Some err) => (w', Some err)
      | (w', None) => attachResults np ns w' rest
      end
  end.

Fixpoint attachClaims (np : NetworkDriver) (ns : string) (w : W) (objs : list Obj)
  : W * option error :=
  match objs with
  | [] => (w, None)
  | OtherObj :: rest => attachClaims np ns w rest
  | ClaimObj claim :: rest =>
      match Allocation claim with
      | None => attachClaims np ns w rest
      | Some allocation =>
          match attachResults np ns w (Results allocation) with
          | (w', Some err) => (w', Some err)
          | (w', None) => attachClaims np ns w' rest
          end
      end
  end.

(** [NetworkDriver.RunPodSandbox] *)
Definition RunPodSandbox (np : NetworkDriver) (pod : PodSandbox) (w : W)
  : W * NetworkDriver * option error :=
  match claimAllocations np (Uid pod) with
  | inl _ => (w, np, None)
  | inr objs =>
      if Nat.eqb (length objs) 0 then (w, np, None)
      else
        let ns := getNetworkNamespace pod in
        if String.eqb ns EmptyString then (w, np, None)
        else
          let np' := mkNetworkDriver (driverName np) (claimAllocations np)
                       (AddPodNetNs w (netdb np) (podKey pod) ns) in
          let '(w', err) := attachClaims np' ns w objs in
          (w', np', err)
  end.

(** The allocation results the handler visits, in order: those of every
    cached claim that has an allocation. *)
Definition podResults (objs : list Obj) : list DeviceRequestAllocationResult :=
  flat_map (fun obj =>
              match obj with
              | ClaimObj claim =>
                  match Allocation claim with
                  | Some allocation => Results allocation
                  | None => []
                  end
              | OtherObj => []
              end) objs.

End Hooks.

End driver.

(* ===================================================================== *)
(** ** Go standard library: package [regexp]                              *)
(* ===================================================================== *)

(** The part of the pattern syntax that [pciAddressRegex] is written in,
    for a pattern that is anchored at both ends ([^...$]): a match is a
    match of the whole text.  The matcher tries the alternatives in the
    order of Go's leftmost-first rule: what a [?] encloses is tried before
    it is left out. *)
Module regexp.

Inductive Regexp : Type :=
| CharClass (ranges : list (ascii * ascii))   (* [a-bc-d...] *)
| Literal (c : ascii)
| Concat (r1 r2 : Regexp)
| Repeat (n : nat) (r : Regexp)               (* r{n} *)
| Quest (r : Regexp)                          (* r?, also (?:r)? *)
| Capture (i : nat) (r : Regexp).             (* the i-th capturing group *)

Definition inClass (c : ascii) (ranges : list (ascii * ascii)) : bool :=
  existsb (fun '(lo, hi) =>
             (nat_of_ascii lo <=? nat_of_ascii c)%nat && (nat_of_ascii c <=? nat_of_ascii hi)%nat)
          ranges.

(** The text of the captures made so far, latest first. *)
Definition Submatches : Type := list (nat * string).

(** What was read between [s] and its suffix [rest]. *)
Definition consumed (s rest : string) : string :=
  String.substring 0 (String.length s - String.length rest) s.

(** [run r s caps k]: match [r] at the head of [s] and go on with [k] on
    what is left; [None] when no way through [r] lets [k] succeed. *)
Fixpoint run (r : Regexp) (s : string) (caps : Submatches)
    (k : string -> Submatches -> option Submatches) {struct r} : option Submatches :=
  match r with
  | CharClass ranges =>
      match s with
      | String c s' => if inClass c ranges then k s' caps else None
      | EmptyString => None
      end
  | Literal x =>
      match s with
      | String c s' => if Ascii.eqb c x then k s' caps else None
      | EmptyString => None
      end
  | Concat r1 r2 => run r1 s caps (fun s' caps' => run r2 s' caps' k)
  | Repeat n r1 =>
      (fix times (n : nat) (s : string) (caps : Submatches) : option Submatches :=
         match n with
         | O => k s caps
         | S m => run r1 s caps (times m)
         end) n s caps
  | Quest r1 =>
      match run r1 s caps k with
      | Some m => Some m
      | None => k s caps
      end
  | Capture i r1 => run r1 s caps (fun s' caps' => k s' ((i, consumed s s') :: caps'))
  end.

(** The text of group [i]; a group that took no part in the match reads as
    the empty string. *)
Fixpoint group (i : nat) (caps : Submatches) : string :=
  match caps with
  | [] => EmptyString
  | (j, text) :: rest => if Nat.eqb i j then text else group i rest
  end.

(** A compiled pattern [^body$] with its number of capturing groups. *)
Record Pattern : Type := MustCompile {
  body : Regexp;
  NumSubexp : nat
}.

(** [re.FindStringSubmatch(s)]: nil ([None]) when the text does not match,
    else the whole match followed by the text of each group. *)
Definition FindStringSubmatch (re : Pattern) (s : string) : option (list string) :=
  match run (body re) s []
            (fun rest caps => if String.eqb rest EmptyString then Some caps else None) with
  | None => None
  | Some caps => Some (s :: map (fun i => group i caps) (seq 1 (NumSubexp re)))
  end.

End regexp.

(* ===================================================================== *)
(** ** Package [inventory], sysfs.go: PCI addresses in sysfs paths        *)
(* ===================================================================== *)

Module inventory_sysfs.
Import regexp inventory_names.

Definition hexDigit : Regexp := CharClass [("0", "9"); ("a", "f"); ("A", "F")]%char.

(** [^(?:([0-9a-fA-F]{4}):)?([0-9a-fA-F]{2}):([0-9a-fA-F]{2})\.([0-9a-fA-F])$] *)
Definition pciAddressRegex : Pattern :=
  MustCompile
    (Concat (Quest (Concat (Capture 1 (Repeat 4 hexDigit)) (Literal ":")))
       (Concat (Capture 2 (Repeat 2 hexDigit))
          (Concat (Literal ":")
             (Concat (Capture 3 (Repeat 2 hexDigit))
                (Concat (Literal ".") (Capture 4 hexDigit))))))
    4.

(** [parsePCIAddress] *)
Definition parsePCIAddress (s : string) : error + pciAddress :=
  match FindStringSubmatch pciAddressRegex s with
  | None => inl (errors.New ("could not find PCI address in string: " +:+ s))
  | Some matches =>
      if Nat.eqb (length matches) 5
      then inr (mkPciAddress (nth 1 matches EmptyString) (nth 2 matches EmptyString)
                             (nth 3 matches EmptyString) (nth 4 matches EmptyString))
      else inl (errors.New ("invalid PCI address format: " +:+ s))
  end.

(** The loop of [pciAddressFromPath] over the parts of the path, the last
    part first. *)
Fixpoint lastAddress (partsFromEnd : list string) : option pciAddress :=
  match partsFromEnd with
  | [] => None
  | current :: rest =>
      match parsePCIAddress current with
      | inr addr => Some addr
      | inl _ => lastAddress rest
      end
  end.

(** [pciAddressFromPath] *)
Definition pciAddressFromPath (path : string) : error + pciAddress :=
  match lastAddress (rev (strings.Split path "/")) with
  | Some addr => inr addr
  | None => inl (errors.New ("could not find PCI address in path: " +:+ path))
  end.

(** An address in the notation [domain:]bus:device.function of the
    pattern: two hexadecimal digits for bus and device, one for the
    function, and four for the domain if there is one. *)
Definition hexOfLength (n : nat) (s : string) : bool :=
  Nat.eqb (String.length s) n && allHex s.

Definition bdfNotation (a : pciAddress) : bool :=
  (String.eqb (domain a) EmptyString || hexOfLength 4 (domain a))
  && hexOfLength 2 (bus a) && hexOfLength 2 (device a) && hexOfLength 1 (function a).

End inventory_sysfs.

(* ===================================================================== *)
(** ** Package [inventory], db.go: the pod and device lookups             *)
(* ===================================================================== *)

Module inventory_db.
Import inventory.

(** [DB.RemovePodNetNs] *)
Definition RemovePodNetNs (db : DB) (pod : string) : DB :=
  mkDB (delete pod (netNsForPod db)) (deviceStore db) (hasDevices db).

(** [DB.GetPodNetNs]: a key that is not in the map reads as the zero
    value, the empty string. *)
Definition GetPodNetNs (db : DB) (pod : string) : string :=
  default EmptyString (netNsForPod db !! pod).

(** [DB.GetNetInterfaceName]: the stored attribute if the device is in the
    store and has an interface name, sysfs otherwise. *)
Definition GetNetInterfaceName (h : Host) (db : DB) (deviceName : string) : error + string :=
  let pciAddress := inventory_names.DeNormalizePCIAddress deviceName in
  match GetDevice db deviceName with
  | None => GetNetworkInterface h pciAddress
  | Some device =>
      match Attributes device !! AttrInterfaceName with
      | Some (StringValue ifName) => inr ifName
      | _ => GetNetworkInterface h pciAddress
      end
  end.

(** The attributes [addNetDevAttributes] takes over from the stored device
    when the interface is not on the host. *)
Definition reusedAttributes : list string :=
  [AttrInterfaceName; AttrMac; AttrEncapsulation; AttrAlias; AttrState;
   AttrType; AttrIPv4; AttrIPv6; AttrTCFilterNames; AttrTCXProgramNames;
   AttrEBPF; AttrSRIOV; AttrSRIOVVfs; AttrVirtual].

End inventory_db.

(* ===================================================================== *)
(** ** Package [inventory], net.go: the eBPF probes                       *)
(* ===================================================================== *)

Module inventory_net.
Import inventory.

(** The two hooks of an interface that both probes visit, ingress first:
    [HANDLE_MIN_INGRESS], [HANDLE_MIN_EGRESS] for tc and
    [AttachTCXIngress], [AttachTCXEgress] for tcx. *)
Inductive Hook : Type := Ingress | Egress.

(** A tc filter: the type assertion to a BPF filter succeeds or not. *)
Inductive Filter : Type :=
| BpfFilter (name : string)
| OtherFilter.

(** What the probes ask the kernel. *)
Record Probe : Type := mkProbe {
  FilterList : Link -> Hook -> error + list Filter;
  QueryPrograms : Z -> Hook -> error + list Z;      (* the program ids *)
  NewProgramFromID : Z -> error + Z;                (* an open program *)
  ProgramInfo : Z -> error + string                 (* its name *)
}.

(** [getTcFilters]: the set of names is returned as a list in no
    particular order; [elements] fixes one. *)
Definition getTcFilters (p : Probe) (link : Link) : list string * bool :=
  let '(filterNames, isTcEBPF) :=
    fold_left (fun '(names, isEBPF) parent =>
                 match FilterList p link parent with
                 | inl _ => (names, isEBPF)
                 | inr filters =>
                     fold_left (fun '(names, isEBPF) f =>
                                  match f with
                                  | BpfFilter name => ({[name]} ∪ names, true)
                                  | OtherFilter => (names, isEBPF)
                                  end)
                               filters (names, isEBPF)
                 end)
              [Ingress; Egress] ((∅ : gset string), false) in
  (elements filterNames, isTcEBPF).

(** [getTcxFilters] *)
Definition getTcxFilters (p : Probe) (device : Link) : list string * bool :=
  let '(programNames, isTcxEBPF) :=
    fold_left (fun '(names, isEBPF) attach =>
                 match QueryPrograms p (LinkIndex device) attach with
                 | inl _ => (names, isEBPF)
                 | inr programs =>
                     (fold_left (fun names id =>
                                   match NewProgramFromID p id with
                                   | inl _ => names
                                   | inr prog =>
                                       match ProgramInfo p prog with
                                       | inl _ => names
                                       | inr name => {[name]} ∪ names
                                       end
                                   end)
                                programs names,
                      true)
                 end)
              [Ingress; Egress] ((∅ : gset string), false) in
  (elements programNames, isTcxEBPF).

End inventory_net.

(* ===================================================================== *)
(** ** Package [inventory], cloud.go                                      *)
(* ===================================================================== *)

Module inventory_cloud.

Record networkInterface : Type := mkNetworkInterface {
  IPv4 : string;
  IPv6 : list string;
  Mac : string;
  MTU : Z;
  Network : string
}.

Record cloudInstance : Type := mkCloudInstance {
  Name : string;
  Type_ : string;
  AcceleratorProtocol : string;
  Interfaces : list networkInterface
}.

(** [cloudNetwork]: the loop returns at the first interface with the MAC. *)
Fixpoint networkOf (mac : string) (interfaces : list networkInterface) : string :=
  match interfaces with
  | [] => EmptyString
  | cloudInterface :: rest =>
      if String.eqb (Mac cloudInterface) mac then Network cloudInterface
      else networkOf mac rest
  end.

Definition cloudNetwork (mac : string) (instance : option cloudInstance) : string :=
  match instance with
  | None => EmptyString
  | Some i => networkOf mac (Interfaces i)
  end.

(** [getLastSegmentAndTruncate].  [None] is the run-time panic of the slice
    expression [lastSegment[:maxLength]] when [maxLength] is negative. *)
Definition getLastSegmentAndTruncate (s : string) (maxLength : Z) : option string :=
  let segments := strings.Split s "/" in
  if Nat.eqb (length segments) 0 then Some EmptyString
  else
    let lastSegment := List.last segments EmptyString in
    if Z.of_nat (String.length lastSegment) >? maxLength
    then
      if maxLength <? 0 then None
      else Some (String.substring 0 (Z.to_nat maxLength) lastSegment)
    else Some lastSegment.

End inventory_cloud.

(* ===================================================================== *)
(** ** Package [driver], driver.go: the other hooks of the runtime        *)
(* ===================================================================== *)

Module driver_hooks.
Import driver.

(** What the two hooks call and the sources do not hold: the methods
    [np.netdb.AddPodNetns] and [np.netdb.RemovePodNetns] of the database
    (pci.go declares [AddPodNetNs] and [RemovePodNetNs], methods of another
    spelling), and [nsDetachNetdev(containerNsPAth, devName)].  They are
    taken as operations on the state of the node, the database included. *)
Class Netdb (W : Type) : Type := {
  AddPodNetns : W -> string -> string -> W;
  RemovePodNetns : W -> string -> W
}.

Class Detach (W : Type) : Type := {
  nsDetachNetdev : W -> string -> string -> W * option error
}.

Section Hooks.
Context {W : Type} {podStore : Netdb W} {detach : Detach W}.

(** [NetworkDriver.Synchronize]: the pods of the runtime are recorded; the
    handler returns no update and no error. *)
Definition Synchronize (pods : list PodSandbox) (w : W) : W :=
  fold_left (fun w pod =>
               let ns := getNetworkNamespace pod in
               if negb (String.eqb ns EmptyString)
               then AddPodNetns w (podKey pod) ns
               else w)
            pods w.

(** The body of the loop of [StopPodSandbox] over the results of a claim:
    the error of the move is logged and the loop goes on. *)
Definition detachResult (np : NetworkDriver) (ns : string) (w : W)
    (result : DeviceRequestAllocationResult) : W :=
  if negb (String.eqb (Driver result) (driverName np)) then w
  else fst (nsDetachNetdev w ns (Device result)).

Fixpoint detachClaims (np : NetworkDriver) (ns : string) (w : W) (objs : list Obj) : W :=
  match objs with
  | [] => w
  | OtherObj :: rest => detachClaims np ns w rest
  | ClaimObj claim :: rest =>
      match Allocation claim with
      | None => detachClaims np ns w rest
      | Some allocation =>
          detachClaims np ns (fold_left (detachResult np ns) (Results allocation) w) rest
      end
  end.

(** [NetworkDriver.StopPodSandbox].  The deferred [RemovePodNetns] runs on
    every way out, after the body. *)
Definition StopPodSandbox (np : NetworkDriver) (pod : PodSandbox) (w : W)
  : W * option error :=
  let '(w, err) :=
    match claimAllocations np (Uid pod) with
    | inl _ => (w, None)
    | inr objs =>
        if Nat.eqb (length objs) 0 then (w, None)
        else
          let ns := getNetworkNamespace pod in
          if String.eqb ns EmptyString then (w, None)
          else (detachClaims np ns w objs, None)
    end in
  (RemovePodNetns w (podKey pod), err).

End Hooks.

End driver_hooks.

(* ===================================================================== *)
(** ** client-go: package [cache], the indexed store                      *)
(* ===================================================================== *)

(** The store behind [cache.NewIndexer]: objects under the key that the key
    function gives them, found again by the values that an index function
    gives them.  The library keeps one table per index up to date; here the
    index is read off the objects.  An index function that fails makes the
    library panic; the index functions of the driver do not fail. *)
Module cache.

Section Store.
Context {Obj : Type}.

(** [%+v] of an object, for the text of a [KeyError]. *)
Context (Sprint : Obj -> string).

Definition KeyFunc : Type := Obj -> error + string.
Definition IndexFunc : Type := Obj -> list string.

Record Indexer : Type := mkIndexer {
  keyFunc : KeyFunc;
  indexers : gmap string IndexFunc;
  items : gmap string Obj
}.

Definition NewIndexer (keyFunc : KeyFunc) (indexers : gmap string IndexFunc) : Indexer :=
  mkIndexer keyFunc indexers ∅.

Definition KeyError (obj : Obj) (err : error) : error :=
  errors.New ("couldn't create key for object " +:+ Sprint obj +:+ ": " +:+ errors.Error err).

(** [Add]: an object with the key of a stored object takes its place. *)
Definition Add (c : Indexer) (obj : Obj) : Indexer * option error :=
  match keyFunc c obj with
  | inl err => (c, Some (KeyError obj err))
  | inr key => (mkIndexer (keyFunc c) (indexers c) (<[key := obj]> (items c)), None)
  end.

(** [Delete]: what is stored under the key of the object is removed. *)
Definition Delete (c : Indexer) (obj : Obj) : Indexer * option error :=
  match keyFunc c obj with
  | inl err => (c, Some (KeyError obj err))
  | inr key => (mkIndexer (keyFunc c) (indexers c) (delete key (items c)), None)
  end.

(** [ByIndex]: the stored objects to which the index function gives the
    value, in no particular order; [map_to_list] fixes one. *)
Definition ByIndex (c : Indexer) (indexName indexedValue : string) : error + list Obj :=
  match indexers c !! indexName with
  | None => inl (errors.New ("Index with name " +:+ indexName +:+ " does not exist"))
  | Some indexFunc =>
      inr (filter (fun obj => indexedValue ∈ indexFunc obj) (snd <$> map_to_list (items c)))
  end.

End Store.

Arguments Indexer : clear implicits.
Arguments KeyFunc : clear implicits.
Arguments IndexFunc : clear implicits.

(** [cache.NamespaceIndex] *)
Definition NamespaceIndex : string := "namespace".

End cache.

(* ===================================================================== *)
(** ** Package [driver], driver.go: the cache of the prepared claims      *)
(* ===================================================================== *)

Module driver_claims.
Import driver.

(** [resourceapi.ResourceClaimConsumerReference] *)
Record ResourceClaimConsumerReference : Type := mkReference {
  APIGroup : string;
  Resource : string;
  RefName : string;
  RefUID : string
}.

(** A resource claim with [claim.Status.ReservedFor], the field that the
    index by pod reads. *)
Record ReservedClaim : Type := mkReserved {
  Claim : ResourceClaim;
  ReservedFor : list ResourceClaimConsumerReference
}.

(** What the store can hold: the type assertion to a resource claim fails
    on [OtherObject], an object of another type with its namespace and its
    name. *)
Inductive Object : Type :=
| ClaimObject (claim : ReservedClaim)
| OtherObject (namespace name : string).

Definition GetNamespace (obj : Object) : string :=
  match obj with
  | ClaimObject claim => ClaimNamespace (Claim claim)
  | OtherObject namespace _ => namespace
  end.

Definition GetName (obj : Object) : string :=
  match obj with
  | ClaimObject claim => ClaimName (Claim claim)
  | OtherObject _ name => name
  end.

(** [cache.MetaNamespaceKeyFunc]: [namespace/name], or [name] alone for an
    object without namespace. *)
Definition MetaNamespaceKeyFunc : cache.KeyFunc Object := fun obj =>
  inr (if (0 <? String.length (GetNamespace obj))%nat
       then GetNamespace obj +:+ "/" +:+ GetName obj
       else GetName obj).

(** [cache.MetaNamespaceIndexFunc] *)
Definition MetaNamespaceIndexFunc : cache.IndexFunc Object := fun obj => [GetNamespace obj].

Definition podUIDIndex : string := "podUID".

(** [podUIDIndexFunc] *)
Definition podUIDIndexFunc : cache.IndexFunc Object := fun obj =>
  match obj with
  | OtherObject _ _ => []
  | ClaimObject claim =>
      fold_left (fun result reserved =>
                   if negb (String.eqb (Resource reserved) "pods")
                      || negb (String.eqb (APIGroup reserved) EmptyString)
                   then result
                   else result ++ [RefUID reserved])
                (ReservedFor claim) []
  end.

(** The store that [Start] creates. *)
Definition newStore : cache.Indexer Object :=
  cache.NewIndexer MetaNamespaceKeyFunc
    (<[cache.NamespaceIndex := MetaNamespaceIndexFunc]>
       (<[podUIDIndex := podUIDIndexFunc]> ∅)).

(** The fields of [NetworkDriver] that the hooks of the kubelet use. *)
Record ClaimDriver : Type := mkClaimDriver {
  claimDriverName : string;
  claimCache : cache.Indexer Object
}.

(** [kubeletplugin.Device], [kubeletplugin.PrepareResult],
    [kubeletplugin.NamespacedObject] *)
Record PreparedDevice : Type := mkPreparedDevice {
  DeviceRequests : list string;
  PoolName : string;
  DeviceName : string
}.

Record PrepareResult : Type := mkPrepareResult {
  Devices : list PreparedDevice;
  Err : option error
}.

Record NamespacedObject : Type := mkNamespacedObject {
  Namespace : string;
  Name : string;
  UID : string
}.

Section Hooks.
Context (Sprint : Object -> string).

(** [NetworkDriver.prepareResourceClaim].  [None] in the result is the
    run-time panic of [claim.Status.Allocation.Devices] on a claim without
    allocation; the claim is in the cache by then.  The two loops over
    [ReservedFor] and over the configurations have no effect. *)
Definition prepareResourceClaim (np : ClaimDriver) (claim : ReservedClaim)
  : ClaimDriver * option PrepareResult :=
  match cache.Add Sprint (claimCache np) (ClaimObject claim) with
  | (_, Some err) =>
      (np, Some (mkPrepareResult []
                   (Some (errors.Wrap ("failed to add claim " +:+ ClaimUID (Claim claim)
                                       +:+ " to local cache:: ") err EmptyString))))
  | (store, None) =>
      let np := mkClaimDriver (claimDriverName np) store in
      match Allocation (Claim claim) with
      | None => (np, None)
      | Some allocation =>
          (np, Some (mkPrepareResult
                       (map (fun result =>
                               mkPreparedDevice [Request result] (Pool result) (Device result))
                            (Results allocation))
                       None))
      end
  end.

Definition isClaim (obj : Object) : bool :=
  match obj with
  | ClaimObject _ => true
  | OtherObject _ _ => false
  end.

(** [NetworkDriver.unprepareResourceClaim]: the deferred [Delete] of every
    claim that the lookup found runs when the function returns, the last
    one deferred first; their errors are logged.  The loops over the
    results only log. *)
Definition unprepareResourceClaim (np : ClaimDriver) (claim : NamespacedObject)
  : ClaimDriver * option error :=
  match cache.ByIndex (claimCache np) cache.NamespaceIndex
                      (Namespace claim +:+ "/" +:+ Name claim) with
  | inl _ => (np, None)
  | inr objs =>
      if Nat.eqb (length objs) 0 then (np, None)
      else
        let deferred := filter (fun obj => isClaim obj = true) objs in
        (mkClaimDriver (claimDriverName np)
           (fold_left (fun store obj => fst (cache.Delete Sprint store obj))
                      (rev deferred) (claimCache np)),
         None)
  end.

End Hooks.

(** The lookup of [RunPodSandbox] and [StopPodSandbox] in the cache. *)
Definition claimsOfPod (np : ClaimDriver) (uid : string) : error + list Obj :=
  match cache.ByIndex (claimCache np) podUIDIndex uid with
  | inl err => inl err
  | inr objs =>
      inr (map (fun obj => match obj with
                           | ClaimObject claim => ClaimObj (Claim claim)
                           | OtherObject _ _ => OtherObj
                           end) objs)
  end.

End driver_claims.

(* ===================================================================== *)
(** * Instances of the library interfaces                                 *)
(* ===================================================================== *)

(** ** The IPv4 fragment of [net] and [net/netip]

    Dotted-decimal addresses and prefixes as Go parses them: four fields,
    digits only, no leading zero, at most 255.  The library also parses
    IPv6; a text with a colon is simply not an address here. *)

Module ipv4.

Definition isDigit (c : ascii) : bool :=
  let n := nat_of_ascii c in ((48 <=? n) && (n <=? 57))%nat.

Definition digitValue (c : ascii) : Z := Z.of_nat (nat_of_ascii c) - 48.

(** Decimal digits to a number; [None] on an empty text or a non-digit. *)
Fixpoint digitsFrom (acc : Z) (s : string) : option Z :=
  match s with
  | EmptyString => Some acc
  | String c s' => if isDigit c then digitsFrom (acc * 10 + digitValue c) s' else None
  end.

Definition dtoi (s : string) : option Z :=
  match s with
  | EmptyString => None
  | _ => digitsFrom 0 s
  end.

Definition leadingZero (s : string) : bool :=
  match s with
  | String "0" (String _ _) => true
  | _ => false
  end.

(** One field of a dotted-decimal address. *)
Definition parseField (s : string) : option Z :=
  if leadingZero s then None
  else if (3 <? String.length s)%nat then None
  else match dtoi s with
       | Some v => if v <=? 255 then Some v else None
       | None => None
       end.

(** The address as a 32-bit number. *)
Definition parseIPv4 (s : string) : option Z :=
  match strings.Split s "." with
  | [a; b; c; d] =>
      match parseField a, parseField b, parseField c, parseField d with
      | Some a, Some b, Some c, Some d => Some (((a * 256 + b) * 256 + c) * 256 + d)
      | _, _, _, _ => None
      end
  | _ => None
  end.

Definition formatIPv4 (ip : Z) : string :=
  errors.Itoa (Z.shiftr ip 24) +:+ "." +:+ errors.Itoa (Z.land (Z.shiftr ip 16) 255) +:+ "."
  +:+ errors.Itoa (Z.land (Z.shiftr ip 8) 255) +:+ "." +:+ errors.Itoa (Z.land ip 255).

(** The text before the first [sep] and the text after it. *)
Fixpoint cut (sep : ascii) (s : string) : option (string * string) :=
  match s with
  | EmptyString => None
  | String c s' =>
      if Ascii.eqb c sep then Some (EmptyString, s')
      else match cut sep s' with
           | Some (before, after) => Some (String c before, after)
           | None => None
           end
  end.

Definition mask (bits : Z) : Z := Z.shiftl (Z.ones bits) (32 - bits).

(** [net.ParseCIDR]: the address and the network (masked address, prefix
    length).  The prefix length may carry leading zeros here, as in Go. *)
Definition parseCIDR (s : string) : error + (Z * (Z * Z)) :=
  let invalid := inl (errors.New ("invalid CIDR address: " +:+ s)) in
  match cut "/" s with
  | None => invalid
  | Some (addr, bitsText) =>
      match parseIPv4 addr, dtoi bitsText with
      | Some ip, Some n =>
          if n <=? 32 then inr (ip, (Z.land ip (mask n), n)) else invalid
      | _, _ => invalid
      end
  end.

(** [netip.ParsePrefix]: no leading zero in the prefix length. *)
Definition parsePrefix (s : string) : bool :=
  match cut "/" s with
  | None => false
  | Some (addr, bitsText) =>
      match parseIPv4 addr, dtoi bitsText with
      | Some _, Some n => negb (leadingZero bitsText) && (n <=? 32)
      | _, _ => false
      end
  end.

Definition isHexPair (s : string) : bool :=
  match s with
  | String a (String b EmptyString) =>
      inventory_names.isHexDigit a && inventory_names.isHexDigit b
  | _ => false
  end.

(** [net.ParseMAC], the six-byte colon form. *)
Definition parseMAC (s : string) : option string :=
  let parts := strings.Split s ":" in
  if Nat.eqb (length parts) 6 && forallb isHexPair parts then Some s else None.

#[export] Instance lib : NetLib := {|
  IP := Z;
  IPNet := Z * Z;
  HardwareAddr := string;
  ParseIP := parseIPv4;
  ParseCIDR := parseCIDR;
  ParsePrefix := parsePrefix;
  ParseAddr := fun s => match parseIPv4 s with Some _ => true | None => false end;
  ParseMAC := parseMAC;
  IP_eqb := Z.eqb;
  IPNet_String := fun n => formatIPv4 (fst n) +:+ "/" +:+ errors.Itoa (snd n)
|}.

End ipv4.

(** ** A JSON reader for the strict decoders

    Objects, arrays, escape-free strings, integers, booleans and null.
    [sigs.k8s.io/json] matches field names case-sensitively and reports a
    member that the target struct does not declare as a strict error
    [unknown field "<path>"]; a value of the wrong kind is a fatal error. *)

Module jsontext.

#[warnings="-register-all"] Inductive value : Type :=
| Null
| Bool (b : bool)
| Number (n : Z)
| Str (s : string)
| Array (items : list value)
| Object (members : list (string * value)).

Definition isSpace (c : ascii) : bool :=
  let n := nat_of_ascii c in
  (Nat.eqb n 32 || Nat.eqb n 9 || Nat.eqb n 10 || Nat.eqb n 13)%nat.

Definition isQuote (c : ascii) : bool := Nat.eqb (nat_of_ascii c) 34.

Fixpoint skip (s : string) : string :=
  match s with
  | String c s' => if isSpace c then skip s' else s
  | EmptyString => EmptyString
  end.

(** The text of a string literal, read after its opening quote. *)
Fixpoint readString (s : string) : option (string * string) :=
  match s with
  | EmptyString => None
  | String c s' =>
      if isQuote c then Some (EmptyString, s')
      else if Ascii.eqb c "\" || (nat_of_ascii c <? 32)%nat then None
      else match readString s' with
           | Some (text, rest) => Some (String c text, rest)
           | None => None
           end
  end.

Fixpoint readDigits (s : string) : string * string :=
  match s with
  | String c s' =>
      if ipv4.isDigit c
      then let '(ds, rest) := readDigits s' in (String c ds, rest)
      else (EmptyString, s)
  | EmptyString => (EmptyString, EmptyString)
  end.

Definition endsNumber (rest : string) : bool :=
  match rest with
  | String c _ => negb (Ascii.eqb c "." || Ascii.eqb c "e" || Ascii.eqb c "E")
  | EmptyString => true
  end.

Definition readNatural (s : string) : option (Z * string) :=
  let '(ds, rest) := readDigits s in
  if ipv4.leadingZero ds || negb (endsNumber rest) then None
  else match ipv4.dtoi ds with
       | Some n => Some (n, rest)
       | None => None
       end.

Definition readNumber (s : string) : option (Z * string) :=
  match s with
  | String "-" s' =>
      match readNatural s' with
      | Some (n, rest) => Some (- n, rest)
      | None => None
      end
  | _ => readNatural s
  end.

Fixpoint parseValue (fuel : nat) (s : string) {struct fuel} : option (value * string) :=
  match fuel with
  | O => None
  | S fuel =>
      match skip s with
      | EmptyString => None
      | String c r =>
          if Ascii.eqb c "{" then
            match skip r with
            | String "}" r' => Some (Object [], r')
            | _ =>
                match parseMembers fuel r with
                | Some (ms, rest) => Some (Object ms, rest)
                | None => None
                end
            end
          else if Ascii.eqb c "[" then
            match skip r with
            | String "]" r' => Some (Array [], r')
            | _ =>
                match parseItems fuel r with
                | Some (vs, rest) => Some (Array vs, rest)
                | None => None
                end
            end
          else if isQuote c then
            match readString r with
            | Some (text, rest) => Some (Str text, rest)
            | None => None
            end
          else if strings.HasPrefix (String c r) "true" then Some (Bool true, strings.drop 4 (String c r))
          else if strings.HasPrefix (String c r) "false" then Some (Bool false, strings.drop 5 (String c r))
          else if strings.HasPrefix (String c r) "null" then Some (Null, strings.drop 4 (String c r))
          else
            match readNumber (String c r) with
            | Some (n, rest) => Some (Number n, rest)
            | None => None
            end
      end
  end
with parseMembers (fuel : nat) (s : string) {struct fuel}
  : option (list (string * value) * string) :=
  match fuel with
  | O => None
  | S fuel =>
      match skip s with
      | String q r =>
          if isQuote q then
            match readString r with
            | Some (key, r1) =>
                match skip r1 with
                | String ":" r2 =>
                    match parseValue fuel r2 with
                    | Some (v, r3) =>
                        match skip r3 with
                        | String "," r4 =>
                            match parseMembers fuel r4 with
                            | Some (ms, rest) => Some ((key, v) :: ms, rest)
                            | None => None
                            end
                        | String "}" r4 => Some ([(key, v)], r4)
                        | _ => None
                        end
                    | None => None
                    end
                | _ => None
                end
            | None => None
            end
          else None
      | EmptyString => None
      end
  end
with parseItems (fuel : nat) (s : string) {struct fuel} : option (list value * string) :=
  match fuel with
  | O => None
  | S fuel =>
      match parseValue fuel s with
      | Some (v, r1) =>
          match skip r1 with
          | String "," r2 =>
              match parseItems fuel r2 with
              | Some (vs, rest) => Some (v :: vs, rest)
              | None => None
              end
          | String "]" r2 => Some ([v], r2)
          | _ => None
          end
      | None => None
      end
  end.

(** A whole document: one value and nothing but blanks after it. *)
Definition parse (data : string) : option value :=
  match parseValue (S (String.length data)) data with
  | Some (v, rest) =>
      match skip rest with
      | EmptyString => Some v
      | _ => None
      end
  | None => None
  end.

Definition syntaxError : error := errors.New "invalid character in JSON input".

(** What a decoder has gathered: strict errors, fatal errors (Go keeps the
    first) and the value so far. *)
Record Out (A : Type) : Type := mkOut {
  strict : list error;
  fatal : list error;
  val : A
}.
Arguments mkOut {A}.
Arguments strict {A}.
Arguments fatal {A}.
Arguments val {A}.

Definition kindOf (v : value) : string :=
  match v with
  | Null => "null"
  | Bool _ => "bool"
  | Number _ => "number"
  | Str _ => "string"
  | Array _ => "array"
  | Object _ => "object"
  end.

Definition typeError (path : string) (v : value) : error :=
  errors.New ("json: cannot unmarshal " +:+ kindOf v +:+ " into Go struct field " +:+ path).

Definition unknownField (path : string) : error :=
  errors.New ("unknown field " +:+ dquote +:+ path +:+ dquote).

Definition sub (path key : string) : string :=
  if String.eqb path EmptyString then key else path +:+ "." +:+ key.

Definition at_ (path : string) (i : nat) : string :=
  path +:+ "[" +:+ errors.Itoa (Z.of_nat i) +:+ "]".

(** Scalars: null leaves the zero value in place. *)
Definition asString (path : string) (v : value) : Out string :=
  match v with
  | Str s => mkOut [] [] s
  | Null => mkOut [] [] EmptyString
  | _ => mkOut [] [typeError path v] EmptyString
  end.

Definition asInt (path : string) (v : value) : Out Z :=
  match v with
  | Number n => mkOut [] [] n
  | Null => mkOut [] [] 0
  | _ => mkOut [] [typeError path v] 0
  end.

Definition asBool (path : string) (v : value) : Out bool :=
  match v with
  | Bool b => mkOut [] [] b
  | Null => mkOut [] [] false
  | _ => mkOut [] [typeError path v] false
  end.

Fixpoint eachItem {A : Type} (item : string -> value -> Out A) (path : string)
    (i : nat) (vs : list value) : Out (list A) :=
  match vs with
  | [] => mkOut [] [] []
  | v :: rest =>
      let o := item (at_ path i) v in
      let os := eachItem item path (S i) rest in
      mkOut (strict o ++ strict os) (fatal o ++ fatal os) (val o :: val os)
  end.

Definition asList {A : Type} (item : string -> value -> Out A) (path : string) (v : value)
  : Out (list A) :=
  match v with
  | Array vs => eachItem item path 0 vs
  | Null => mkOut [] [] []
  | _ => mkOut [] [typeError path v] []
  end.

(** A struct: every member goes through [member], which stores a declared
    field or reports an unknown one. *)
Definition asStruct {A : Type} (zero : A)
    (member : string -> string -> value -> Out A -> Out A) (path : string) (v : value)
  : Out A :=
  match v with
  | Object ms => fold_left (fun acc '(k, x) => member path k x acc) ms (mkOut [] [] zero)
  | Null => mkOut [] [] zero
  | _ => mkOut [] [typeError path v] zero
  end.

Definition store {A B : Type} (o : Out B) (set : B -> A -> A) (acc : Out A) : Out A :=
  mkOut (strict acc ++ strict o) (fatal acc ++ fatal o) (set (val o) (val acc)).

Definition unknown {A : Type} (path key : string) (acc : Out A) : Out A :=
  mkOut (strict acc ++ [unknownField (sub path key)]) (fatal acc) (val acc).

End jsontext.

(** ** The strict decoders of the two configuration types *)

Module decoders.
Import jsontext.

Definition keyIs (k name : string) : bool := String.eqb k name.

Definition interfaceMember (path k : string) (x : value) (acc : Out apis.InterfaceConfig)
  : Out apis.InterfaceConfig :=
  let p := sub path k in
  if keyIs k "name" then
    store (asString p x)
      (fun v '(apis.mkInterfaceConfig _ a m h g1 g2 g3 g4 e) =>
         apis.mkInterfaceConfig v a m h g1 g2 g3 g4 e) acc
  else if keyIs k "addresses" then
    store (asList asString p x)
      (fun v '(apis.mkInterfaceConfig n _ m h g1 g2 g3 g4 e) =>
         apis.mkInterfaceConfig n v m h g1 g2 g3 g4 e) acc
  else if keyIs k "mtu" then
    store (asInt p x)
      (fun v '(apis.mkInterfaceConfig n a _ h g1 g2 g3 g4 e) =>
         apis.mkInterfaceConfig n a v h g1 g2 g3 g4 e) acc
  else if keyIs k "hardwareAddr" then
    store (asString p x)
      (fun v '(apis.mkInterfaceConfig n a m _ g1 g2 g3 g4 e) =>
         apis.mkInterfaceConfig n a m v g1 g2 g3 g4 e) acc
  else if keyIs k "gsoMaxSize" then
    store (asInt p x)
      (fun v '(apis.mkInterfaceConfig n a m h _ g2 g3 g4 e) =>
         apis.mkInterfaceConfig n a m h v g2 g3 g4 e) acc
  else if keyIs k "groMaxSize" then
    store (asInt p x)
      (fun v '(apis.mkInterfaceConfig n a m h g1 _ g3 g4 e) =>
         apis.mkInterfaceConfig n a m h g1 v g3 g4 e) acc
  else if keyIs k "gsoIPv4MaxSize" then
    store (asInt p x)
      (fun v '(apis.mkInterfaceConfig n a m h g1 g2 _ g4 e) =>
         apis.mkInterfaceConfig n a m h g1 g2 v g4 e) acc
  else if keyIs k "groIPv4MaxSize" then
    store (asInt p x)
      (fun v '(apis.mkInterfaceConfig n a m h g1 g2 g3 _ e) =>
         apis.mkInterfaceConfig n a m h g1 g2 g3 v e) acc
  else if keyIs k "disableEbpfPrograms" then
    store (asBool p x)
      (fun v '(apis.mkInterfaceConfig n a m h g1 g2 g3 g4 _) =>
         apis.mkInterfaceConfig n a m h g1 g2 g3 g4 v) acc
  else unknown path k acc.

Definition routeMember (path k : string) (x : value) (acc : Out apis.RouteConfig)
  : Out apis.RouteConfig :=
  let p := sub path k in
  if keyIs k "destination" then
    store (asString p x) (fun v '(apis.mkRouteConfig _ g s sc t) => apis.mkRouteConfig v g s sc t) acc
  else if keyIs k "gateway" then
    store (asString p x) (fun v '(apis.mkRouteConfig d _ s sc t) => apis.mkRouteConfig d v s sc t) acc
  else if keyIs k "source" then
    store (asString p x) (fun v '(apis.mkRouteConfig d g _ sc t) => apis.mkRouteConfig d g v sc t) acc
  else if keyIs k "scope" then
    store (asInt p x) (fun v '(apis.mkRouteConfig d g s _ t) => apis.mkRouteConfig d g s v t) acc
  else if keyIs k "table" then
    store (asInt p x) (fun v '(apis.mkRouteConfig d g s sc _) => apis.mkRouteConfig d g s sc v) acc
  else unknown path k acc.

Definition neighborMember (path k : string) (x : value) (acc : Out apis.NeighborConfig)
  : Out apis.NeighborConfig :=
  let p := sub path k in
  if keyIs k "destination" then
    store (asString p x) (fun v '(apis.mkNeighborConfig _ h) => apis.mkNeighborConfig v h) acc
  else if keyIs k "hardwareAddr" then
    store (asString p x) (fun v '(apis.mkNeighborConfig d _) => apis.mkNeighborConfig d v) acc
  else unknown path k acc.

Definition ruleMember (path k : string) (x : value) (acc : Out apis.RuleConfig)
  : Out apis.RuleConfig :=
  let p := sub path k in
  if keyIs k "priority" then
    store (asInt p x) (fun v '(apis.mkRuleConfig _ t s d) => apis.mkRuleConfig v t s d) acc
  else if keyIs k "table" then
    store (asInt p x) (fun v '(apis.mkRuleConfig pr _ s d) => apis.mkRuleConfig pr v s d) acc
  else if keyIs k "source" then
    store (asString p x) (fun v '(apis.mkRuleConfig pr t _ d) => apis.mkRuleConfig pr t v d) acc
  else if keyIs k "destination" then
    store (asString p x) (fun v '(apis.mkRuleConfig pr t s _) => apis.mkRuleConfig pr t s v) acc
  else unknown path k acc.

(** [features] is a map from feature name to switch. *)
Definition asFeatures (path : string) (v : value) : Out (list (string * bool)) :=
  match v with
  | Object ms =>
      fold_left (fun acc '(k, x) =>
                   store (asBool (sub path k) x) (fun b fs => fs ++ [(k, b)]) acc)
                ms (mkOut [] [] [])
  | Null => mkOut [] [] []
  | _ => mkOut [] [typeError path v] []
  end.

Definition ethtoolMember (path k : string) (x : value) (acc : Out apis.EthtoolConfig)
  : Out apis.EthtoolConfig :=
  if keyIs k "features" then
    store (asFeatures (sub path k) x) (fun v _ => apis.mkEthtoolConfig v) acc
  else unknown path k acc.

Definition zeroRoute : apis.RouteConfig := apis.mkRouteConfig EmptyString EmptyString EmptyString 0 0.
Definition zeroNeighbor : apis.NeighborConfig := apis.mkNeighborConfig EmptyString EmptyString.
Definition zeroRule : apis.RuleConfig := apis.mkRuleConfig 0 0 EmptyString EmptyString.

Definition configMember (path k : string) (x : value) (acc : Out apis.NetworkConfig)
  : Out apis.NetworkConfig :=
  let p := sub path k in
  if keyIs k "interface" then
    store (asStruct apis.zeroInterfaceConfig interfaceMember p x)
      (fun v '(apis.mkNetworkConfig _ r n ru e) => apis.mkNetworkConfig v r n ru e) acc
  else if keyIs k "routes" then
    store (asList (asStruct zeroRoute routeMember) p x)
      (fun v '(apis.mkNetworkConfig i _ n ru e) => apis.mkNetworkConfig i v n ru e) acc
  else if keyIs k "neighbors" then
    store (asList (asStruct zeroNeighbor neighborMember) p x)
      (fun v '(apis.mkNetworkConfig i r _ ru e) => apis.mkNetworkConfig i r v ru e) acc
  else if keyIs k "rules" then
    store (asList (asStruct zeroRule ruleMember) p x)
      (fun v '(apis.mkNetworkConfig i r n _ e) => apis.mkNetworkConfig i r n v e) acc
  else if keyIs k "ethtool" then
    store (asStruct (apis.mkEthtoolConfig []) ethtoolMember p x)
      (fun v '(apis.mkNetworkConfig i r n ru _) => apis.mkNetworkConfig i r n ru v) acc
  else unknown path k acc.

(** [json.UnmarshalStrict] into an [apis.NetworkConfig]: a fatal error
    hides the strict ones. *)
Definition unmarshalStrict (data : string) (zero : apis.NetworkConfig)
  : list error * option error * apis.NetworkConfig :=
  match parse data with
  | None => ([], Some syntaxError, zero)
  | Some v =>
      let o := asStruct zero configMember EmptyString v in
      match fatal o with
      | e :: _ => ([], Some e, val o)
      | [] => (strict o, None, val o)
      end
  end.

#[export] Instance json : apis.JSONLib := {| apis.UnmarshalStrict := unmarshalStrict |}.

(** The first configuration type, read from the JSON subset of YAML with
    [DisallowUnknownFields]: an unknown field is here a fatal error that
    names the field. *)
Definition legacyRouteMember (path k : string) (x : value) (acc : Out driverconfig.Route)
  : Out driverconfig.Route :=
  let p := sub path k in
  if keyIs k "destination" then
    store (asString p x) (fun v '(driverconfig.mkRoute _ g) => driverconfig.mkRoute v g) acc
  else if keyIs k "gateway" then
    store (asString p x) (fun v '(driverconfig.mkRoute d _) => driverconfig.mkRoute d v) acc
  else unknown EmptyString k acc.

Definition legacyMember (path k : string) (x : value) (acc : Out driverconfig.NetworkConfig)
  : Out driverconfig.NetworkConfig :=
  let p := sub path k in
  if keyIs k "name" then
    store (asString p x)
      (fun v '(driverconfig.mkNetworkConfig _ i r m) => driverconfig.mkNetworkConfig v i r m) acc
  else if keyIs k "ips" then
    store (asList asString p x)
      (fun v '(driverconfig.mkNetworkConfig n _ r m) => driverconfig.mkNetworkConfig n v r m) acc
  else if keyIs k "routes" then
    store (asList (asStruct (driverconfig.mkRoute EmptyString EmptyString) legacyRouteMember) p x)
      (fun v '(driverconfig.mkNetworkConfig n i _ m) => driverconfig.mkNetworkConfig n i v m) acc
  else if keyIs k "mtu" then
    store (asInt p x)
      (fun v '(driverconfig.mkNetworkConfig n i r _) => driverconfig.mkNetworkConfig n i r v) acc
  else unknown EmptyString k acc.

Definition unmarshalYAML (data : string) (zero : driverconfig.NetworkConfig)
  : option error * driverconfig.NetworkConfig :=
  match parse data with
  | None => (Some (errors.New "error converting YAML to JSON"), zero)
  | Some v =>
      let o := asStruct zero legacyMember EmptyString v in
      match fatal o ++ strict o with
      | e :: _ =>
          (Some (errors.Wrap "error unmarshaling JSON: while decoding JSON: json: " e EmptyString),
           val o)
      | [] => (None, val o)
      end
  end.

#[export] Instance yaml : driverconfig.YAMLLib :=
  {| driverconfig.UnmarshalDisallowUnknownFields := unmarshalYAML |}.

End decoders.

(** ** A concrete host: one NIC that carries the default route *)

Module sample_host.
Import inventory.

Definition eth0 : Link :=
  mkLink "eth0" 2 "42:01:0a:80:00:46" 1460 "ether" EmptyString "up" "device" false.

Definition lo : Link :=
  mkLink "lo" 1 "00:00:00:00:00:00" 65536 "loopback" EmptyString "unknown" "device" true.

Definition gvnic : PCIDevice :=
  mkPCIDevice "0000:00:04.0" "0200" (Some "Google, Inc.")
              (Some "Compute Engine Virtual Ethernet [gVNIC]") None None.

(** A SCSI controller: not of network class. *)
Definition scsi : PCIDevice :=
  mkPCIDevice "0000:00:03.0" "0100" (Some "Red Hat, Inc.") (Some "Virtio SCSI") None None.

Definition noSuchDevice : error := errors.Errno errors.ENODEV.

(** [default via 10.128.0.1 dev eth0] and the on-link route of the subnet. *)
Definition defaultRoute : Route :=
  mkRoute FAMILY_V4 None (Some "10.128.0.1") [] 2.

Definition subnetRoute : Route :=
  mkRoute FAMILY_V4 (Some ("10.128.0.0/20", false)) None [] 2.

Definition host (pci : list PCIDevice) : Host :=
  {| ghw_PCI := inr pci;
     pciNetDir := fun a =>
       if String.eqb a "0000:00:04.0" then Entries ["eth0"] else NotExist;
     LinkByName := fun n =>
       if String.eqb n "eth0" then inr eth0
       else if String.eqb n "lo" then inr lo else inl noSuchDevice;
     LinkByIndex := fun i =>
       if i =? 2 then inr eth0 else if i =? 1 then inr lo else inl noSuchDevice;
     LinkList := inr [lo; eth0];
     AddrList := fun l =>
       if String.eqb (LinkName l) "eth0" then inr [mkAddr "10.128.0.70" true IPv4]
       else inr [];
     RouteListFiltered := inr [defaultRoute; subnetRoute];
     TcFilters := fun _ => ([], false);
     TcxFilters := fun _ => ([], false);
     sriov_totalvfs := fun _ => 0;
     sriov_numvfs := fun _ => 0;
     sysVirtualNet := fun _ => false;
     PCIeRootAttribute := fun _ => inl (errors.Errno errors.ENOENT);
     RdmaDevicesForPcidev := fun _ => [];
     ProviderAttributes := fun _ => ∅ |}.

(** The node with its NIC, and the same node seen without any PCI network
    device. *)
Definition node : Host := host [scsi; gvnic].
Definition bare : Host := host [scsi].

End sample_host.

(** ** A small kernel to run the driver on *)

(** One root namespace and one pod namespace at [podNetns], IPv4 only.  An
    add of something that is there answers [EEXIST]; a route through a
    gateway that no route of the table reaches answers [ENETUNREACH]. *)

Module simkernel.
Import driver.
#[local] Existing Instance ipv4.lib.

Definition podNetns : string := "/var/run/netns/pod".
Definition ENETUNREACH : Z := 101.

Record World : Type := mkWorld {
  hostLinks : list string;
  hostRdma : list (string * string);
  podLinks : list string;
  podRdma : list string;
  routes : list (Route IP IPNet);
  neighs : list (Neigh IP HardwareAddr);
  rules : list (Rule IPNet)
}.

Definition getFromPath (path : string) : error + unit :=
  if String.eqb path podNetns then inr tt else inl (errors.Errno errors.ENOENT).

Fixpoint indexOf (name : string) (names : list string) (i : Z) : option Z :=
  match names with
  | [] => None
  | n :: rest => if String.eqb n name then Some i else indexOf name rest (i + 1)
  end.

Definition linkByName (w : World) (name : string) : error + Z :=
  match indexOf name (podLinks w) 2 with
  | Some i => inr i
  | None => inl (errors.New "Link not found")
  end.

Definition netEqb (a b : option IPNet) : bool :=
  match a, b with
  | Some x, Some y => (fst x =? fst y) && (snd x =? snd y)
  | None, None => true
  | _, _ => false
  end.

Definition covers (r : Route IP IPNet) (ip : IP) : bool :=
  match Dst r with
  | Some n => Z.land ip (ipv4.mask (snd n)) =? fst n
  | None => false
  end.

Definition routeAdd (w : World) (r : Route IP IPNet) : World * option error :=
  if existsb (fun x => netEqb (Dst x) (Dst r) && (Table x =? Table r)) (routes w)
  then (w, Some (errors.Errno errors.EEXIST))
  else
    match Gw r with
    | Some gw =>
        if existsb (fun x => covers x gw) (routes w)
        then (mkWorld (hostLinks w) (hostRdma w) (podLinks w) (podRdma w)
                      (routes w ++ [r]) (neighs w) (rules w), None)
        else (w, Some (errors.Errno ENETUNREACH))
    | None =>
        (mkWorld (hostLinks w) (hostRdma w) (podLinks w) (podRdma w)
                 (routes w ++ [r]) (neighs w) (rules w), None)
    end.

Definition neighAdd (w : World) (n : Neigh IP HardwareAddr) : World * option error :=
  if existsb (fun x => (NeighIP x =? NeighIP n) && (NeighLinkIndex x =? NeighLinkIndex n))
             (neighs w)
  then (w, Some (errors.Errno errors.EEXIST))
  else (mkWorld (hostLinks w) (hostRdma w) (podLinks w) (podRdma w)
                (routes w) (neighs w ++ [n]) (rules w), None).

Definition ruleAdd (w : World) (r : Rule IPNet) : World * option error :=
  if existsb (fun x => (RulePriority x =? RulePriority r) && (RuleTable x =? RuleTable r)
                       && netEqb (RuleSrc x) (RuleSrc r) && netEqb (RuleDst x) (RuleDst r))
             (rules w)
  then (w, Some (errors.Errno errors.EEXIST))
  else (mkWorld (hostLinks w) (hostRdma w) (podLinks w) (podRdma w)
                (routes w) (neighs w) (rules w ++ [r]), None).

Definition rdmaFor (w : World) (netdev : string) : string :=
  match List.find (fun p => String.eqb (fst p) netdev) (hostRdma w) with
  | Some p => snd p
  | None => EmptyString
  end.

Definition rdmaLinkByName (w : World) (name : string) : error + string :=
  if existsb (fun p => String.eqb (snd p) name) (hostRdma w) then inr name
  else inl (errors.Errno errors.ENODEV).

Definition rdmaLinkSetNsFd (w : World) (link : string) : World * option error :=
  (mkWorld (hostLinks w) (filter (fun p => negb (String.eqb (snd p) link) = true) (hostRdma w))
           (podLinks w) (podRdma w ++ [link]) (routes w) (neighs w) (rules w), None).

(** The move of a host interface into the pod namespace. *)
Definition attachNetdev (w : World) (hostIfName containerNsPAth ifName : string)
  : World * option error :=
  match getFromPath containerNsPAth with
  | inl err => (w, Some err)
  | inr _ =>
      if existsb (String.eqb hostIfName) (hostLinks w)
      then (mkWorld (filter (fun n => negb (String.eqb n hostIfName) = true) (hostLinks w))
                    (hostRdma w) (podLinks w ++ [ifName]) (podRdma w)
                    (routes w) (neighs w) (rules w), None)
      else (w, Some (errors.New ("link not found for interface " +:+ hostIfName)))
  end.

Definition netString (n : option IPNet) : string :=
  match n with
  | Some x => @IPNet_String ipv4.lib x
  | None => "<nil>"
  end.

#[export] Instance kernel : @Kernel ipv4.lib World := {|
  NsHandle := unit;
  Handle := unit;
  RdmaLink := string;
  GetFromPath := fun _ path => getFromPath path;
  NewHandleAt := fun _ _ => inr tt;
  LinkByName := fun w _ name => linkByName w name;
  RouteList := fun w _ l => inr (filter (fun r => (LinkIndex r =? l) = true) (routes w));
  RouteAdd := fun w _ r => routeAdd w r;
  NeighAdd := fun w _ n => neighAdd w n;
  RuleAdd := fun w _ r => ruleAdd w r;
  Route_String := fun r => "{Dst: " +:+ netString (Dst r) +:+ "}";
  Rule_String := fun r => "ip rule " +:+ errors.Itoa (RulePriority r);
  GetRdmaDeviceForNetdevice := rdmaFor;
  RdmaLinkByName := rdmaLinkByName;
  RdmaLink_Name := fun l => l;
  RdmaLinkSetNsFd := fun w l _ => rdmaLinkSetNsFd w l;
  nsAttachNetdev := attachNetdev
|}.

(** A node with two free NICs, and the same pod namespace before and after
    a configuration was applied to [eth1] in it. *)
Definition host : World := mkWorld ["eth2"; "eth3"] [] [] [] [] [] [].

Definition freshPod : World := mkWorld [] [] ["eth1"] [] [] [] [].

(** The routes of scenario 4 of the spec with the link-scope destination as
    a prefix, a neighbor and a rule. *)
Definition gceRoutes : list apis.RouteConfig :=
  [apis.mkRouteConfig "10.0.0.0/8" "10.0.5.1" EmptyString 0 0;
   apis.mkRouteConfig "10.0.5.1/32" EmptyString EmptyString 253 0].

Definition gceNeighbors : list apis.NeighborConfig :=
  [apis.mkNeighborConfig "10.0.5.1" "42:01:0a:00:05:01"].

Definition gceRules : list apis.RuleConfig :=
  [apis.mkRuleConfig 100 0 "10.0.5.8/32" EmptyString].

(** The pod namespace after the three configurations were applied once. *)
Definition configuredPod : World :=
  mkWorld [] [] ["eth1"] []
    [mkRoute 2 253 0 (Some (167773441, 32)) None None;
     mkRoute 2 0 0 (Some (167772160, 8)) (Some 167773441) None]
    [mkNeigh 2 NUD_PERMANENT 167773441 "42:01:0a:00:05:01"]
    [mkRule 100 0 (Some (167773448, 32)) None].

(** A pod with one claim for three devices; [eth1] is not on the host. *)
Definition threeDevices : list Obj :=
  [ClaimObj (mkClaim "default" "nics" "claim-uid"
               (Some (mkAllocation
                        [mkResult "nic-a" "dra.net" "node" "eth2";
                         mkResult "nic-b" "dra.net" "node" "eth1";
                         mkResult "nic-c" "dra.net" "node" "eth3"] [])))].

Definition networkDriver : NetworkDriver :=
  mkNetworkDriver "dra.net"
    (fun uid => if String.eqb uid "pod-uid" then inr threeDevices else inr [])
    inventory.New.

Definition pod : PodSandbox :=
  mkPodSandbox "pod-uid" "pod" "default" [mkLinuxNamespace "network" podNetns].

(** The node after [eth2] was moved into the pod. *)
Definition afterEth2 : World := mkWorld ["eth3"] [] ["eth2"] [] [] [] [].

End simkernel.

(** ** The sample node after its NIC was moved into a pod *)

Module sample_moved.
Import inventory.

(** The host with another content of the [net] directories of its PCI
    devices. *)
Definition withNetDir (h : Host) (dir : string -> DirListing) : Host :=
  {| ghw_PCI := ghw_PCI h; pciNetDir := dir; LinkByName := LinkByName h;
     LinkByIndex := LinkByIndex h; LinkList := LinkList h; AddrList := AddrList h;
     RouteListFiltered := RouteListFiltered h;
     TcFilters := TcFilters h; TcxFilters := TcxFilters h;
     sriov_totalvfs := sriov_totalvfs h; sriov_numvfs := sriov_numvfs h;
     sysVirtualNet := sysVirtualNet h; PCIeRootAttribute := PCIeRootAttribute h;
     RdmaDevicesForPcidev := RdmaDevicesForPcidev h;
     ProviderAttributes := ProviderAttributes h |}.

(** The PCI device is still enumerated, its [net] directory is gone. *)
Definition node : Host := withNetDir sample_host.node (fun _ => NotExist).

(** The database after one refresh of the sample node. *)
Definition refreshed : DB := (Run [sample_host.node] New).1.2.

End sample_moved.

(** ** A node with an RDMA NIC and a pod whose namespace is gone *)

Module sample_rdma.
Import driver simkernel.

(** The NIC [eth2] has the RDMA device [mlx5_0]. *)
Definition host : World := mkWorld ["eth2"] [("eth2", "mlx5_0")] [] [] [] [] [].

Definition oneDevice : list Obj :=
  [ClaimObj (mkClaim "default" "nic" "claim-uid"
               (Some (mkAllocation [mkResult "nic-a" "dra.net" "node" "eth2"] [])))].

Definition networkDriver : NetworkDriver :=
  mkNetworkDriver "dra.net"
    (fun uid => if String.eqb uid "pod-uid" then inr oneDevice else inr [])
    inventory.New.

(** The path of the network namespace of the pod does not open. *)
Definition pod : PodSandbox :=
  mkPodSandbox "pod-uid" "pod" "default" [mkLinuxNamespace "network" "/proc/404/ns/net"].

End sample_rdma.


(* ===================================================================== *)
(** * The vocabulary of the statements                                    *)
(* ===================================================================== *)

(** ** Inventory *)

Section InventoryStatements.
Import inventory.

(** What decides the notification of the pass at position [k] of a run that
    starts from the database [db]. *)
Definition previousHadDevices (db : DB) (log : list Refresh) (k : nat) : Prop :=
  match k with
  | O => hasDevices db = true
  | S k' => exists p, log !! k' = Some p /\ built p <> []
  end.

(** The host with another routing table. *)
Definition withRoutes (h : Host) (routes : error + list Route) : Host :=
  {| ghw_PCI := ghw_PCI h; pciNetDir := pciNetDir h; LinkByName := LinkByName h;
     LinkByIndex := LinkByIndex h; LinkList := LinkList h; AddrList := AddrList h;
     RouteListFiltered := routes;
     TcFilters := TcFilters h; TcxFilters := TcxFilters h;
     sriov_totalvfs := sriov_totalvfs h; sriov_numvfs := sriov_numvfs h;
     sysVirtualNet := sysVirtualNet h; PCIeRootAttribute := PCIeRootAttribute h;
     RdmaDevicesForPcidev := RdmaDevicesForPcidev h;
     ProviderAttributes := ProviderAttributes h |}.

End InventoryStatements.

(** ** Configuration validation *)

(** Payloads are written with ['] for the quote character. *)
Definition quoted (s : string) : string :=
  strings.Replace (fun c => if Ascii.eqb c "'" then ascii_of_nat 34 else c) s.

Definition payload (s : string) : option RawExtension :=
  Some (mkRawExtension (Some (quoted s))).

(** The text of the error [ValidateConfig] returns on a payload, if any,
    with the IPv4 parsers and the JSON decoder. *)
Definition validationError (s : string) : option string :=
  errors.Error <$> snd (@apis.ValidateConfig ipv4.lib decoders.json (payload s)).

(** [strings.Contains] as a test. *)
Fixpoint containsb (s substr : string) : bool :=
  strings.HasPrefix s substr
  || match s with
     | EmptyString => false
     | String _ s' => containsb s' substr
     end.

Section RouteStatements.
Context {net : NetLib}.

(** The routes that validation has to reject. *)
Definition invalidRoute (route : apis.RouteConfig) : Prop :=
  (apis.Scope route <> 0 /\ apis.Scope route <> 253)
  \/ (apis.Scope route = 0 /\ apis.Gateway route = EmptyString)
  \/ (apis.Gateway route <> EmptyString /\ ParseIP (apis.Gateway route) = None)
  \/ apis.Destination route = EmptyString
  \/ ((exists e, ParseCIDR (apis.Destination route) = inl e)
      /\ ParseIP (apis.Destination route) = None).

(** A link-scope route without gateway, with a destination that parses. *)
Definition linkRoute (route : apis.RouteConfig) : Prop :=
  apis.Scope route = 253 /\ apis.Gateway route = EmptyString
  /\ apis.Destination route <> EmptyString
  /\ ((exists n, ParseCIDR (apis.Destination route) = inr n)
      \/ is_Some (ParseIP (apis.Destination route))).

End RouteStatements.

(** The configuration with another mtu. *)
Definition withMTU (m : Z) (config : apis.NetworkConfig) : apis.NetworkConfig :=
  let i := apis.Interface config in
  apis.mkNetworkConfig
    (apis.mkInterfaceConfig (apis.Name i) (apis.Addresses i) m (apis.HardwareAddr i)
       (apis.GSOMaxSize i) (apis.GROMaxSize i) (apis.GSOIPv4MaxSize i)
       (apis.GROIPv4MaxSize i) (apis.DisableEbpfPrograms i))
    (apis.Routes config) (apis.Neighbors config) (apis.Rules config) (apis.Ethtool config).

Definition legacyWithMTU (m : Z) (config : driverconfig.NetworkConfig)
  : driverconfig.NetworkConfig :=
  driverconfig.mkNetworkConfig (driverconfig.Name config) (driverconfig.IPs config)
    (driverconfig.Routes config) m.

(** Payloads of the package's test table and variations of them, with the
    configurations they decode to. *)
Definition linkScopePayload : string :=
  "{'interface': {'name': 'eth0', 'addresses': ['192.168.1.10/24']},
    'routes': [{'destination': '10.0.0.0/8', 'scope': 253}]}".

Definition badScopePayload : string :=
  "{'interface': {'name': 'eth0', 'addresses': ['192.168.1.10/24']},
    'routes': [{'destination': '10.0.0.0/8', 'gateway': '192.168.1.1', 'scope': 100}]}".

Definition eth0Interface (mtu : Z) : apis.InterfaceConfig :=
  apis.mkInterfaceConfig "eth0" ["192.168.1.10/24"] mtu EmptyString 0 0 0 0 false.

Definition linkScopeConfig : apis.NetworkConfig :=
  apis.mkNetworkConfig (eth0Interface 0)
    [apis.mkRouteConfig "10.0.0.0/8" EmptyString EmptyString 253 0] [] []
    (apis.mkEthtoolConfig []).

Definition badScopeConfig : apis.NetworkConfig :=
  apis.mkNetworkConfig (eth0Interface 0)
    [apis.mkRouteConfig "10.0.0.0/8" "192.168.1.1" EmptyString 100 0] [] []
    (apis.mkEthtoolConfig []).

Definition mtuPayload : string := "{'interface': {'name': 'eth0', 'addresses': ['192.168.1.10/24'], 'mtu': 1500}}".
Definition negativeMtuPayload : string := "{'interface': {'name': 'eth0', 'addresses': ['192.168.1.10/24'], 'mtu': -5}}".
Definition legacyZeroMtuPayload : string := "{'ips': ['192.168.1.10/24'], 'mtu': 0}".

Definition mtuConfig (mtu : Z) : apis.NetworkConfig :=
  apis.mkNetworkConfig (eth0Interface mtu) [] [] [] (apis.mkEthtoolConfig []).

Definition unknownFieldPayload : string :=
  "{'interface': {'name': 'eth0', 'addresses': ['192.168.1.10/24']},
    'routes': [{'gateways': '192.168.1.1'}]}".

Definition unknownFieldAndTypeErrorPayload : string :=
  "{'interface': {'name': 'eth0', 'mtu': 'jumbo'}, 'gateways': '192.168.1.1'}".

(** ** Sorting *)

(** The order of the sorted prefix of the insertion sort when it is read
    from its last element: no earlier element of the reading is less than a
    later one. *)
Definition notLess {A : Type} (cmp : A -> A -> Z) (a b : A) : Prop := ~ cmp a b < 0.

(** ** The effector *)

(** A kernel that also records the routes handed to [RouteAdd], in call
    order; everything else is passed through. *)
Definition traced {net : NetLib} {W : Type} (kernel : driver.Kernel W)
  : driver.Kernel (W * list (driver.Route IP IPNet)) := {|
  driver.NsHandle := driver.NsHandle;
  driver.Handle := driver.Handle;
  driver.RdmaLink := driver.RdmaLink;
  driver.GetFromPath := fun w => driver.GetFromPath (fst w);
  driver.NewHandleAt := fun w => driver.NewHandleAt (fst w);
  driver.LinkByName := fun w => driver.LinkByName (fst w);
  driver.RouteList := fun w => driver.RouteList (fst w);
  driver.RouteAdd := fun w h r =>
    let '(w', e) := driver.RouteAdd (fst w) h r in ((w', snd w ++ [r]), e);
  driver.NeighAdd := fun w h n =>
    let '(w', e) := driver.NeighAdd (fst w) h n in ((w', snd w), e);
  driver.RuleAdd := fun w h r =>
    let '(w', e) := driver.RuleAdd (fst w) h r in ((w', snd w), e);
  driver.Route_String := driver.Route_String;
  driver.Rule_String := driver.Rule_String;
  driver.GetRdmaDeviceForNetdevice := fun w => driver.GetRdmaDeviceForNetdevice (fst w);
  driver.RdmaLinkByName := fun w => driver.RdmaLinkByName (fst w);
  driver.RdmaLink_Name := driver.RdmaLink_Name;
  driver.RdmaLinkSetNsFd := fun w l ns =>
    let '(w', e) := driver.RdmaLinkSetNsFd (fst w) l ns in ((w', snd w), e);
  driver.nsAttachNetdev := fun w a b c =>
    let '(w', e) := driver.nsAttachNetdev (fst w) a b c in ((w', snd w), e)
|}.

Section EffectorStatements.
Context {net : NetLib} {W : Type} {kernel : driver.Kernel W}.

(** The answer of an add operation that is no failure for the effector:
    success, or an error that is [EEXIST]. *)
Definition benign (e : option error) : Prop :=
  match e with
  | None => True
  | Some err => errors.IsErrno err errors.EEXIST = true
  end.

(** The configuration is one the effector can read. *)
Definition readableRoute (route : apis.RouteConfig) : Prop :=
  exists n, ParseCIDR (apis.Destination route) = inr n.

Definition readableNeighbor (neigh : apis.NeighborConfig) : Prop :=
  is_Some (ParseIP (apis.NeighDestination neigh))
  /\ is_Some (ParseMAC (apis.NeighHardwareAddr neigh)).

Definition readableRule (rule : apis.RuleConfig) : Prop :=
  exists r, driver.ruleOf rule = inr r.

(** A set of worlds in which the configuration is already present: the
    namespace of the pod and its interface are there, the routes can be
    listed, and the add of every configured route, neighbor and rule is
    answered by success or [EEXIST] and leaves the world in the set. *)
Record Settled (path ifName : string) (link : Z) (routes : list apis.RouteConfig)
    (neighbors : list apis.NeighborConfig) (rules : list apis.RuleConfig)
    (present : W -> Prop) : Prop := {
  settled_ns : forall w, present w -> exists ns, driver.GetFromPath w path = inr ns;
  settled_handle : forall w ns, present w -> exists h, driver.NewHandleAt w ns = inr h;
  settled_link : forall w h, present w -> driver.LinkByName w h ifName = inr link;
  settled_list : forall w h, present w -> exists rs, driver.RouteList w h link = inr rs;
  settled_route : forall w h route ip dst, present w ->
    In route routes -> ParseCIDR (apis.Destination route) = inr (ip, dst) ->
    benign (snd (driver.RouteAdd w h (driver.routeOf link route dst)))
    /\ present (fst (driver.RouteAdd w h (driver.routeOf link route dst)));
  settled_neigh : forall w h neigh ip mac, present w ->
    In neigh neighbors ->
    ParseIP (apis.NeighDestination neigh) = Some ip ->
    ParseMAC (apis.NeighHardwareAddr neigh) = Some mac ->
    benign (snd (driver.NeighAdd w h (driver.mkNeigh link driver.NUD_PERMANENT ip mac)))
    /\ present (fst (driver.NeighAdd w h (driver.mkNeigh link driver.NUD_PERMANENT ip mac)));
  settled_rule : forall w h ruleCfg r, present w ->
    In ruleCfg rules -> driver.ruleOf ruleCfg = inr r ->
    benign (snd (driver.RuleAdd w h r)) /\ present (fst (driver.RuleAdd w h r))
}.

End EffectorStatements.

(** ** Statements about the inventory *)

Section InventoryVocabulary.
Import inventory.

(** What makes [name] an interface of a default gateway by the route [r]:
    an IPv4 or IPv6 route with no destination or the unspecified one, with
    a gateway of its own (and no multipath) or a multipath hop that has a
    gateway, on the link [RtLinkIndex r] whose name is [name]. *)
Definition defaultGatewayRoute (h : Host) (r : Route) (name : string) : Prop :=
  (RtFamily r = FAMILY_V4 \/ RtFamily r = FAMILY_V6)
  /\ (RtDst r = None \/ exists text, RtDst r = Some (text, true))
  /\ ((RtMultiPath r = [] /\ RtGw r <> None)
      \/ exists nh, In nh (RtMultiPath r) /\ NhGw nh <> None)
  /\ exists intfLink, LinkByIndex h (RtLinkIndex r) = inr intfLink /\ LinkName intfLink = name.

End InventoryVocabulary.

(** A payload with a route that has no destination, and a payload of the
    first generation with a route. *)
Definition emptyDestinationPayload : string :=
  "{'interface': {'name': 'eth0', 'addresses': ['192.168.1.10/24']},
    'routes': [{'gateway': '192.168.1.1'}]}".

Definition emptyDestinationConfig : apis.NetworkConfig :=
  apis.mkNetworkConfig (eth0Interface 0)
    [apis.mkRouteConfig EmptyString "192.168.1.1" EmptyString 0 0] [] []
    (apis.mkEthtoolConfig []).

Definition legacyRoutePayload : string :=
  "{'name': 'eth0', 'ips': ['192.168.1.10/24'],
    'routes': [{'destination': '10.0.0.0/8', 'gateway': '192.168.1.1'}]}".

Definition legacyRouteConfig : driverconfig.NetworkConfig :=
  driverconfig.mkNetworkConfig "eth0" ["192.168.1.10/24"]
    [driverconfig.mkRoute "10.0.0.0/8" "192.168.1.1"] 0.

(** Scenario 4 of the spec as it is written: the link-scope route names its
    destination by the bare address. *)
Definition linkRoutePayload : string :=
  "{'routes': [{'destination': '10.0.0.0/8', 'gateway': '10.0.5.1'},
               {'destination': '10.0.5.1', 'scope': 253}]}".

Definition linkRouteConfig : apis.NetworkConfig :=
  apis.mkNetworkConfig apis.zeroInterfaceConfig
    [apis.mkRouteConfig "10.0.0.0/8" "10.0.5.1" EmptyString 0 0;
     apis.mkRouteConfig "10.0.5.1" EmptyString EmptyString 253 0] [] []
    (apis.mkEthtoolConfig []).

(** ** Statements about the first [ValidateConfig] *)

Section LegacyRouteStatements.
Context {net : NetLib}.

(** The routes the first [ValidateConfig] accepts. *)
Definition legacyValidRoute (route : driverconfig.Route) : Prop :=
  driverconfig.Destination route <> EmptyString
  /\ driverconfig.Gateway route <> EmptyString
  /\ ParsePrefix (driverconfig.Destination route) = true
  /\ ParseAddr (driverconfig.Gateway route) = true.

End LegacyRouteStatements.

(** ** The calls of the effector and of the hooks *)

(** What was handed to the kernel, in call order. *)
Record Calls (IP IPNet HardwareAddr : Type) : Type := mkCalls {
  routeAdds : list (driver.Route IP IPNet);
  neighAdds : list (driver.Neigh IP HardwareAddr);
  ruleAdds : list (driver.Rule IPNet);
  rdmaMoves : list string;                       (* the RDMA link moved *)
  netdevMoves : list (string * string * string)  (* host name, namespace, new name *)
}.
Arguments mkCalls {IP IPNet HardwareAddr}.
Arguments routeAdds {IP IPNet HardwareAddr}.
Arguments neighAdds {IP IPNet HardwareAddr}.
Arguments ruleAdds {IP IPNet HardwareAddr}.
Arguments rdmaMoves {IP IPNet HardwareAddr}.
Arguments netdevMoves {IP IPNet HardwareAddr}.

Definition noCalls {IP IPNet HardwareAddr : Type} : Calls IP IPNet HardwareAddr :=
  mkCalls [] [] [] [] [].

(** A kernel that also records every add and every move it is asked for,
    whatever it answers; everything else is passed through. *)
Definition recorded {net : NetLib} {W : Type} (kernel : driver.Kernel W)
  : driver.Kernel (W * Calls IP IPNet HardwareAddr) := {|
  driver.NsHandle := driver.NsHandle;
  driver.Handle := driver.Handle;
  driver.RdmaLink := driver.RdmaLink;
  driver.GetFromPath := fun w => driver.GetFromPath (fst w);
  driver.NewHandleAt := fun w => driver.NewHandleAt (fst w);
  driver.LinkByName := fun w => driver.LinkByName (fst w);
  driver.RouteList := fun w => driver.RouteList (fst w);
  driver.RouteAdd := fun w h r =>
    let '(w', e) := driver.RouteAdd (fst w) h r in
    let c := snd w in
    ((w', mkCalls (routeAdds c ++ [r]) (neighAdds c) (ruleAdds c) (rdmaMoves c)
                  (netdevMoves c)), e);
  driver.NeighAdd := fun w h n =>
    let '(w', e) := driver.NeighAdd (fst w) h n in
    let c := snd w in
    ((w', mkCalls (routeAdds c) (neighAdds c ++ [n]) (ruleAdds c) (rdmaMoves c)
                  (netdevMoves c)), e);
  driver.RuleAdd := fun w h r =>
    let '(w', e) := driver.RuleAdd (fst w) h r in
    let c := snd w in
    ((w', mkCalls (routeAdds c) (neighAdds c) (ruleAdds c ++ [r]) (rdmaMoves c)
                  (netdevMoves c)), e);
  driver.Route_String := driver.Route_String;
  driver.Rule_String := driver.Rule_String;
  driver.GetRdmaDeviceForNetdevice := fun w => driver.GetRdmaDeviceForNetdevice (fst w);
  driver.RdmaLinkByName := fun w => driver.RdmaLinkByName (fst w);
  driver.RdmaLink_Name := driver.RdmaLink_Name;
  driver.RdmaLinkSetNsFd := fun w l ns =>
    let '(w', e) := driver.RdmaLinkSetNsFd (fst w) l ns in
    let c := snd w in
    ((w', mkCalls (routeAdds c) (neighAdds c) (ruleAdds c)
                  (rdmaMoves c ++ [driver.RdmaLink_Name l]) (netdevMoves c)), e);
  driver.nsAttachNetdev := fun w hostIfName ns ifName =>
    let '(w', e) := driver.nsAttachNetdev (fst w) hostIfName ns ifName in
    let c := snd w in
    ((w', mkCalls (routeAdds c) (neighAdds c) (ruleAdds c) (rdmaMoves c)
                  (netdevMoves c ++ [(hostIfName, ns, ifName)])), e)
|}.

Section EffectorCalls.
Context {net : NetLib} {W : Type} {kernel : driver.Kernel W}.

(** The netlink handle in the namespace at [path], if both steps to it
    succeed. *)
Definition handleAt (w : W) (path : string) : option driver.Handle :=
  match driver.GetFromPath w path with
  | inl _ => None
  | inr ns =>
      match driver.NewHandleAt w ns with
      | inl _ => None
      | inr nh => Some nh
      end
  end.

(** The index of the link [ifName] in the namespace at [path], if the
    namespace, the handle and the link are there. *)
Definition linkAt (w : W) (path ifName : string) : option Z :=
  match driver.GetFromPath w path with
  | inl _ => None
  | inr ns =>
      match driver.NewHandleAt w ns with
      | inl _ => None
      | inr nh =>
          match driver.LinkByName w nh ifName with
          | inl _ => None
          | inr nsLink => Some nsLink
          end
      end
  end.

(** The kernel objects of the configured items that can be read. *)
Definition routeFor (nsLink : Z) (route : apis.RouteConfig) : option (driver.Route IP IPNet) :=
  match ParseCIDR (apis.Destination route) with
  | inl _ => None
  | inr (_, dst) => Some (driver.routeOf nsLink route dst)
  end.

Definition neighFor (nsLink : Z) (neigh : apis.NeighborConfig)
  : option (driver.Neigh IP HardwareAddr) :=
  match ParseIP (apis.NeighDestination neigh), ParseMAC (apis.NeighHardwareAddr neigh) with
  | Some ip, Some mac => Some (driver.mkNeigh nsLink driver.NUD_PERMANENT ip mac)
  | _, _ => None
  end.

Definition ruleFor (ruleCfg : apis.RuleConfig) : option (driver.Rule IPNet) :=
  match driver.ruleOf ruleCfg with
  | inl _ => None
  | inr rule => Some rule
  end.

End EffectorCalls.

(** ** Statements about the hooks *)

(** What the hooks ask of the database and of the kernel. *)
Inductive HookCall : Type :=
| AddedPodNetns (pod ns : string)
| RemovedPodNetns (pod : string)
| DetachedNetdev (ns devName : string).

(** The operations with a record of every call, whatever they answer. *)
Definition recordedNetdb {W : Type} (podStore : driver_hooks.Netdb W)
  : driver_hooks.Netdb (W * list HookCall) := {|
  driver_hooks.AddPodNetns := fun w pod ns =>
    (driver_hooks.AddPodNetns (fst w) pod ns, snd w ++ [AddedPodNetns pod ns]);
  driver_hooks.RemovePodNetns := fun w pod =>
    (driver_hooks.RemovePodNetns (fst w) pod, snd w ++ [RemovedPodNetns pod])
|}.

Definition recordedDetach {W : Type} (detach : driver_hooks.Detach W)
  : driver_hooks.Detach (W * list HookCall) := {|
  driver_hooks.nsDetachNetdev := fun w ns devName =>
    let '(w', e) := driver_hooks.nsDetachNetdev (fst w) ns devName in
    ((w', snd w ++ [DetachedNetdev ns devName]), e)
|}.

(** The results of the pod that were allocated by the driver itself. *)
Definition ownResults (np : driver.NetworkDriver) (objs : list driver.Obj)
  : list driver.DeviceRequestAllocationResult :=
  filter (fun result => driver.Driver result = driver.driverName np) (driver.podResults objs).

(** The pods of the runtime that are not on the host network. *)
Definition withNetworkNamespace (pods : list driver.PodSandbox) : list driver.PodSandbox :=
  filter (fun pod => driver.getNetworkNamespace pod <> EmptyString) pods.

(** ** Statements about the cache of the claims *)

Section ClaimCacheVocabulary.
Import driver_claims.

(** A store of the driver: made by [Start], every object under its own
    key. *)
Definition storeOfDriver (c : cache.Indexer Object) : Prop :=
  cache.keyFunc c = MetaNamespaceKeyFunc
  /\ cache.indexers c = cache.indexers newStore
  /\ forall key obj, cache.items c !! key = Some obj -> MetaNamespaceKeyFunc obj = inr key.

(** The claim is reserved for the pod with this UID. *)
Definition reservedForPod (uid : string) (claim : ReservedClaim) : Prop :=
  exists reserved,
    In reserved (ReservedFor claim)
    /\ Resource reserved = "pods" /\ APIGroup reserved = EmptyString
    /\ RefUID reserved = uid.

(** The key of an object in the store of the driver. *)
Definition keyOf (obj : Object) : string :=
  match MetaNamespaceKeyFunc obj with
  | inr key => key
  | inl _ => EmptyString
  end.

(** The reference that the kubelet hands to [UnprepareResourceClaims] for a
    claim. *)
Definition referenceTo (claim : ReservedClaim) : NamespacedObject :=
  mkNamespacedObject (driver.ClaimNamespace (Claim claim)) (driver.ClaimName (Claim claim))
                     (driver.ClaimUID (Claim claim)).

End ClaimCacheVocabulary.

(** A claim of the namespace [default] that is reserved for one pod. *)
Module sample_claims.
Import driver driver_claims.

Definition nics : ReservedClaim :=
  mkReserved
    (mkClaim "default" "nics" "claim-uid"
       (Some (mkAllocation [mkResult "nic-a" "dra.net" "node" "eth2";
                            mkResult "gpu-0" "gpu.example.com" "node" "gpu0"] [])))
    [mkReference EmptyString "pods" "pod" "pod-uid"].

Definition networkDriver : ClaimDriver := mkClaimDriver "dra.net" newStore.

(** A claim whose namespace is the text that [unprepareResourceClaim] looks
    up for [nics]. *)
Definition stray : ReservedClaim :=
  mkReserved (mkClaim "default/nics" "stray" "stray-uid" (Some (mkAllocation [] []))) [].

Definition Sprint (obj : Object) : string := GetNamespace obj +:+ "/" +:+ GetName obj.

End sample_claims.

(* ===================================================================== *)
(** * Properties                                                          *)
(* ===================================================================== *)

(** ** Strings *)

Lemma append_cons (x : ascii) (a b : string) :
  String x a +:+ b = String x (a +:+ b).
Proof. reflexivity. Qed.

Lemma append_assoc (a b c : string) : (a +:+ b) +:+ c = a +:+ b +:+ c.
Proof. induction a as [|x a IH]; [reflexivity|]. now rewrite !append_cons, IH. Qed.

Lemma append_nil_r (a : string) : a +:+ EmptyString = a.
Proof. induction a as [|x a IH]; [reflexivity|]. now rewrite append_cons, IH. Qed.

Lemma append_length (a b : string) :
  String.length (a +:+ b) = (String.length a + String.length b)%nat.
Proof.
  induction a as [|x a IH]; [reflexivity|].
  rewrite append_cons. cbn [String.length]. now rewrite IH.
Qed.

Lemma HasPrefix_app (p s : string) : strings.HasPrefix (p +:+ s) p = true.
Proof.
  induction p as [|x p IH]; [reflexivity|].
  rewrite append_cons. cbn [strings.HasPrefix]. now rewrite Ascii.eqb_refl, IH.
Qed.

Lemma drop_app (p s : string) : strings.drop (String.length p) (p +:+ s) = s.
Proof.
  induction p as [|x p IH]; [reflexivity|].
  rewrite append_cons. cbn [String.length strings.drop]. exact IH.
Qed.

Lemma TrimPrefix_app (p s : string) : strings.TrimPrefix (p +:+ s) p = s.
Proof. unfold strings.TrimPrefix. now rewrite HasPrefix_app, drop_app. Qed.

Lemma Replace_app (r : strings.byteReplacer) (a b : string) :
  strings.Replace r (a +:+ b) = strings.Replace r a +:+ strings.Replace r b.
Proof.
  induction a as [|x a IH]; [reflexivity|].
  rewrite append_cons. cbn [strings.Replace]. now rewrite append_cons, IH.
Qed.

Lemma Replace_list (r : strings.byteReplacer) (s : string) :
  list_ascii_of_string (strings.Replace r s) = map r (list_ascii_of_string s).
Proof. induction s as [|x s IH]; [reflexivity|]. cbn. now rewrite IH. Qed.

Lemma list_ascii_app (a b : string) :
  list_ascii_of_string (a +:+ b) = list_ascii_of_string a ++ list_ascii_of_string b.
Proof.
  induction a as [|x a IH]; [reflexivity|].
  rewrite append_cons. cbn [list_ascii_of_string]. now rewrite IH.
Qed.

(** ** Device names *)

Section Names.
Import inventory_names.

Lemma pciReplacer_dashed (c : ascii) :
  strings.NewReplacer [(":", "-"); (".", "-")]%char c = dashed c.
Proof. reflexivity. Qed.

Lemma hex_not_separator (c : ascii) :
  isHexDigit c = true -> dashed c = c /\ Ascii.eqb c "-" = false.
Proof.
  destruct c as [[] [] [] [] [] [] [] []]; vm_compute; intros H;
    solve [discriminate H | split; reflexivity].
Qed.

Lemma Replace_hex (s : string) :
  allHex s = true -> strings.Replace dashed s = s.
Proof.
  induction s as [|c s IH]; [reflexivity|].
  cbn. intros [Hc Hs]%andb_prop.
  destruct (hex_not_separator c Hc) as [-> _]. now rewrite IH.
Qed.

Lemma genSplit_hex (s rest cur : string) :
  allHex s = true ->
  strings.genSplit "-" (s +:+ rest) 0 cur = strings.genSplit "-" rest 0 (cur +:+ s).
Proof.
  revert cur. induction s as [|c s IH]; intros cur.
  - intros _. cbn. now rewrite append_nil_r.
  - cbn [allHex]. intros [Hc Hs]%andb_prop.
    destruct (hex_not_separator c Hc) as [_ Hne].
    rewrite append_cons. cbn [strings.genSplit strings.HasPrefix].
    rewrite Hne. cbn [andb]. rewrite IH by exact Hs.
    now rewrite append_assoc.
Qed.

Lemma genSplit_dash (rest cur : string) :
  strings.genSplit "-" ("-" +:+ rest) 0 cur = cur :: strings.genSplit "-" rest 0 EmptyString.
Proof. reflexivity. Qed.

Lemma genSplit_hex_end (s cur : string) :
  allHex s = true -> strings.genSplit "-" s 0 cur = [cur +:+ s].
Proof.
  intros H. rewrite <- (append_nil_r s) at 1.
  rewrite genSplit_hex by exact H. reflexivity.
Qed.

Lemma Split_four (d b v f : string) :
  allHex d = true -> allHex b = true -> allHex v = true -> allHex f = true ->
  strings.Split (d +:+ "-" +:+ b +:+ "-" +:+ v +:+ "-" +:+ f) "-" = [d; b; v; f].
Proof.
  intros Hd Hb Hv Hf. unfold strings.Split.
  rewrite genSplit_hex, genSplit_dash by exact Hd.
  rewrite genSplit_hex, genSplit_dash by exact Hb.
  rewrite genSplit_hex, genSplit_dash by exact Hv.
  rewrite genSplit_hex_end by exact Hf.
  reflexivity.
Qed.

Lemma hexComponent_inv (s : string) :
  hexComponent s = true -> String.eqb s EmptyString = false /\ allHex s = true.
Proof.
  unfold hexComponent. intros [H1 H2]%andb_prop.
  split; [now apply negb_true_iff in H1 | exact H2].
Qed.

Lemma Normalize_components (d b v f : string) :
  allHex d = true -> allHex b = true -> allHex v = true -> allHex f = true ->
  NormalizePCIAddress (d +:+ ":" +:+ b +:+ ":" +:+ v +:+ "." +:+ f)
  = "net1-" +:+ d +:+ "-" +:+ b +:+ "-" +:+ v +:+ "-" +:+ f.
Proof.
  intros Hd Hb Hv Hf. unfold NormalizePCIAddress.
  assert (String.eqb (d +:+ ":" +:+ b +:+ ":" +:+ v +:+ "." +:+ f) EmptyString = false) as ->.
  { destruct d; reflexivity. }
  change (strings.NewReplacer [(":", "-"); (".", "-")]%char) with dashed.
  rewrite !Replace_app.
  rewrite (Replace_hex d Hd), (Replace_hex b Hb), (Replace_hex v Hv), (Replace_hex f Hf).
  reflexivity.
Qed.

(** C3. For every well-formed four-component PCI address
    domain:bus:device.function, de-normalising the normalised name gives the
    address back, and the normalised name is "net1-" followed by the
    address with every ':' and '.' replaced by '-'. *)
Theorem DeNormalize_Normalize_wellFormed (a : pciAddress) :
  wellFormedBDF a = true ->
  DeNormalizePCIAddress (NormalizePCIAddress (pciAddress_String a)) = pciAddress_String a
  /\ list_ascii_of_string (NormalizePCIAddress (pciAddress_String a))
     = list_ascii_of_string "net1-" ++ map dashed (list_ascii_of_string (pciAddress_String a)).
Proof.
  destruct a as [d b v f]. unfold wellFormedBDF, pciAddress_String. cbn [domain bus device function].
  intros H. apply andb_prop in H as [H Hf]. apply andb_prop in H as [H Hv].
  apply andb_prop in H as [Hd Hb].
  apply hexComponent_inv in Hd as [Hdne Hd], Hb as [_ Hb], Hv as [_ Hv], Hf as [_ Hf].
  rewrite Hdne. split.
  - rewrite Normalize_components by assumption.
    unfold DeNormalizePCIAddress.
    change (normalizedNamePrefix +:+ "-") with "net1-".
    assert (String.eqb ("net1-" +:+ d +:+ "-" +:+ b +:+ "-" +:+ v +:+ "-" +:+ f) EmptyString
            = false) as -> by reflexivity.
    rewrite HasPrefix_app, TrimPrefix_app. cbn [negb].
    rewrite Split_four by assumption. reflexivity.
  - unfold NormalizePCIAddress.
    assert (String.eqb (d +:+ ":" +:+ b +:+ ":" +:+ v +:+ "." +:+ f) EmptyString = false) as ->.
    { destruct d; reflexivity. }
    change (normalizedNamePrefix +:+ "-" +:+ ?x) with ("net1-" +:+ x).
    rewrite list_ascii_app, Replace_list. reflexivity.
Qed.

(** The address of the package's own test. *)
Lemma DeNormalize_Normalize_witness :
  wellFormedBDF (mkPciAddress "0000" "8a" "00" "0") = true
  /\ DeNormalizePCIAddress (NormalizePCIAddress "0000:8a:00.0") = "0000:8a:00.0".
Proof.
  split; [reflexivity|].
  exact (proj1 (DeNormalize_Normalize_wellFormed (mkPciAddress "0000" "8a" "00" "0") eq_refl)).
Defined.

End Names.

(** ** The refresh loop of the inventory *)

Section Inventory.
Import inventory.

Lemma notify_sent (db : DB) (devices : list Device) :
  snd (notify db devices)
  = if (0 <? length devices)%nat || hasDevices db then Some devices else None.
Proof. unfold notify. now destruct ((0 <? length devices)%nat || hasDevices db). Qed.

(** After a pass, [hasDevices] tells whether the list just built was
    non-empty, whatever it was before. *)
Lemma notify_hasDevices (db : DB) (devices : list Device) :
  hasDevices (fst (notify db devices)) = (0 <? length devices)%nat.
Proof.
  unfold notify. destruct (0 <? length devices)%nat eqn:Hlen; cbn.
  - reflexivity.
  - destruct (hasDevices db) eqn:Hhas; cbn; [reflexivity | exact Hhas].
Qed.

Lemma nonempty_length {A : Type} (l : list A) : (0 <? length l)%nat = true <-> l <> [].
Proof. destruct l; cbn; split; intros H; congruence. Qed.

Lemma Run_sent_iff (ticks : list Host) :
  forall (db : DB) (k : nat) (r : Refresh),
    (Run ticks db).1.1 !! k = Some r ->
    (is_Some (sent r) <-> built r <> [] \/ previousHadDevices db (Run ticks db).1.1 k)
    /\ (forall ds, sent r = Some ds -> ds = built r).
Proof.
  induction ticks as [|h rest IH]; intros db k r; cbn [Run].
  - intros H. discriminate H.
  - destruct (buildDevices h db) as [err|devices]; [intros H; discriminate H|].
    pose proof (notify_sent db devices) as Hsent.
    pose proof (notify_hasDevices db devices) as Hhas.
    destruct (notify db devices) as [db' out]. cbn [fst snd] in Hsent, Hhas.
    specialize (IH db').
    destruct (Run rest db') as [[log dbEnd] err]. cbn [fst snd] in IH |- *.
    destruct k as [|k]; cbn [lookup list_lookup].
    + intros [= <-]. cbn [sent built previousHadDevices]. subst out. split.
      * destruct (0 <? length devices)%nat eqn:Hlen; cbn [orb].
        -- apply nonempty_length in Hlen. split; [now left | intros _; now eexists].
        -- assert (devices = []) as -> by (destruct devices; [reflexivity|discriminate Hlen]).
           destruct (hasDevices db); split.
           ++ intros _. now right.
           ++ intros _. now eexists.
           ++ intros [? H]. discriminate H.
           ++ intros [H|H]; [now contradiction H | discriminate H].
      * intros ds. destruct ((0 <? length devices)%nat || hasDevices db); congruence.
    + intros Hk. destruct (IH k r Hk) as [IH1 IH2]. split; [|exact IH2].
      rewrite IH1. destruct k as [|k]; cbn [previousHadDevices lookup list_lookup].
      * rewrite Hhas, nonempty_length. split.
        -- intros [H|H]; [now left | right; exists (mkRefresh devices out); now split].
        -- intros [H|[p [[= <-] H]]]; [now left | now right].
      * reflexivity.
Qed.

(** C9. In a run of the refresh loop from a new database, the pass at
    position [k] sends a snapshot if and only if the list it built is
    non-empty or the pass just before it built a non-empty list; the
    snapshot sent is the list built.  A pass that builds an empty list
    right after a pass that built an empty list (or as the first pass)
    sends nothing. *)
Theorem Run_notification_iff (ticks : list Host) (k : nat) (r : Refresh) :
  (Run ticks New).1.1 !! k = Some r ->
  (is_Some (sent r) <->
     built r <> [] \/
     exists k' p, k = S k' /\ (Run ticks New).1.1 !! k' = Some p /\ built p <> [])
  /\ (forall ds, sent r = Some ds -> ds = built r)
  /\ (built r = [] ->
      (forall k' p, k = S k' -> (Run ticks New).1.1 !! k' = Some p -> built p = []) ->
      sent r = None).
Proof.
  intros Hk. destruct (Run_sent_iff ticks New k r Hk) as [Hiff Hds].
  assert (previousHadDevices New (Run ticks New).1.1 k <->
          exists k' p, k = S k' /\ (Run ticks New).1.1 !! k' = Some p /\ built p <> []) as Hprev.
  { destruct k as [|k]; cbn [previousHadDevices New hasDevices].
    - split; [intros H; discriminate H | intros (k' & p & H & _); discriminate H].
    - split.
      + intros (p & H1 & H2). now exists k, p.
      + intros (k' & p & [= <-] & H1 & H2). now exists p. }
  rewrite Hprev in Hiff. split; [exact Hiff|]. split; [exact Hds|].
  intros Hempty Hprevious. destruct (sent r) as [ds|] eqn:Hs; [|reflexivity].
  exfalso. destruct (proj1 Hiff (ex_intro _ ds eq_refl)) as [H|(k' & p & -> & Hp & Hne)].
  - now apply H.
  - apply Hne. now apply (Hprevious k' p).
Qed.

End Inventory.

Section InventoryDefaultRoute.
Import inventory.

(** The device list of a pass does not depend on the routing table of the
    host. *)
Lemma buildDevices_ignores_routes (h : Host) (db : DB) (routes : error + list Route) :
  buildDevices (withRoutes h routes) db = buildDevices h db.
Proof. reflexivity. Qed.

(** The netlink discovery of net.go, for comparison, never lists an
    interface of the default gateway: every catalog entry was built from
    an interface outside [getDefaultGwInterfaces]. *)
Lemma discoverNetlinkDevices_skips_gateway `{NetdevProbe} (h : Host) (key : string) (d : Device) :
  discoverNetlinkDevices h !! key = Some d ->
  exists iface, netdevToDRAdev iface = inr d /\ LinkName iface ∉ getDefaultGwInterfaces h.
Proof.
  unfold discoverNetlinkDevices.
  generalize (match LinkList h with inl _ => [] | inr l => l end). intros ifaces.
  assert (forall (acc : gmap string Device),
             (forall k x, acc !! k = Some x ->
                exists iface, netdevToDRAdev iface = inr x
                              /\ LinkName iface ∉ getDefaultGwInterfaces h) ->
             forall k x,
               fold_left (fun devices iface =>
                 if bool_decide (LinkName iface ∈ getDefaultGwInterfaces h) then devices
                 else if bool_decide (LinkName iface ∈ ignoredInterfaceNames) then devices
                 else if FlagLoopback iface then devices
                 else match netdevToDRAdev iface with
                      | inl _ => devices
                      | inr device =>
                          <[match bdfAddress (LinkName iface) with
                            | inr pciAddress => pciAddress
                            | inl _ => "netdev-" +:+ LinkName iface
                            end := device]> devices
                      end) ifaces acc !! k = Some x ->
               exists iface, netdevToDRAdev iface = inr x
                             /\ LinkName iface ∉ getDefaultGwInterfaces h) as Hfold.
  { induction ifaces as [|iface rest IH]; intros acc Hacc k x; cbn [fold_left].
    - apply Hacc.
    - apply IH. intros k' x'.
      case_bool_decide as Hgw; [apply Hacc|].
      case_bool_decide; [apply Hacc|].
      destruct (FlagLoopback iface); [apply Hacc|].
      destruct (netdevToDRAdev iface) as [e|device] eqn:Hdev; [apply Hacc|].
      rewrite lookup_insert. case_decide.
      + intros [= <-]. now exists iface.
      + apply Hacc. }
  apply Hfold. intros k x Hk. rewrite lookup_empty in Hk. discriminate Hk.
Qed.

(** C1 (as the code behaves). On the sample node [eth0] carries the default
    route, and the first pass of [Run] still sends a snapshot whose only
    device is the NIC of [eth0], under the interface name [eth0]. *)
Theorem Run_publishes_default_route_interface :
  getDefaultGwInterfaces sample_host.node = {["eth0"]}
  /\ exists d,
       notifications (Run [sample_host.node] New).1.1 = [[d]]
       /\ Name d = "net1-0000-00-04-0"
       /\ Attributes d !! AttrInterfaceName = Some (StringValue "eth0").
Proof.
  split; [reflexivity|].
  eexists. split; [reflexivity|]. split; reflexivity.
Qed.

(** A run of three passes: the NIC is seen, then gone, then still gone. *)
Lemma Run_notification_witness :
  (Run [sample_host.node; sample_host.bare; sample_host.bare] New).1.1 !! 2%nat
  = Some (mkRefresh [] None)
  /\ sent (mkRefresh [] None) = None.
Proof.
  split; [reflexivity|].
  refine (proj2 (proj2 (Run_notification_iff
            [sample_host.node; sample_host.bare; sample_host.bare] 2
            (mkRefresh [] None) eq_refl)) eq_refl _).
  intros k' p [= <-]. cbn. intros [= <-]. reflexivity.
Defined.

End InventoryDefaultRoute.

(** ** [ValidateConfig] *)

Lemma Join_nonempty (errs : list error) : errs <> [] -> is_Some (errors.Join errs).
Proof. destruct errs; [congruence | intros _; now eexists]. Qed.

Lemma Contains_refl (s : string) : strings.Contains s s.
Proof. exists EmptyString, EmptyString. now rewrite append_nil_r. Qed.

Lemma Contains_append_l (pre s t : string) :
  strings.Contains s t -> strings.Contains (pre +:+ s) t.
Proof.
  intros (a & b & ->). exists (pre +:+ a), b. now rewrite append_assoc.
Qed.

Lemma Contains_append_r (s post t : string) :
  strings.Contains s t -> strings.Contains (s +:+ post) t.
Proof.
  intros (a & b & ->). exists a, (b +:+ post). now rewrite !append_assoc.
Qed.

Lemma Error_JoinError (e : error) (rest : list error) :
  errors.Error (errors.JoinError (e :: rest))
  = match rest with
    | [] => errors.Error e
    | _ => errors.Error e +:+ String "010"%char EmptyString
           +:+ errors.Error (errors.JoinError rest)
    end.
Proof. destruct rest; reflexivity. Qed.

(** The text of a joined error contains the text of each of its parts. *)
Lemma JoinError_Contains (errs : list error) (e : error) :
  In e errs -> strings.Contains (errors.Error (errors.JoinError errs)) (errors.Error e).
Proof.
  induction errs as [|x rest IH]; [intros []|].
  intros Hin. rewrite Error_JoinError. destruct Hin as [->|Hin].
  - destruct rest; [apply Contains_refl|]. apply Contains_append_r, Contains_refl.
  - destruct rest as [|y rest']; [destruct Hin|].
    apply Contains_append_l, Contains_append_l, IH, Hin.
Qed.

Lemma Error_Wrap_Contains (pre post : string) (inner : error) (t : string) :
  strings.Contains (errors.Error inner) t ->
  strings.Contains (errors.Error (errors.Wrap pre inner post)) t.
Proof. intros H. cbn [errors.Error]. now apply Contains_append_l, Contains_append_r. Qed.

Section ValidateConfigProperties.
Context {net : NetLib} {json : apis.JSONLib} {yaml : driverconfig.YAMLLib}.

(** C10. An absent opaque configuration is validly absent in both
    generations of [ValidateConfig]: for a nil [RawExtension], for a nil
    [Raw] and for an empty [Raw] the result is a nil configuration and a nil
    error, whatever the decoder and the address parsers are. *)
Theorem ValidateConfig_absent :
  apis.ValidateConfig None = (None, None)
  /\ apis.ValidateConfig (Some (mkRawExtension None)) = (None, None)
  /\ apis.ValidateConfig (Some (mkRawExtension (Some EmptyString))) = (None, None)
  /\ driverconfig.ValidateConfig None = (None, None)
  /\ driverconfig.ValidateConfig (Some (mkRawExtension None)) = (None, None)
  /\ driverconfig.ValidateConfig (Some (mkRawExtension (Some EmptyString))) = (None, None).
Proof. repeat split; reflexivity. Qed.

(** [ValidateConfig] on a payload that decodes without complaint. *)
Lemma ValidateConfig_decoded (data : string) (config : apis.NetworkConfig) :
  data <> EmptyString ->
  apis.UnmarshalStrict data apis.zeroNetworkConfig = ([], None, config) ->
  apis.ValidateConfig (Some (mkRawExtension (Some data)))
  = (Some config,
     errors.Join (apis.addressErrors (apis.Addresses (apis.Interface config))
                  ++ apis.routesErrors 0 (apis.Routes config))).
Proof.
  intros Hne Hdec. unfold apis.ValidateConfig. cbn [Raw].
  destruct data as [|c data]; [congruence|]. cbn [String.length Nat.eqb].
  now rewrite Hdec.
Qed.

Lemma routeErrors_invalid (i : Z) (route : apis.RouteConfig) :
  invalidRoute route -> apis.routeErrors i route <> [].
Proof.
  unfold invalidRoute, apis.routeErrors, apis.RT_SCOPE_UNIVERSE, apis.RT_SCOPE_LINK.
  intros H Hnil. apply app_eq_nil in Hnil as [Hdst Hnil].
  apply app_eq_nil in Hnil as [Hscope Hgw].
  destruct H as [[H0 H253]|[[H0 Hg]|[[Hg Hp]|[Hd|[[e He] Hp]]]]].
  - apply Z.eqb_neq in H0, H253. rewrite H0, H253 in Hscope. discriminate Hscope.
  - rewrite Hg, H0 in Hgw. discriminate Hgw.
  - apply String.eqb_neq in Hg. rewrite Hg, Hp in Hgw. discriminate Hgw.
  - rewrite Hd in Hdst. discriminate Hdst.
  - rewrite He, Hp in Hdst. destruct (String.eqb (apis.Destination route) EmptyString);
      discriminate Hdst.
Qed.

Lemma routeErrors_link (i : Z) (route : apis.RouteConfig) :
  linkRoute route -> apis.routeErrors i route = [].
Proof.
  unfold linkRoute, apis.routeErrors, apis.RT_SCOPE_UNIVERSE, apis.RT_SCOPE_LINK.
  intros (Hs & Hg & Hd & Hp). rewrite Hs, Hg.
  apply String.eqb_neq in Hd. rewrite Hd. cbn.
  destruct Hp as [[n ->]|[ip Hip]]; [reflexivity|].
  destruct (ParseCIDR (apis.Destination route)); [now rewrite Hip | reflexivity].
Qed.

Lemma routesErrors_invalid (routes : list apis.RouteConfig) :
  forall i route, In route routes -> invalidRoute route -> apis.routesErrors i routes <> [].
Proof.
  induction routes as [|r rest IH]; intros i route; [intros []|].
  intros [->|Hin] Hinv Hnil; cbn [apis.routesErrors] in Hnil;
    apply app_eq_nil in Hnil as [H1 H2].
  - now apply (routeErrors_invalid i route).
  - now apply (IH (i + 1) route).
Qed.

Lemma routesErrors_link (routes : list apis.RouteConfig) :
  forall i, (forall route, In route routes -> linkRoute route) -> apis.routesErrors i routes = [].
Proof.
  induction routes as [|r rest IH]; intros i H; [reflexivity|].
  cbn [apis.routesErrors]. rewrite routeErrors_link by (apply H; now left).
  apply IH. intros route Hin. apply H. now right.
Qed.

Lemma addressErrors_valid (addresses : list string) :
  (forall ip, In ip addresses -> ParsePrefix ip = true) -> apis.addressErrors addresses = [].
Proof.
  induction addresses as [|ip rest IH]; intros H; [reflexivity|].
  unfold apis.addressErrors. cbn [flat_map]. rewrite (H ip) by now left.
  apply IH. intros ip' Hin. apply H. now right.
Qed.

(** C4. On a payload that decodes to [config]: if some route has a scope
    other than 0 and 253, or universe scope and no gateway, or a gateway
    that is not an IP address, or a destination that is empty or neither a
    CIDR nor an IP address, [ValidateConfig] returns an error; and if the
    decoder has no complaint, the addresses parse and every route has link
    scope, no gateway and a destination that parses, it returns the
    configuration and no error. *)
Theorem ValidateConfig_routes (data : string) (strictErrs : list error)
    (config : apis.NetworkConfig) :
  data <> EmptyString ->
  apis.UnmarshalStrict data apis.zeroNetworkConfig = (strictErrs, None, config) ->
  (forall route, In route (apis.Routes config) -> invalidRoute route ->
     is_Some (snd (apis.ValidateConfig (Some (mkRawExtension (Some data))))))
  /\ (strictErrs = [] ->
      (forall ip, In ip (apis.Addresses (apis.Interface config)) -> ParsePrefix ip = true) ->
      (forall route, In route (apis.Routes config) -> linkRoute route) ->
      apis.ValidateConfig (Some (mkRawExtension (Some data))) = (Some config, None)).
Proof.
  intros Hne Hdec. split.
  - intros route Hin Hinv. destruct strictErrs as [|s0 rest].
    + rewrite (ValidateConfig_decoded data config Hne Hdec). cbn [snd].
      apply Join_nonempty. intros Hnil. apply app_eq_nil in Hnil as [_ Hnil].
      now apply (routesErrors_invalid _ 0 route Hin Hinv).
    + unfold apis.ValidateConfig. cbn [Raw].
      destruct data as [|c data]; [congruence|]. cbn [String.length Nat.eqb].
      rewrite Hdec. cbn. now eexists.
  - intros -> Haddr Hroutes. rewrite (ValidateConfig_decoded data config Hne Hdec).
    now rewrite addressErrors_valid, routesErrors_link.
Qed.

Lemma legacy_ValidateConfig_decoded (data : string) (config : driverconfig.NetworkConfig) :
  data <> EmptyString ->
  driverconfig.UnmarshalDisallowUnknownFields data driverconfig.zeroNetworkConfig
  = (None, config) ->
  driverconfig.ValidateConfig (Some (mkRawExtension (Some data)))
  = (Some config,
     errors.Join (driverconfig.ipErrors (driverconfig.IPs config)
                  ++ flat_map driverconfig.routeErrors (driverconfig.Routes config))).
Proof.
  intros Hne Hdec. unfold driverconfig.ValidateConfig. cbn [Raw].
  destruct data as [|c data]; [congruence|]. cbn [String.length Nat.eqb].
  now rewrite Hdec.
Qed.

(** C5 (amended). Neither generation of [ValidateConfig] looks at the mtu:
    two payloads that decode to configurations differing only in the mtu
    get the same error result, be the mtu positive, zero or negative. *)
Theorem ValidateConfig_ignores_mtu (data data' : string) (m : Z) :
  data <> EmptyString -> data' <> EmptyString ->
  (forall config,
     apis.UnmarshalStrict data apis.zeroNetworkConfig = ([], None, config) ->
     apis.UnmarshalStrict data' apis.zeroNetworkConfig = ([], None, withMTU m config) ->
     apis.ValidateConfig (Some (mkRawExtension (Some data')))
     = (Some (withMTU m config),
        snd (apis.ValidateConfig (Some (mkRawExtension (Some data))))))
  /\ (forall config,
     driverconfig.UnmarshalDisallowUnknownFields data driverconfig.zeroNetworkConfig
     = (None, config) ->
     driverconfig.UnmarshalDisallowUnknownFields data' driverconfig.zeroNetworkConfig
     = (None, legacyWithMTU m config) ->
     driverconfig.ValidateConfig (Some (mkRawExtension (Some data')))
     = (Some (legacyWithMTU m config),
        snd (driverconfig.ValidateConfig (Some (mkRawExtension (Some data)))))).
Proof.
  intros Hne Hne'. split; intros config Hdec Hdec'.
  - rewrite (ValidateConfig_decoded data config Hne Hdec).
    now rewrite (ValidateConfig_decoded data' _ Hne' Hdec').
  - rewrite (legacy_ValidateConfig_decoded data config Hne Hdec).
    now rewrite (legacy_ValidateConfig_decoded data' _ Hne' Hdec').
Qed.

(** C6 (amended). On a non-empty payload for which the decoder reports a
    strict error or a fatal error, [ValidateConfig] returns a nil
    configuration and an error.  With no fatal error, the text of that error
    contains the text of every strict error, so it names each unknown field;
    with a fatal error, it contains the text of the fatal error.  The first
    generation wraps the error of the YAML decoder in the same way. *)
Theorem ValidateConfig_strict (data : string) :
  data <> EmptyString ->
  (forall strictErrs err config,
     apis.UnmarshalStrict data apis.zeroNetworkConfig = (strictErrs, err, config) ->
     strictErrs <> [] \/ err <> None ->
     exists e,
       apis.ValidateConfig (Some (mkRawExtension (Some data))) = (None, Some e)
       /\ (err = None ->
           forall s, In s strictErrs -> strings.Contains (errors.Error e) (errors.Error s))
       /\ (forall f, err = Some f -> strings.Contains (errors.Error e) (errors.Error f)))
  /\ (forall f config,
     driverconfig.UnmarshalDisallowUnknownFields data driverconfig.zeroNetworkConfig
     = (Some f, config) ->
     exists e,
       driverconfig.ValidateConfig (Some (mkRawExtension (Some data))) = (None, Some e)
       /\ strings.Contains (errors.Error e) (errors.Error f)).
Proof.
  intros Hne. destruct data as [|c data]; [congruence|]. split.
  - intros strictErrs err config Hdec Hsome.
    unfold apis.ValidateConfig. cbn [Raw String.length Nat.eqb]. rewrite Hdec.
    destruct err as [f|].
    + eexists. split; [reflexivity|]. split; [intros H; discriminate H|].
      intros f' [= <-]. apply Error_Wrap_Contains, Contains_refl.
    + destruct strictErrs as [|s0 rest]; [destruct Hsome; congruence|].
      cbn [length Nat.ltb Nat.leb]. eexists. split; [reflexivity|]. split.
      * intros _ s Hin. apply Error_Wrap_Contains, JoinError_Contains, Hin.
      * intros f H. discriminate H.
  - intros f config Hdec.
    unfold driverconfig.ValidateConfig. cbn [Raw String.length Nat.eqb]. rewrite Hdec.
    eexists. split; [reflexivity|]. apply Error_Wrap_Contains, Contains_refl.
Qed.

End ValidateConfigProperties.

(** ** [ValidateConfig] on concrete payloads *)

Section ValidateConfigExamples.

(** The two scope cases of the package's test table. *)
Lemma ValidateConfig_routes_witness :
  @apis.ValidateConfig ipv4.lib decoders.json (payload linkScopePayload)
  = (Some linkScopeConfig, None)
  /\ is_Some (snd (@apis.ValidateConfig ipv4.lib decoders.json (payload badScopePayload))).
Proof.
  split.
  - refine (proj2 (@ValidateConfig_routes ipv4.lib decoders.json _ [] linkScopeConfig _ _)
                  eq_refl _ _).
    + intros H. vm_compute in H. discriminate H.
    + vm_compute. reflexivity.
    + intros ip [<-|[]]. vm_compute. reflexivity.
    + intros route [<-|[]]. repeat split; try reflexivity.
      * intros H. discriminate H.
      * left. eexists. vm_compute. reflexivity.
  - refine (proj1 (@ValidateConfig_routes ipv4.lib decoders.json _ [] badScopeConfig _ _)
                  (apis.mkRouteConfig "10.0.0.0/8" "192.168.1.1" EmptyString 100 0) _ _).
    + intros H. vm_compute in H. discriminate H.
    + vm_compute. reflexivity.
    + now left.
    + left. split; intros H; discriminate H.
Defined.

(** C5 (as stated) fails: a negative mtu is accepted by the current
    [ValidateConfig] and a zero mtu by the first one. *)
Lemma ValidateConfig_accepts_nonpositive_mtu :
  @apis.ValidateConfig ipv4.lib decoders.json (payload negativeMtuPayload)
  = (Some (mtuConfig (-5)), None)
  /\ @driverconfig.ValidateConfig ipv4.lib decoders.yaml (payload legacyZeroMtuPayload)
     = (Some (driverconfig.mkNetworkConfig EmptyString ["192.168.1.10/24"] [] 0), None).
Proof. split; vm_compute; reflexivity. Qed.

Lemma ValidateConfig_ignores_mtu_witness :
  @apis.ValidateConfig ipv4.lib decoders.json (payload negativeMtuPayload)
  = (Some (mtuConfig (-5)),
     snd (@apis.ValidateConfig ipv4.lib decoders.json (payload mtuPayload))).
Proof.
  refine (proj1 (@ValidateConfig_ignores_mtu ipv4.lib decoders.json decoders.yaml _ _ (-5) _ _)
                (mtuConfig 1500) _ _).
  - intros H. vm_compute in H. discriminate H.
  - intros H. vm_compute in H. discriminate H.
  - vm_compute. reflexivity.
  - vm_compute. reflexivity.
Defined.

(** C6 (as stated) fails: this payload has the member [gateways], which the
    schema does not define, next to an mtu that is not a number; the error
    returned is the fatal decoding error and does not mention [gateways]. *)
Lemma ValidateConfig_unknown_field_unmentioned :
  (exists members,
     jsontext.parse (quoted unknownFieldAndTypeErrorPayload)
     = Some (jsontext.Object members)
     /\ In ("gateways", jsontext.Str "192.168.1.1") members)
  /\ exists e,
       @apis.ValidateConfig ipv4.lib decoders.json (payload unknownFieldAndTypeErrorPayload)
       = (None, Some e)
       /\ containsb (errors.Error e) "gateways" = false.
Proof.
  split.
  - exists [("interface", jsontext.Object [("name", jsontext.Str "eth0");
                                           ("mtu", jsontext.Str "jumbo")]);
            ("gateways", jsontext.Str "192.168.1.1")].
    split; [vm_compute; reflexivity|]. right. left. reflexivity.
  - exists (errors.Wrap "failed to unmarshal JSON data: "
                        (jsontext.typeError "interface.mtu" (jsontext.Str "jumbo")) EmptyString).
    split; vm_compute; reflexivity.
Qed.

(** The unknown-field case of the package's test table. *)
Lemma ValidateConfig_strict_witness :
  exists e,
    @apis.ValidateConfig ipv4.lib decoders.json (payload unknownFieldPayload) = (None, Some e)
    /\ strings.Contains (errors.Error e)
         (errors.Error (jsontext.unknownField "routes[0].gateways")).
Proof.
  assert (quoted unknownFieldPayload <> EmptyString) as Hne.
  { intros H. vm_compute in H. discriminate H. }
  assert (@apis.UnmarshalStrict decoders.json
            (quoted unknownFieldPayload) apis.zeroNetworkConfig
          = ([jsontext.unknownField "routes[0].gateways"], None,
             apis.mkNetworkConfig (eth0Interface 0)
               [apis.mkRouteConfig EmptyString EmptyString EmptyString 0 0] [] []
               (apis.mkEthtoolConfig []))) as Hdec.
  { vm_compute. reflexivity. }
  pose proof (proj1 (@ValidateConfig_strict ipv4.lib decoders.json decoders.yaml
                       (quoted unknownFieldPayload) Hne) _ _ _ Hdec) as H.
  destruct H as (e & He & Hstrict & _).
  { left. intros H. discriminate H. }
  exists e. split; [exact He|]. apply Hstrict; [reflexivity | now left].
Defined.

End ValidateConfigExamples.

(** ** Sorting: the insertion sort meets the contract of [slices.SortFunc] *)

Section InsertionSort.
Context {A : Type} (cmp : A -> A -> Z).

Lemma insertLeft_Permutation (x : A) (l : list A) :
  Permutation (insertLeft cmp x l) (x :: l).
Proof.
  induction l as [|y rest IH]; cbn [insertLeft]; [reflexivity|].
  destruct (cmp x y <? 0); [|reflexivity].
  rewrite IH. apply perm_swap.
Qed.

Lemma insertLeft_sorted (x : A) (l : list A) :
  StrictWeakOrdering cmp ->
  StronglySorted (notLess cmp) l -> StronglySorted (notLess cmp) (insertLeft cmp x l).
Proof.
  intros [Hasym Hneg]. induction l as [|y rest IH]; cbn [insertLeft]; intros Hs.
  - repeat constructor.
  - apply StronglySorted_cons in Hs as [Hy Hrest].
    destruct (Z.ltb_spec (cmp x y) 0) as [Hlt|Hge].
    + apply StronglySorted_cons. split; [|now apply IH].
      rewrite (insertLeft_Permutation x rest). constructor; [|exact Hy].
      now apply Hasym.
    + apply StronglySorted_cons. split.
      * constructor; [unfold notLess; lia|].
        eapply Forall_impl; [exact Hy|]. intros z Hyz.
        apply (Hneg x y z); [lia | exact Hyz].
      * apply StronglySorted_cons. now split.
Qed.

Lemma insertion_fold_Permutation (data acc : list A) :
  Permutation (fold_left (fun sortedRev x => insertLeft cmp x sortedRev) data acc) (data ++ acc).
Proof.
  revert acc. induction data as [|x rest IH]; intros acc; cbn [fold_left]; [reflexivity|].
  rewrite IH, insertLeft_Permutation. cbn. now rewrite Permutation_middle.
Qed.

Lemma insertion_fold_sorted (data acc : list A) :
  StrictWeakOrdering cmp ->
  StronglySorted (notLess cmp) acc ->
  StronglySorted (notLess cmp) (fold_left (fun sortedRev x => insertLeft cmp x sortedRev) data acc).
Proof.
  intros Hswo. revert acc. induction data as [|x rest IH]; intros acc Hacc; cbn [fold_left].
  - exact Hacc.
  - apply IH. now apply insertLeft_sorted.
Qed.

Lemma StronglySorted_rev (R : A -> A -> Prop) (l : list A) :
  StronglySorted R l -> StronglySorted (fun a b => R b a) (rev l).
Proof.
  induction l as [|x rest IH]; cbn [rev]; intros Hs; [constructor|].
  apply StronglySorted_cons in Hs as [Hx Hrest].
  apply StronglySorted_app. split; [|split].
  - intros a b Ha Hb. apply list_elem_of_singleton in Hb as ->.
    rewrite Forall_forall in Hx. apply Hx.
    apply list_elem_of_In, in_rev, list_elem_of_In. exact Ha.
  - now apply IH.
  - repeat constructor.
Qed.

Lemma insertionSort_Permutation (data : list A) :
  Permutation (insertionSortCmpFunc data cmp) data.
Proof.
  unfold insertionSortCmpFunc.
  rewrite <- Permutation_rev, insertion_fold_Permutation. now rewrite app_nil_r.
Qed.

Lemma insertionSort_Ascending (data : list A) :
  StrictWeakOrdering cmp -> Ascending cmp (insertionSortCmpFunc data cmp).
Proof.
  intros Hswo. unfold Ascending, insertionSortCmpFunc.
  apply (StronglySorted_rev (notLess cmp)). apply insertion_fold_sorted; [exact Hswo | constructor].
Qed.

End InsertionSort.

(** [slices.SortFunc] as Go runs it on short slices. *)
#[export] Instance insertionSlices : Slices := {|
  SortFunc := @insertionSortCmpFunc;
  SortFunc_Permutation := fun A x cmp => insertionSort_Permutation cmp x;
  SortFunc_Ascending := fun A x cmp => insertionSort_Ascending cmp x
|}.

Lemma byScopeDescending_StrictWeakOrdering :
  StrictWeakOrdering driver.byScopeDescending.
Proof. split; unfold driver.byScopeDescending; intros; lia. Qed.

(** Ascending for [byScopeDescending] is non-increasing scope. *)
Lemma Ascending_byScope (routes : list apis.RouteConfig) :
  Ascending driver.byScopeDescending routes ->
  StronglySorted Z.ge (map apis.Scope routes).
Proof.
  unfold Ascending. induction 1 as [|r rest Hs IH Hr]; cbn [map]; constructor; [exact IH|].
  apply Forall_map. eapply Forall_impl; [exact Hr|].
  intros b Hb. unfold driver.byScopeDescending in Hb. cbn. lia.
Qed.

(** ** The namespace effector *)

Section RouteOrder.
Context {net : NetLib} {W : Type} {kernel : driver.Kernel W} {slices : Slices}.

Lemma StronglySorted_remove {A : Type} (R : A -> A -> Prop) (l1 l2 : list A) (x : A) :
  StronglySorted R (l1 ++ x :: l2) -> StronglySorted R (l1 ++ l2).
Proof.
  rewrite !StronglySorted_app. intros (H12 & H1 & H2). split; [|split].
  - intros a b Ha Hb. apply H12; [exact Ha | now right].
  - exact H1.
  - now apply StronglySorted_cons in H2.
Qed.

(** One pass of the loop under the traced kernel: the log is unchanged, or
    it grows by one route that has the scope of the configured route. *)
Lemma applyRoute_traced (path ifName : string) (nh : driver.Handle) (link : Z)
    (w : W) (log : list (driver.Route IP IPNet)) (errs : list error)
    (route : apis.RouteConfig) :
  let st := @driver.applyRoute net _ (traced kernel) path ifName nh link ((w, log), errs) route in
  snd (fst st) = log
  \/ exists r, snd (fst st) = log ++ [r] /\ driver.Scope r = apis.Scope route.
Proof.
  cbn zeta. unfold driver.applyRoute.
  destruct (ParseCIDR (apis.Destination route)) as [e|[ip dst]]; [now left|].
  cbn [traced driver.RouteList driver.RouteAdd fst snd].
  destruct (driver.RouteList w nh link) as [e|existing]; [now left|].
  destruct (existsb _ existing); [now left|].
  destruct (driver.RouteAdd w nh (driver.routeOf link route dst)) as [w' [e|]].
  - right. exists (driver.routeOf link route dst). split; [|reflexivity].
    destruct (negb (errors.IsErrno e errors.EEXIST)); reflexivity.
  - right. exists (driver.routeOf link route dst). split; reflexivity.
Qed.

Lemma applyRoutes_traced (path ifName : string) (nh : driver.Handle) (link : Z)
    (routes : list apis.RouteConfig) :
  forall (w : W) (log : list (driver.Route IP IPNet)) (errs : list error),
    StronglySorted Z.ge (map driver.Scope log ++ map apis.Scope routes) ->
    StronglySorted Z.ge
      (map driver.Scope
         (snd (fst (fold_left (@driver.applyRoute net _ (traced kernel) path ifName nh link)
                              routes ((w, log), errs))))).
Proof.
  induction routes as [|route rest IH]; intros w log errs Hs; cbn [fold_left].
  - cbn [fst snd]. now rewrite app_nil_r in Hs.
  - pose proof (applyRoute_traced path ifName nh link w log errs route) as Hstep.
    cbn zeta in Hstep.
    destruct (@driver.applyRoute net _ (traced kernel) path ifName nh link (w, log, errs) route)
      as [[w' log'] errs'].
    cbn [fst snd] in Hstep. apply IH. destruct Hstep as [->|(r & -> & Hr)].
    + cbn [map] in Hs. now apply StronglySorted_remove in Hs.
    + rewrite map_app. cbn [map]. rewrite Hr, <- app_assoc. exact Hs.
Qed.

(** The order of the adds.  Whatever the kernel and whatever the order of
    the configured routes, the routes that [applyRoutingConfig] hands to
    [RouteAdd] come in non-increasing scope order; so no route of scope link
    (253) is added after a route of scope universe (0). *)
Theorem applyRoutingConfig_scope_order (path ifName : string)
    (routeConfig : list apis.RouteConfig) (w : W) :
  let added :=
    snd (fst (@driver.applyRoutingConfig net _ (traced kernel) slices path ifName
                routeConfig (w, []))) in
  StronglySorted Z.ge (map driver.Scope added)
  /\ forall (i j : nat) (ri rj : driver.Route IP IPNet),
       added !! i = Some ri -> added !! j = Some rj ->
       driver.Scope ri = apis.RT_SCOPE_UNIVERSE -> driver.Scope rj = apis.RT_SCOPE_LINK ->
       (j < i)%nat.
Proof.
  cbn zeta.
  assert (StronglySorted Z.ge
            (map driver.Scope
               (snd (fst (@driver.applyRoutingConfig net _ (traced kernel) slices path ifName
                            routeConfig (w, []))))))
    as Hsorted.
  { unfold driver.applyRoutingConfig.
    cbn [traced driver.GetFromPath driver.NewHandleAt driver.LinkByName fst].
    destruct (driver.GetFromPath w path) as [e|ns]; [constructor|].
    destruct (driver.NewHandleAt w ns) as [e|nh]; [constructor|].
    destruct (driver.LinkByName w nh ifName) as [e|link]; [constructor|].
    pose proof (applyRoutes_traced path ifName nh link
                  (SortFunc routeConfig driver.byScopeDescending) w [] []) as H.
    destruct (fold_left _ _ _) as [[w' log'] errs'] eqn:Hfold.
    cbn [fst snd] in H |- *. apply H. cbn [map app].
    apply Ascending_byScope, SortFunc_Ascending, byScopeDescending_StrictWeakOrdering. }
  split; [exact Hsorted|].
  intros i j ri rj Hi Hj Hri Hrj.
  destruct (Nat.lt_ge_cases j i) as [Hlt|Hge]; [exact Hlt|exfalso].
  destruct (decide (i = j)) as [->|Hne].
  { rewrite Hi in Hj. injection Hj as ->. rewrite Hri in Hrj. discriminate Hrj. }
  assert (i < j)%nat as Hij by lia.
  apply list_elem_of_split_length in Hi as (l1 & l2 & Heq & Hlen).
  rewrite Heq in Hj, Hsorted.
  rewrite lookup_app_r in Hj by lia.
  replace (j - length l1)%nat with (S (j - S i))%nat in Hj by lia.
  cbn [lookup list_lookup] in Hj.
  rewrite map_app in Hsorted. cbn [map] in Hsorted.
  apply StronglySorted_app_1_r, StronglySorted_cons in Hsorted as [Hall _].
  rewrite Forall_forall in Hall.
  assert (driver.Scope ri >= driver.Scope rj) as Hge'.
  { apply Hall. apply list_elem_of_In, in_map, list_elem_of_In.
    eapply list_elem_of_lookup_2. exact Hj. }
  rewrite Hri, Hrj in Hge'. unfold apis.RT_SCOPE_UNIVERSE, apis.RT_SCOPE_LINK in Hge'. lia.
Qed.

End RouteOrder.

Section Idempotence.
Context {net : NetLib} {W : Type} {kernel : driver.Kernel W} {slices : Slices}.

Section Present.
Context (path ifName : string) (link : Z) (routes : list apis.RouteConfig)
  (neighbors : list apis.NeighborConfig) (rules : list apis.RuleConfig)
  (present : W -> Prop) (HS : Settled path ifName link routes neighbors rules present).

Lemma applyRoute_benign (h : driver.Handle) (w : W) (route : apis.RouteConfig) :
  present w -> In route routes /\ readableRoute route ->
  let st := driver.applyRoute path ifName h link (w, []) route in
  present (fst st) /\ snd st = [].
Proof.
  intros Hw [Hin [[ip dst] Hdst]]. cbn zeta. unfold driver.applyRoute. rewrite Hdst.
  destruct (settled_list _ _ _ _ _ _ _ HS w h Hw) as [rs ->].
  destruct (existsb _ rs); [now split|].
  destruct (settled_route _ _ _ _ _ _ _ HS w h route ip dst Hw Hin Hdst) as [Hb Hp].
  destruct (driver.RouteAdd w h (driver.routeOf link route dst)) as [w' [e|]];
    cbn [fst snd] in *.
  - unfold benign in Hb. rewrite Hb. now split.
  - now split.
Qed.

Lemma applyNeighbor_benign (h : driver.Handle) (w : W) (neigh : apis.NeighborConfig) :
  present w -> In neigh neighbors /\ readableNeighbor neigh ->
  let st := driver.applyNeighbor ifName h link (w, []) neigh in
  present (fst st) /\ snd st = [].
Proof.
  intros Hw [Hin [[ip Hip] [mac Hmac]]]. cbn zeta. unfold driver.applyNeighbor.
  rewrite Hip, Hmac.
  destruct (settled_neigh _ _ _ _ _ _ _ HS w h neigh ip mac Hw Hin Hip Hmac) as [Hb Hp].
  destruct (driver.NeighAdd w h _) as [w' [e|]]; cbn [fst snd] in *.
  - unfold benign in Hb. rewrite Hb. now split.
  - now split.
Qed.

Lemma applyRule_benign (h : driver.Handle) (w : W) (rule : apis.RuleConfig) :
  present w -> In rule rules /\ readableRule rule ->
  let st := driver.applyRule path h (w, []) rule in
  present (fst st) /\ snd st = [].
Proof.
  intros Hw [Hin [r Hr]]. cbn zeta. unfold driver.applyRule. rewrite Hr.
  destruct (settled_rule _ _ _ _ _ _ _ HS w h rule r Hw Hin Hr) as [Hb Hp].
  destruct (driver.RuleAdd w h r) as [w' [e|]]; cbn [fst snd] in *.
  - unfold benign in Hb. rewrite Hb. now split.
  - now split.
Qed.

(** A loop whose every pass keeps the world settled and the error list
    empty ends with an empty error list. *)
Lemma fold_benign {C : Type} (good : C -> Prop)
    (step : W * list error -> C -> W * list error) (items : list C) :
  (forall w c, present w -> good c ->
     present (fst (step (w, []) c)) /\ snd (step (w, []) c) = []) ->
  forall w, present w -> Forall good items ->
    snd (fold_left step items (w, [])) = [].
Proof.
  intros Hstep. induction items as [|c rest IH]; intros w Hw Hall; [reflexivity|].
  apply Forall_cons in Hall as [Hc Hrest]. cbn [fold_left].
  destruct (Hstep w c Hw Hc) as [Hp He].
  destruct (step (w, []) c) as [w' errs]. cbn [fst snd] in Hp, He. subst errs.
  now apply IH.
Qed.

Lemma Forall_with_In {C : Type} (P : C -> Prop) (items : list C) :
  Forall P items -> Forall (fun c => In c items /\ P c) items.
Proof.
  rewrite !Forall_forall. intros H c Hc. split; [now apply list_elem_of_In | now apply H].
Qed.

End Present.


End Idempotence.

(** ** The pod-sandbox hook *)

Section RunPodSandboxProperties.
Context {net : NetLib} {W : Type} {kernel : driver.Kernel W}.

Lemma attachResults_app (np : driver.NetworkDriver) (ns : string)
    (pre post : list driver.DeviceRequestAllocationResult) :
  forall w,
    driver.attachResults np ns w (pre ++ post)
    = match driver.attachResults np ns w pre with
      | (w', Some err) => (w', Some err)
      | (w', None) => driver.attachResults np ns w' post
      end.
Proof.
  induction pre as [|r rest IH]; intros w; cbn [app driver.attachResults]; [reflexivity|].
  destruct (driver.attachResult np ns w r) as [w' [err|]]; [reflexivity | apply IH].
Qed.

(** The loop reads the driver only for its name. *)
Lemma attachResults_driverName (np np' : driver.NetworkDriver) (ns : string)
    (results : list driver.DeviceRequestAllocationResult) :
  driver.driverName np' = driver.driverName np ->
  forall w, driver.attachResults np' ns w results = driver.attachResults np ns w results.
Proof.
  intros Hname. induction results as [|r rest IH]; intros w; [reflexivity|].
  cbn [driver.attachResults]. unfold driver.attachResult. rewrite Hname.
  destruct (negb (String.eqb (driver.Driver r) (driver.driverName np))); [apply IH|].
  destruct (negb _).
  - destruct (driver.nsAttachRdmadev _ ns w) as [w1 [e|]]; [apply IH|].
    destruct (driver.nsAttachNetdev w1 _ ns _) as [w2 [e|]]; [reflexivity | apply IH].
  - destruct (driver.nsAttachNetdev w _ ns _) as [w2 [e|]]; [reflexivity | apply IH].
Qed.

(** The two nested loops of the handler visit [podResults] in order and
    stop at the first [return]. *)
Lemma attachClaims_podResults (np : driver.NetworkDriver) (ns : string)
    (objs : list driver.Obj) :
  forall w,
    driver.attachClaims np ns w objs = driver.attachResults np ns w (driver.podResults objs).
Proof.
  induction objs as [|obj rest IH]; intros w; [reflexivity|].
  unfold driver.podResults. cbn [flat_map]. fold (driver.podResults rest).
  rewrite attachResults_app. cbn [driver.attachClaims].
  destruct obj as [claim|]; [|apply IH].
  destruct (driver.Allocation claim) as [allocation|]; [|apply IH].
  destruct (driver.attachResults np ns w (driver.Results allocation)) as [w' [err|]];
    [reflexivity | apply IH].
Qed.

(** The handler returns an error for a device only out of
    [nsAttachNetdev]. *)
Lemma attachResult_error (np : driver.NetworkDriver) (ns : string) (w w2 : W)
    (result : driver.DeviceRequestAllocationResult) (err : error) :
  driver.attachResult np ns w result = (w2, Some err) ->
  driver.Driver result = driver.driverName np
  /\ exists w1,
       driver.nsAttachNetdev w1 (driver.Device result) ns (driver.Device result)
       = (w2, Some err).
Proof.
  unfold driver.attachResult.
  destruct (String.eqb_spec (driver.Driver result) (driver.driverName np)) as [Heq|Hne];
    cbn [negb]; [|intros H; discriminate H].
  intros H. split; [exact Heq|].
  destruct (negb _).
  - destruct (driver.nsAttachRdmadev _ ns w) as [w1 [e|]]; [discriminate H|]. now exists w1.
  - now exists w.
Qed.

(** C2 (amended). When the move of a device's network interface fails,
    [RunPodSandbox] returns that error at once: with the visited results
    [pre ++ result :: post], the world it leaves is the world right after
    the failed move, so what was attached while visiting [pre] stays
    attached and no result of [post] is visited. *)
Theorem RunPodSandbox_returns_at_first_netdev_error (np : driver.NetworkDriver)
    (pod : driver.PodSandbox) (w w1 w2 : W) (objs : list driver.Obj)
    (pre post : list driver.DeviceRequestAllocationResult)
    (result : driver.DeviceRequestAllocationResult) (err : error) :
  driver.claimAllocations np (driver.Uid pod) = inr objs ->
  driver.getNetworkNamespace pod <> EmptyString ->
  driver.podResults objs = pre ++ result :: post ->
  driver.attachResults np (driver.getNetworkNamespace pod) w pre = (w1, None) ->
  driver.attachResult np (driver.getNetworkNamespace pod) w1 result = (w2, Some err) ->
  (exists np', driver.RunPodSandbox np pod w = (w2, np', Some err))
  /\ exists w',
       driver.nsAttachNetdev w' (driver.Device result) (driver.getNetworkNamespace pod)
         (driver.Device result) = (w2, Some err).
Proof.
  intros Hobjs Hns Hres Hpre Hfail. split.
  - unfold driver.RunPodSandbox. rewrite Hobjs.
    destruct objs as [|obj rest] eqn:Hobj.
    { destruct pre; discriminate Hres. }
    cbn [length Nat.eqb]. apply String.eqb_neq in Hns. rewrite Hns.
    rewrite attachClaims_podResults.
    rewrite (attachResults_driverName np) by reflexivity.
    rewrite Hres, attachResults_app, Hpre. cbn [driver.attachResults].
    rewrite Hfail. now eexists.
  - destruct (attachResult_error _ _ _ _ _ _ Hfail) as [_ H]. exact H.
Qed.

End RunPodSandboxProperties.

(** ** The effector and the hook on the small kernel *)

Section KernelExamples.
Import simkernel.

(** Scenario 4 of the spec with the destination of the link route written
    as the prefix 10.0.5.1/32: the universe route is configured first, the
    link route it depends on is added first, and nothing fails. *)
Lemma applyRoutingConfig_scope_order_example :
  map driver.Scope
      (snd (fst (@driver.applyRoutingConfig ipv4.lib _ (traced kernel) insertionSlices
                   podNetns "eth1" gceRoutes (freshPod, []))))
  = [253; 0]
  /\ snd (@driver.applyRoutingConfig ipv4.lib _ (traced kernel) insertionSlices
            podNetns "eth1" gceRoutes (freshPod, [])) = None.
Proof. split; vm_compute; reflexivity. Qed.

(** [configuredPod] is what one application of the configuration to the
    fresh pod namespace leaves. *)
Lemma configuredPod_applied :
  fst (@driver.applyRulesConfig ipv4.lib World kernel podNetns gceRules
         (fst (@driver.applyNeighborConfig ipv4.lib World kernel podNetns "eth1" gceNeighbors
                 (fst (@driver.applyRoutingConfig ipv4.lib World kernel insertionSlices
                         podNetns "eth1" gceRoutes freshPod)))))
  = configuredPod.
Proof. vm_compute. reflexivity. Qed.

Lemma configuredPod_Settled :
  @Settled ipv4.lib World kernel podNetns "eth1" 2 gceRoutes gceNeighbors gceRules
           (fun w => w = configuredPod).
Proof.
  split.
  - intros w ->. now exists tt.
  - intros w ns ->. now exists tt.
  - intros w h ->. vm_compute. reflexivity.
  - intros w h ->. eexists. reflexivity.
  - intros w h route ip dst -> Hin Hdst.
    destruct Hin as [<-|[<-|[]]]; vm_compute in Hdst; injection Hdst as <- <-;
      vm_compute; split; reflexivity.
  - intros w h neigh ip mac -> Hin Hip Hmac.
    destruct Hin as [<-|[]]; vm_compute in Hip, Hmac;
      injection Hip as <-; injection Hmac as <-; vm_compute; split; reflexivity.
  - intros w h ruleCfg r -> Hin Hr.
    destruct Hin as [<-|[]]; vm_compute in Hr; injection Hr as <-;
      vm_compute; split; reflexivity.
Qed.


(** C2 (as stated) fails: [eth2] is moved, the move of [eth1] fails, the
    handler returns that error, and [eth3], the device that remains, is still
    on the host and not in the pod. *)
Lemma RunPodSandbox_skips_remaining_devices :
  snd (@driver.RunPodSandbox ipv4.lib _ kernel networkDriver pod host)
  = Some (errors.New "link not found for interface eth1")
  /\ podLinks (fst (fst (@driver.RunPodSandbox ipv4.lib _ kernel networkDriver pod host)))
     = ["eth2"]
  /\ hostLinks (fst (fst (@driver.RunPodSandbox ipv4.lib _ kernel networkDriver pod host)))
     = ["eth3"].
Proof. repeat split; vm_compute; reflexivity. Qed.

Lemma RunPodSandbox_returns_witness :
  (exists np',
     @driver.RunPodSandbox ipv4.lib _ kernel networkDriver pod host
     = (afterEth2, np', Some (errors.New "link not found for interface eth1")))
  /\ exists w',
       attachNetdev w' "eth1" podNetns "eth1"
       = (afterEth2, Some (errors.New "link not found for interface eth1")).
Proof.
  apply (@RunPodSandbox_returns_at_first_netdev_error ipv4.lib World kernel
           networkDriver pod host afterEth2 afterEth2 threeDevices
           [driver.mkResult "nic-a" "dra.net" "node" "eth2"]
           [driver.mkResult "nic-c" "dra.net" "node" "eth3"]
           (driver.mkResult "nic-b" "dra.net" "node" "eth1")).
  - reflexivity.
  - intros H. vm_compute in H. discriminate H.
  - reflexivity.
  - vm_compute. reflexivity.
  - vm_compute. reflexivity.
Defined.

End KernelExamples.

(** ** A link-scope route to a bare address *)

Section LinkRouteDefect.
Context {W : Type} {kernel : @driver.Kernel ipv4.lib W}.

(** C7 (code defect).  Scenario 4 of the spec as it is written, with the
    link-scope route to the bare address 10.0.5.1: [ValidateConfig] accepts
    the configuration, and [applyRoutingConfig] sorts the link-scope route
    first but reads destinations with [net.ParseCIDR] only.  So, whatever
    the kernel, no route of scope link is handed to [RouteAdd] and the
    result is an error; in a pod namespace without routes the universe route
    is the only one asked for, the kernel refuses it because its gateway
    cannot be reached, and neither route ends present. *)
Theorem applyRoutingConfig_link_route_not_installed (path ifName : string) (w : W) :
  let run := @driver.applyRoutingConfig ipv4.lib _ (traced kernel) insertionSlices
               path ifName (apis.Routes linkRouteConfig) (w, []) in
  let runPod := @driver.applyRoutingConfig ipv4.lib _ (traced simkernel.kernel)
                  insertionSlices simkernel.podNetns "eth1" (apis.Routes linkRouteConfig)
                  (simkernel.freshPod, []) in
  @apis.ValidateConfig ipv4.lib decoders.json (payload linkRoutePayload)
  = (Some linkRouteConfig, None)
  /\ map apis.Scope (@SortFunc insertionSlices _ (apis.Routes linkRouteConfig)
                       driver.byScopeDescending)
     = [apis.RT_SCOPE_LINK; apis.RT_SCOPE_UNIVERSE]
  /\ Forall (fun r => driver.Scope r = apis.RT_SCOPE_UNIVERSE) (snd (fst run))
  /\ is_Some (snd run)
  /\ snd (fst runPod)
     = [driver.mkRoute 2 apis.RT_SCOPE_UNIVERSE 0 (Some (167772160, 8)) (Some 167773441) None]
  /\ simkernel.routes (fst (fst runPod)) = []
  /\ exists e, snd runPod = Some e
               /\ containsb (errors.Error e) "invalid CIDR address: 10.0.5.1" = true.
Proof.
  cbn zeta.
  split; [vm_compute; reflexivity|]. split; [vm_compute; reflexivity|].
  assert (Forall (fun r => driver.Scope r = apis.RT_SCOPE_UNIVERSE)
            (snd (fst (@driver.applyRoutingConfig ipv4.lib _ (traced kernel) insertionSlices
                         path ifName (apis.Routes linkRouteConfig) (w, []))))
          /\ is_Some (snd (@driver.applyRoutingConfig ipv4.lib _ (traced kernel)
                             insertionSlices path ifName (apis.Routes linkRouteConfig)
                             (w, [])))) as [Htrace Herr].
  { unfold driver.applyRoutingConfig.
    cbn [traced driver.GetFromPath driver.NewHandleAt driver.LinkByName fst].
    destruct (driver.GetFromPath w path) as [e|ns]; [split; [constructor | now eexists]|].
    destruct (driver.NewHandleAt w ns) as [e|nh]; [split; [constructor | now eexists]|].
    destruct (driver.LinkByName w nh ifName) as [e|link]; [split; [constructor | now eexists]|].
    assert (@SortFunc insertionSlices _ (apis.Routes linkRouteConfig) driver.byScopeDescending
            = [apis.mkRouteConfig "10.0.5.1" EmptyString EmptyString 253 0;
               apis.mkRouteConfig "10.0.0.0/8" "10.0.5.1" EmptyString 0 0]) as ->
      by (vm_compute; reflexivity).
    assert (@ParseCIDR ipv4.lib "10.0.5.1"
            = inl (errors.New "invalid CIDR address: 10.0.5.1")) as Hbare
      by (vm_compute; reflexivity).
    assert (@ParseCIDR ipv4.lib "10.0.0.0/8" = inr (167772160, (167772160, 8))) as Hprefix
      by (vm_compute; reflexivity).
    cbn [fold_left].
    assert (@driver.applyRoute ipv4.lib _ (traced kernel) path ifName nh link ((w, []), [])
              (apis.mkRouteConfig "10.0.5.1" EmptyString EmptyString 253 0)
            = ((w, []), [errors.New "invalid CIDR address: 10.0.5.1"])) as ->.
    { unfold driver.applyRoute. cbn [apis.Destination]. now rewrite Hbare. }
    unfold driver.applyRoute. cbn [apis.Destination]. rewrite Hprefix.
    cbn [traced driver.RouteList driver.RouteAdd fst snd].
    destruct (driver.RouteList w nh link) as [e|existing];
      [cbn [fst snd]; split; [constructor | cbn; now eexists]|].
    destruct (existsb _ existing); [cbn [fst snd]; split; [constructor | cbn; now eexists]|].
    destruct (driver.RouteAdd w nh _) as [w' [e|]].
    - destruct (negb (errors.IsErrno e errors.EEXIST)); cbn [fst snd app];
        (split; [repeat constructor | cbn; now eexists]).
    - cbn [fst snd app]. split; [repeat constructor | cbn; now eexists]. }
  split; [exact Htrace|]. split; [exact Herr|].
  split; [vm_compute; reflexivity|]. split; [vm_compute; reflexivity|].
  destruct (snd (@driver.applyRoutingConfig ipv4.lib _ (traced simkernel.kernel)
                   insertionSlices simkernel.podNetns "eth1" (apis.Routes linkRouteConfig)
                   (simkernel.freshPod, []))) as [e|] eqn:He;
    [|vm_compute in He; discriminate He].
  exists e. split; [reflexivity|].
  vm_compute in He. injection He as <-. vm_compute. reflexivity.
Qed.

End LinkRouteDefect.

(** ** The tables of the packages' tests *)

Section PackageTests.

(** pci_test.go *)
Example TestNormalizePCIAddress :
  inventory_names.NormalizePCIAddress "0000:8a:00.0" = "net1-0000-8a-00-0".
Proof. reflexivity. Qed.

Example TestDeNormalizePCIAddress :
  inventory_names.DeNormalizePCIAddress "net1-0000-8a-00-0" = "0000:8a:00.0"
  /\ inventory_names.DeNormalizePCIAddress EmptyString = EmptyString
  /\ inventory_names.DeNormalizePCIAddress "0000-8a-00-0" = EmptyString
  /\ inventory_names.DeNormalizePCIAddress "net1-0000-8a-00" = EmptyString.
Proof. repeat split; reflexivity. Qed.

(** The test table of [ValidateConfig], the cases with IPv4 addresses. *)
Example TestValidateConfig_valid :
  validationError
    "{'interface': {'name': 'eth0', 'addresses': ['192.168.1.10/24'], 'mtu': 1500},
      'routes': [{'destination': '0.0.0.0/0', 'gateway': '192.168.1.1'}]}" = None
  /\ validationError
       "{'interface': {'name': 'eth0', 'addresses': ['192.168.1.10/24']},
         'routes': [{'destination': '10.0.0.0/8', 'gateway': '192.168.1.1', 'scope': 0}]}"
     = None
  /\ validationError linkScopePayload = None.
Proof. repeat split; vm_compute; reflexivity. Qed.

Example TestValidateConfig_unknown_fields :
  validationError unknownFieldPayload
  = Some (quoted "failed to unmarshal strict JSON data: unknown field 'routes[0].gateways'").
Proof. vm_compute. reflexivity. Qed.

Example TestValidateConfig_routes :
  validationError
    "{'interface': {'name': 'eth0', 'addresses': ['192.168.1.10/24']},
      'routes': [{'gateway': '192.168.1.1'}]}"
  = Some "route 0: destination cannot be empty"
  /\ validationError
       "{'interface': {'name': 'eth0', 'addresses': ['192.168.1.10/24']},
         'routes': [{'destination': 'not-an-ip', 'gateway': '192.168.1.1'}]}"
     = Some "route 0: invalid destination IP or CIDR 'not-an-ip'"
  /\ validationError
       "{'interface': {'name': 'eth0', 'addresses': ['192.168.1.10/24']},
         'routes': [{'destination': '10.0.0.0/8'}]}"
     = Some "route 0: for destination '10.0.0.0/8' must have a gateway"
  /\ validationError
       "{'interface': {'name': 'eth0', 'addresses': ['192.168.1.10/24']},
         'routes': [{'destination': '10.0.0.0/8', 'gateway': 'not-a-gateway'}]}"
     = Some "route 0: invalid gateway IP 'not-a-gateway'"
  /\ validationError badScopePayload
     = Some "route 0: invalid scope '100' only Link (253) or Universe (0) allowed".
Proof. repeat split; vm_compute; reflexivity. Qed.

Example TestValidateConfig_multiple_errors :
  validationError
    "{'interface': {'addresses': ['192.168.1.10/240']},
      'routes': [
        {'destination': '10.0.0.0/8', 'gateway': '192.168.1.1', 'scope': 100},
        {'destination': '10.0.1.0/24', 'scope': 0}]}"
  = Some (strings.Join
            ["invalid IP in CIDR format 192.168.1.10/240";
             "route 0: invalid scope '100' only Link (253) or Universe (0) allowed";
             "route 1: for destination '10.0.1.0/24' must have a gateway"]
            (String "010"%char EmptyString)).
Proof. vm_compute. reflexivity. Qed.

End PackageTests.

(* ===================================================================== *)
(** * Further properties of the code                                    *)
(* ===================================================================== *)

(** ** Splitting and joining on one byte *)

Section SplitJoin.
Context (x : ascii).

Lemma genSplit_nonempty (sep s : string) (k : nat) (cur : string) :
  strings.genSplit sep s k cur <> [].
Proof.
  revert k cur. induction s as [|c s IH]; intros k cur; cbn [strings.genSplit].
  - discriminate.
  - destruct k; [|apply IH]. destruct (strings.HasPrefix _ _); [discriminate | apply IH].
Qed.

Lemma Join_cons (e : string) (rest : list string) (sep : string) :
  rest <> [] -> strings.Join (e :: rest) sep = e +:+ sep +:+ strings.Join rest sep.
Proof. destruct rest; [congruence | reflexivity]. Qed.

Lemma HasPrefix_byte (c : ascii) (s : string) :
  strings.HasPrefix (String c s) (String x EmptyString) = Ascii.eqb c x.
Proof. cbn. now rewrite andb_true_r. Qed.

(** Joining the parts of a split gives the string back. *)
Lemma Join_genSplit (s cur : string) :
  strings.Join (strings.genSplit (String x EmptyString) s 0 cur) (String x EmptyString)
  = cur +:+ s.
Proof.
  revert cur. induction s as [|c s IH]; intros cur.
  - cbn. now rewrite append_nil_r.
  - cbn [strings.genSplit]. rewrite HasPrefix_byte.
    destruct (Ascii.eqb_spec c x) as [->|Hne].
    + cbn [String.length Nat.sub]. rewrite Join_cons by apply genSplit_nonempty.
      rewrite IH. reflexivity.
    + rewrite IH, append_assoc. reflexivity.
Qed.

Lemma Join_Split (s : string) :
  strings.Join (strings.Split s (String x EmptyString)) (String x EmptyString) = s.
Proof. unfold strings.Split. apply Join_genSplit. Qed.

(** No part of a split holds the separator. *)
Lemma genSplit_free (s cur : string) :
  ~ In x (list_ascii_of_string cur) ->
  Forall (fun part => ~ In x (list_ascii_of_string part))
         (strings.genSplit (String x EmptyString) s 0 cur).
Proof.
  revert cur. induction s as [|c s IH]; intros cur Hcur.
  - cbn. now constructor.
  - cbn [strings.genSplit]. rewrite HasPrefix_byte.
    destruct (Ascii.eqb_spec c x) as [->|Hne].
    + constructor; [exact Hcur|]. apply IH. intros [].
    + apply IH. rewrite list_ascii_app. intros [H|[H|[]]]%in_app_or; [now apply Hcur|].
      now apply Hne.
Qed.

Lemma Split_free (s : string) :
  Forall (fun part => ~ In x (list_ascii_of_string part)) (strings.Split s (String x EmptyString)).
Proof. apply genSplit_free. intros []. Qed.

End SplitJoin.

Lemma HasPrefix_inv (p s : string) :
  strings.HasPrefix s p = true -> s = p +:+ strings.drop (String.length p) s.
Proof.
  revert s. induction p as [|c p IH]; intros s; [reflexivity|].
  destruct s as [|d s]; cbn [strings.HasPrefix]; [discriminate|].
  intros [Hc Hp]%andb_prop. apply Ascii.eqb_eq in Hc as ->.
  cbn [String.length strings.drop]. rewrite append_cons. f_equal. now apply IH.
Qed.

(** ** Device names: the way back *)

Section NamesBack.
Import inventory_names.

Lemma Replace_dashed_free (s : string) :
  (forall c, In c (list_ascii_of_string s) -> c <> ":"%char /\ c <> "."%char) ->
  strings.Replace dashed s = s.
Proof.
  induction s as [|c s IH]; intros H; [reflexivity|].
  cbn [strings.Replace]. rewrite IH by (intros c' Hc'; apply H; now right).
  destruct (H c (or_introl eq_refl)) as [H1 H2].
  unfold dashed. apply Ascii.eqb_neq in H1, H2. now rewrite H1, H2.
Qed.

(** X1. A name that de-normalises to an address and holds no ':' and no '.'
    is the normalised name of that address. *)
Theorem Normalize_DeNormalize (n : string) :
  DeNormalizePCIAddress n <> EmptyString ->
  (forall c, In c (list_ascii_of_string n) -> c <> ":"%char /\ c <> "."%char) ->
  NormalizePCIAddress (DeNormalizePCIAddress n) = n
  /\ exists d b v f,
       n = "net1-" +:+ d +:+ "-" +:+ b +:+ "-" +:+ v +:+ "-" +:+ f
       /\ DeNormalizePCIAddress n = d +:+ ":" +:+ b +:+ ":" +:+ v +:+ "." +:+ f.
Proof.
  intros Hne Hchars.
  assert (exists p, n = "net1-" +:+ p) as [p ->].
  { unfold DeNormalizePCIAddress in Hne. change (normalizedNamePrefix +:+ "-") with "net1-" in Hne.
    destruct (String.eqb n EmptyString); [congruence|].
    destruct (strings.HasPrefix n "net1-") eqn:Hp; cbn [negb] in Hne; [|congruence].
    apply HasPrefix_inv in Hp. eexists. exact Hp. }
  revert Hne. unfold DeNormalizePCIAddress. change (normalizedNamePrefix +:+ "-") with "net1-".
  assert (String.eqb ("net1-" +:+ p) EmptyString = false) as -> by reflexivity.
  rewrite HasPrefix_app, TrimPrefix_app. cbn [negb].
  pose proof (Join_Split "-" p) as Hjoin.
  destruct (strings.Split p "-") as [|d [|b [|v [|f [|more parts]]]]] eqn:Hs;
    cbn [length Nat.eqb negb]; try congruence.
  cbn [nth]. intros _.
  assert (p = d +:+ "-" +:+ b +:+ "-" +:+ v +:+ "-" +:+ f) as Hp.
  { rewrite <- Hjoin. reflexivity. }
  split; [|exists d, b, v, f; now rewrite Hp].
  assert (forall part, In part [d; b; v; f] ->
            forall c, In c (list_ascii_of_string part) -> c <> ":"%char /\ c <> "."%char) as Hpart.
  { intros part Hin c Hc. apply Hchars. rewrite Hp.
    rewrite !list_ascii_app. cbn in Hin.
    destruct Hin as [<-|[<-|[<-|[<-|[]]]]].
    all: repeat (apply in_or_app; first [left; exact Hc | right]); try exact Hc. }
  unfold NormalizePCIAddress.
  assert (String.eqb (d +:+ ":" +:+ b +:+ ":" +:+ v +:+ "." +:+ f) EmptyString = false) as ->.
  { destruct d; reflexivity. }
  change (strings.NewReplacer [(":", "-"); (".", "-")]%char) with dashed.
  rewrite !Replace_app.
  rewrite (Replace_dashed_free d), (Replace_dashed_free b), (Replace_dashed_free v),
    (Replace_dashed_free f) by (apply Hpart; cbn; tauto).
  rewrite Hp. reflexivity.
Qed.

Lemma Normalize_DeNormalize_witness :
  DeNormalizePCIAddress "net1-0000-8a-00-0" <> EmptyString
  /\ NormalizePCIAddress (DeNormalizePCIAddress "net1-0000-8a-00-0") = "net1-0000-8a-00-0".
Proof.
  assert (DeNormalizePCIAddress "net1-0000-8a-00-0" <> EmptyString) as Hne.
  { intros H. vm_compute in H. discriminate H. }
  split; [exact Hne|].
  refine (proj1 (Normalize_DeNormalize "net1-0000-8a-00-0" Hne _)).
  intros c Hc. cbn in Hc.
  repeat (destruct Hc as [<-|Hc]; [split; intros H; discriminate H|]). destruct Hc.
Defined.

End NamesBack.

Section ShortForm.
Import inventory_names.

(** X2. The short form bus:device.function of [pciAddress.String] has three
    parts once normalised, so it is not de-normalised. *)
Theorem DeNormalize_Normalize_short_form (a : pciAddress) :
  domain a = EmptyString ->
  hexComponent (bus a) = true -> hexComponent (device a) = true ->
  hexComponent (function a) = true ->
  NormalizePCIAddress (pciAddress_String a)
  = "net1-" +:+ bus a +:+ "-" +:+ device a +:+ "-" +:+ function a
  /\ DeNormalizePCIAddress (NormalizePCIAddress (pciAddress_String a)) = EmptyString.
Proof.
  destruct a as [d b v f]. cbn [domain bus device function]. intros ->.
  intros [Hbne Hb]%hexComponent_inv [_ Hv]%hexComponent_inv [_ Hf]%hexComponent_inv.
  unfold pciAddress_String. cbn [domain bus device function String.eqb].
  assert (NormalizePCIAddress (b +:+ ":" +:+ v +:+ "." +:+ f)
          = "net1-" +:+ b +:+ "-" +:+ v +:+ "-" +:+ f) as ->.
  { unfold NormalizePCIAddress.
    assert (String.eqb (b +:+ ":" +:+ v +:+ "." +:+ f) EmptyString = false) as ->.
    { destruct b; reflexivity. }
    change (strings.NewReplacer [(":", "-"); (".", "-")]%char) with dashed.
    rewrite !Replace_app.
    rewrite (Replace_hex b Hb), (Replace_hex v Hv), (Replace_hex f Hf). reflexivity. }
  split; [reflexivity|].
  unfold DeNormalizePCIAddress. change (normalizedNamePrefix +:+ "-") with "net1-".
  assert (String.eqb ("net1-" +:+ b +:+ "-" +:+ v +:+ "-" +:+ f) EmptyString = false) as ->
    by reflexivity.
  rewrite HasPrefix_app, TrimPrefix_app. cbn [negb]. unfold strings.Split.
  rewrite genSplit_hex, genSplit_dash by exact Hb.
  rewrite genSplit_hex, genSplit_dash by exact Hv.
  rewrite genSplit_hex_end by exact Hf. reflexivity.
Qed.

Lemma DeNormalize_Normalize_short_form_witness :
  NormalizePCIAddress "00:04.0" = "net1-00-04-0"
  /\ DeNormalizePCIAddress (NormalizePCIAddress "00:04.0") = EmptyString.
Proof.
  exact (DeNormalize_Normalize_short_form (mkPciAddress EmptyString "00" "04" "0")
           eq_refl eq_refl eq_refl eq_refl).
Defined.

End ShortForm.

(** ** The device store *)

Section Store.
Import inventory inventory_db.

Lemma setAttrOpt_lookup (k : string) (v : option DeviceAttribute) (d : Device) (k' : string) :
  Attributes (setAttrOpt k v d) !! k'
  = if decide (k = k')
    then match v with Some a => Some a | None => Attributes d !! k' end
    else Attributes d !! k'.
Proof.
  destruct v as [a|]; cbn [setAttrOpt setAttr Attributes].
  - rewrite lookup_insert. reflexivity.
  - now destruct (decide (k = k')).
Qed.

Lemma merge_fold_lookup (src : Device) (attrsToCopy : list string) (k : string) :
  forall dest : Device,
    Attributes (fold_left (fun d attr => setAttrOpt attr (Attributes src !! attr) d)
                          attrsToCopy dest) !! k
    = if bool_decide (k ∈ attrsToCopy)
      then match Attributes src !! k with
           | Some v => Some v
           | None => Attributes dest !! k
           end
      else Attributes dest !! k.
Proof.
  induction attrsToCopy as [|a rest IH]; intros dest; cbn [fold_left].
  - now rewrite bool_decide_eq_false_2 by apply not_elem_of_nil.
  - rewrite IH, setAttrOpt_lookup.
    destruct (decide (a = k)) as [->|Hne].
    + rewrite (bool_decide_eq_true_2 (k ∈ k :: rest)) by apply list_elem_of_here.
      destruct (bool_decide (k ∈ rest)); destruct (Attributes src !! k); reflexivity.
    + destruct (bool_decide_reflect (k ∈ rest)) as [Hin|Hnin].
      * now rewrite bool_decide_eq_true_2 by now apply list_elem_of_further.
      * rewrite bool_decide_eq_false_2; [reflexivity|].
        intros [?|?]%elem_of_cons; congruence.
Qed.

(** X3. [mergeDeviceAttributes] copies the listed attributes that the source
    has and leaves everything else of the destination as it is: a listed
    attribute that the source does not have is not removed. *)
Theorem mergeDeviceAttributes_lookup (dest src : Device) (attrsToCopy : list string)
    (k : string) :
  Attributes (mergeDeviceAttributes dest src attrsToCopy) !! k
  = (if bool_decide (k ∈ attrsToCopy)
     then match Attributes src !! k with
          | Some v => Some v
          | None => Attributes dest !! k
          end
     else Attributes dest !! k)
  /\ Name (mergeDeviceAttributes dest src attrsToCopy) = Name dest
  /\ Capacity (mergeDeviceAttributes dest src attrsToCopy) = Capacity dest.
Proof.
  split; [apply merge_fold_lookup|].
  unfold mergeDeviceAttributes. revert dest.
  induction attrsToCopy as [|a rest IH]; intros dest; cbn [fold_left]; [now split|].
  destruct (IH (setAttrOpt a (Attributes src !! a) dest)) as [-> ->].
  now destruct (Attributes src !! a).
Qed.

(** X4. When the interface of a PCI device is not on the host, the device
    keeps the attributes of [reusedAttributes] that the stored device has,
    the interface name among them; the mtu is not one of them. With no
    stored device nothing is added. *)
Theorem addNetDevAttributes_without_interface (h : Host) (db : DB) (device : Device)
    (pciAddress : string) (err : error) :
  GetNetworkInterface h pciAddress = inl err ->
  (GetDevice db (inventory_names.NormalizePCIAddress pciAddress) = None ->
   addNetDevAttributes h db device pciAddress = device)
  /\ (forall prevDevice,
        GetDevice db (inventory_names.NormalizePCIAddress pciAddress) = Some prevDevice ->
        (forall k v, k ∈ reusedAttributes -> Attributes prevDevice !! k = Some v ->
           Attributes (addNetDevAttributes h db device pciAddress) !! k = Some v)
        /\ (forall k, k ∉ reusedAttributes ->
              Attributes (addNetDevAttributes h db device pciAddress) !! k
              = Attributes device !! k)
        /\ Attributes (addNetDevAttributes h db device pciAddress) !! AttrMTU
           = Attributes device !! AttrMTU).
Proof.
  intros Hif. unfold addNetDevAttributes. rewrite Hif. split.
  - now intros ->.
  - intros prevDevice ->. fold reusedAttributes.
    assert (forall k, k ∉ reusedAttributes ->
              Attributes (mergeDeviceAttributes device prevDevice reusedAttributes) !! k
              = Attributes device !! k) as Hout.
    { intros k Hk.
      unfold mergeDeviceAttributes. rewrite merge_fold_lookup.
      now rewrite bool_decide_eq_false_2. }
    split; [|split].
    + intros k v Hk Hv.
      unfold mergeDeviceAttributes. rewrite merge_fold_lookup.
      now rewrite bool_decide_eq_true_2, Hv.
    + exact Hout.
    + apply Hout. unfold reusedAttributes. intros Hin.
      repeat (apply elem_of_cons in Hin as [Hin|Hin]; [discriminate Hin|]).
      now apply elem_of_nil in Hin.
Qed.

Lemma store_fold_lookup (devices : list Device) (acc : gmap string Device) (n : string) :
  fold_left (fun store device => <[Name device := device]> store) devices acc !! n
  = match last (filter (fun d => Name d = n) devices) with
    | Some d => Some d
    | None => acc !! n
    end.
Proof.
  revert acc. induction devices as [|d rest IH]; intros acc; cbn [fold_left]; [reflexivity|].
  rewrite IH, filter_cons. destruct (decide (Name d = n)) as [Hn|Hn].
  - rewrite last_cons, lookup_insert, decide_True by exact Hn.
    now destruct (last (filter _ rest)).
  - rewrite lookup_insert_ne by exact Hn. reflexivity.
Qed.

(** X5. [updateDeviceStore] replaces the store: under a name it holds the
    last device of the list with that name, and no device of the old store
    (each pass of the loop stores the address of its own copy of the device,
    as Go has it from version 1.22). *)
Theorem updateDeviceStore_lookup (db : DB) (devices : list Device) (n : string) :
  deviceStore (updateDeviceStore db devices) !! n
  = last (filter (fun d => Name d = n) devices)
  /\ netNsForPod (updateDeviceStore db devices) = netNsForPod db
  /\ hasDevices (updateDeviceStore db devices) = hasDevices db.
Proof.
  unfold updateDeviceStore. cbn [deviceStore netNsForPod hasDevices].
  rewrite store_fold_lookup, lookup_empty.
  split; [|split; reflexivity]. now destruct (last _).
Qed.

End Store.

Section StoreWitness.
Import inventory inventory_db.

Lemma addNetDevAttributes_without_interface_witness :
  Attributes (addNetDevAttributes sample_moved.node sample_moved.refreshed
                (mkDevice "net1-0000-00-04-0" ∅ ∅) "0000:00:04.0") !! AttrInterfaceName
  = Some (StringValue "eth0")
  /\ Attributes (addNetDevAttributes sample_moved.node sample_moved.refreshed
                   (mkDevice "net1-0000-00-04-0" ∅ ∅) "0000:00:04.0") !! AttrMTU
     = None.
Proof.
  assert (GetNetworkInterface sample_moved.node "0000:00:04.0"
          = inl (errors.New "no net directory for pci device 0000:00:04.0")) as Hgone
    by reflexivity.
  destruct (addNetDevAttributes_without_interface sample_moved.node sample_moved.refreshed
              (mkDevice "net1-0000-00-04-0" ∅ ∅) "0000:00:04.0" _ Hgone) as [_ H].
  destruct (H (pciToDRAdev sample_host.node New sample_host.gvnic)) as (Hkeep & _ & Hmtu).
  { vm_compute. reflexivity. }
  split.
  - apply Hkeep; [apply list_elem_of_here | vm_compute; reflexivity].
  - rewrite Hmtu. reflexivity.
Defined.

End StoreWitness.

(** ** The refresh loop and the store *)

Section RunStore.
Import inventory inventory_db.

Lemma notifications_cons (r : Refresh) (log : list Refresh) :
  notifications (r :: log)
  = match sent r with
    | Some ds => ds :: notifications log
    | None => notifications log
    end.
Proof. unfold notifications. cbn. now destruct (sent r). Qed.

Lemma notify_store (db : DB) (devices : list Device) :
  netNsForPod (fst (notify db devices)) = netNsForPod db
  /\ deviceStore (fst (notify db devices))
     = match snd (notify db devices) with
       | Some ds => deviceStore (updateDeviceStore db ds)
       | None => deviceStore db
       end.
Proof. unfold notify. destruct (_ || _); split; reflexivity. Qed.

Lemma Run_store_from (ticks : list Host) :
  forall db : DB,
    deviceStore (Run ticks db).1.2
    = match last (notifications (Run ticks db).1.1) with
      | Some devices => deviceStore (updateDeviceStore db devices)
      | None => deviceStore db
      end
    /\ netNsForPod (Run ticks db).1.2 = netNsForPod db
    /\ hasDevices (Run ticks db).1.2
       = match last (Run ticks db).1.1 with
         | Some r => (0 <? length (built r))%nat
         | None => hasDevices db
         end.
Proof.
  induction ticks as [|h rest IH]; intros db; cbn [Run].
  - cbn. repeat split; reflexivity.
  - destruct (buildDevices h db) as [err|devices]; [cbn; repeat split; reflexivity|].
    destruct (notify_store db devices) as [Hns Hst].
    pose proof (notify_hasDevices db devices) as Hhas.
    destruct (notify db devices) as [db' out]. cbn [fst snd] in Hns, Hst, Hhas.
    destruct (IH db') as (IH1 & IH2 & IH3).
    destruct (Run rest db') as [[log dbEnd] err]. cbn [fst snd] in IH1, IH2, IH3 |- *.
    rewrite IH1, IH2, IH3, Hns. split; [|split; [reflexivity|]].
    + rewrite notifications_cons. cbn [sent].
      destruct out as [ds|].
      * rewrite last_cons. destruct (last (notifications log)) as [devs|]; [reflexivity|].
        exact Hst.
      * destruct (last (notifications log)); [reflexivity|exact Hst].
    + rewrite last_cons. destruct (last log); [reflexivity|]. cbn [built]. exact Hhas.
Qed.

(** X6. After a run of the refresh loop the store holds the devices of the
    last snapshot that was sent, and only them; the table of pod namespaces
    is as before; [hasDevices] tells whether the last pass built any device. *)
Theorem Run_store (ticks : list Host) (db : DB) (n : string) :
  deviceStore (Run ticks db).1.2 !! n
  = match last (notifications (Run ticks db).1.1) with
    | Some devices => last (filter (fun d => Name d = n) devices)
    | None => deviceStore db !! n
    end
  /\ netNsForPod (Run ticks db).1.2 = netNsForPod db
  /\ hasDevices (Run ticks db).1.2
     = match last (Run ticks db).1.1 with
       | Some r => (0 <? length (built r))%nat
       | None => hasDevices db
       end.
Proof.
  destruct (Run_store_from ticks db) as (H1 & H2 & H3).
  split; [|split; assumption]. rewrite H1.
  destruct (last (notifications _)) as [devices|]; [|reflexivity].
  unfold updateDeviceStore. cbn [deviceStore].
  rewrite store_fold_lookup, lookup_empty.
  destruct (last (filter _ devices)); reflexivity.
Qed.

End RunStore.

(** ** What a snapshot holds *)

Section Snapshot.
Import inventory inventory_db.

Lemma setAttr_lookup_ne (k k' : string) (v : DeviceAttribute) (d : Device) :
  k <> k' -> Attributes (setAttr k v d) !! k' = Attributes d !! k'.
Proof. intros H. cbn [setAttr Attributes]. now rewrite lookup_insert_ne. Qed.

Lemma setAttrOpt_Name (k : string) (v : option DeviceAttribute) (d : Device) :
  Name (setAttrOpt k v d) = Name d.
Proof. now destruct v. Qed.

Lemma merge_fold_Name (src : Device) (attrsToCopy : list string) :
  forall dest : Device,
    Name (fold_left (fun d attr => setAttrOpt attr (Attributes src !! attr) d)
                    attrsToCopy dest) = Name dest.
Proof.
  induction attrsToCopy as [|a rest IH]; intros dest; cbn [fold_left]; [reflexivity|].
  now rewrite IH, setAttrOpt_Name.
Qed.

Lemma addPCIAttributes_Name (h : Host) (device : Device) (pciDev : PCIDevice) :
  Name (addPCIAttributes h device pciDev) = Name device.
Proof.
  unfold addPCIAttributes.
  destruct (PCIeRootAttribute h (Address pciDev)) as [e|[name value]]; cbn [setAttr Name];
    now rewrite !setAttrOpt_Name.
Qed.

Lemma addNetDevAttributes_Name (h : Host) (db : DB) (device : Device) (pciAddress : string) :
  Name (addNetDevAttributes h db device pciAddress) = Name device.
Proof.
  unfold addNetDevAttributes.
  destruct (GetNetworkInterface h pciAddress) as [e|ifName].
  - destruct (GetDevice db _); [apply merge_fold_Name | reflexivity].
  - destruct (LinkByName h ifName) as [e|link]; [reflexivity|].
    destruct (TcFilters h link) as [filterNames ok1].
    destruct (TcxFilters h link) as [programNames ok2].
    destruct (AddrList h link) as [e|[|ip ips]]; [| |destruct (addressSets _) as [v4 v6]];
      repeat match goal with |- context [if ?b then _ else _] => destruct b end;
      reflexivity.
Qed.

Lemma addCloudProviderAttributes_Name (h : Host) (device : Device) :
  Name (addCloudProviderAttributes h device) = Name device.
Proof.
  unfold addCloudProviderAttributes.
  destruct (Attributes device !! AttrMac) as [[mac|i|b]|]; reflexivity.
Qed.

Lemma pciToDRAdev_Name (h : Host) (db : DB) (pciDev : PCIDevice) :
  Name (pciToDRAdev h db pciDev) = inventory_names.NormalizePCIAddress (Address pciDev).
Proof.
  unfold pciToDRAdev.
  rewrite addCloudProviderAttributes_Name. unfold addRDMADevAttributes. cbn [setAttr Name].
  now rewrite addNetDevAttributes_Name, addPCIAttributes_Name.
Qed.

(** The pass at position [k] of a run reads the host observed at [k]. *)
Lemma Run_built (ticks : list Host) :
  forall (db : DB) (k : nat) (r : Refresh),
    (Run ticks db).1.1 !! k = Some r ->
    exists h db', ticks !! k = Some h /\ buildDevices h db' = inr (built r).
Proof.
  induction ticks as [|h rest IH]; intros db k r; cbn [Run]; [intros H; discriminate H|].
  destruct (buildDevices h db) as [err|devices] eqn:Hb; [intros H; discriminate H|].
  destruct (notify db devices) as [db' out].
  specialize (IH db'). destruct (Run rest db') as [[log dbEnd] err]. cbn [fst snd] in IH |- *.
  destruct k as [|k]; cbn [lookup list_lookup].
  - intros [= <-]. now exists h, db.
  - apply IH.
Qed.

(** X7. Every snapshot built by the refresh loop has one device per PCI
    device of network class of the host, in the order of the enumeration,
    each under the normalised name of its address; a PCI device of another
    class is never listed. *)
Theorem Run_snapshot_names (ticks : list Host) (db : DB) (k : nat) (r : Refresh) :
  (Run ticks db).1.1 !! k = Some r ->
  exists h pci,
    ticks !! k = Some h /\ ghw_PCI h = inr pci
    /\ map Name (built r)
       = map (fun d => inventory_names.NormalizePCIAddress (Address d))
             (filter (fun d => isNetworkDevice d = true) pci).
Proof.
  intros Hk. destruct (Run_built ticks db k r Hk) as (h & db' & Hh & Hb).
  unfold buildDevices in Hb. destruct (ghw_PCI h) as [err|pci] eqn:Hpci; [discriminate Hb|].
  injection Hb as <-. exists h, pci. split; [exact Hh|]. split; [exact Hpci|].
  rewrite map_map. apply map_ext. intros d. apply pciToDRAdev_Name.
Qed.

Lemma Run_snapshot_names_witness :
  map Name (built (mkRefresh (map (pciToDRAdev sample_host.node New) [sample_host.gvnic])
                             (Some (map (pciToDRAdev sample_host.node New)
                                        [sample_host.gvnic]))))
  = ["net1-0000-00-04-0"].
Proof.
  destruct (Run_snapshot_names [sample_host.node] New 0
              (mkRefresh (map (pciToDRAdev sample_host.node New) [sample_host.gvnic])
                         (Some (map (pciToDRAdev sample_host.node New) [sample_host.gvnic])))
              eq_refl) as (h & pci & Hh & Hpci & Hnames).
  injection Hh as <-. injection Hpci as <-. exact Hnames.
Defined.

End Snapshot.

(** ** The interface name of a device *)

Section InterfaceName.
Import inventory inventory_db.

Lemma addNetDevAttributes_ifName (h : Host) (db : DB) (device : Device)
    (pciAddress ifName : string) :
  GetNetworkInterface h pciAddress = inr ifName ->
  Attributes (addNetDevAttributes h db device pciAddress) !! AttrInterfaceName
  = Some (StringValue ifName).
Proof.
  intros Hif. unfold addNetDevAttributes. rewrite Hif.
  destruct (LinkByName h ifName) as [e|link].
  { cbn [setAttr Attributes]. now rewrite lookup_insert, decide_True. }
  destruct (TcFilters h link) as [filterNames ok1].
  destruct (TcxFilters h link) as [programNames ok2].
  destruct (AddrList h link) as [e|[|ip ips]]; [| |destruct (addressSets _) as [v4 v6]];
    repeat match goal with |- context [if ?b then _ else _] => destruct b end;
    rewrite ?setAttr_lookup_ne by discriminate;
    cbn [setAttr Attributes]; now rewrite lookup_insert, decide_True.
Qed.

Lemma pciToDRAdev_ifName (h : Host) (db : DB) (pciDev : PCIDevice) (ifName : string) :
  GetNetworkInterface h (Address pciDev) = inr ifName ->
  (forall mac, ProviderAttributes h mac !! AttrInterfaceName = None) ->
  Attributes (pciToDRAdev h db pciDev) !! AttrInterfaceName = Some (StringValue ifName).
Proof.
  intros Hif Hprov. unfold pciToDRAdev, addCloudProviderAttributes, addRDMADevAttributes.
  set (device := addNetDevAttributes h db _ _).
  assert (Attributes (setAttr AttrRDMA
                        (BoolValue (negb (length (RdmaDevicesForPcidev h (Address pciDev)) =? 0)%nat))
                        device) !! AttrInterfaceName = Some (StringValue ifName)) as Hdev.
  { rewrite setAttr_lookup_ne by discriminate. now apply addNetDevAttributes_ifName. }
  destruct (Attributes (setAttr AttrRDMA _ device) !! AttrMac) as [[mac|i|b]|]; try exact Hdev.
  cbn [Attributes]. rewrite lookup_union_r by apply Hprov. exact Hdev.
Qed.

(** X8. The interface name is remembered: after a refresh that found the
    interface [ifName] of a PCI network device, [GetNetInterfaceName] on the
    name of the device answers [ifName] from the store, whatever the host
    shows later, for example after the interface was moved into a pod. *)
Theorem GetNetInterfaceName_remembers (h h' : Host) (db : DB) (pci : list PCIDevice)
    (pciDev : PCIDevice) (ifName : string) :
  ghw_PCI h = inr pci -> In pciDev pci -> isNetworkDevice pciDev = true ->
  GetNetworkInterface h (Address pciDev) = inr ifName ->
  (forall d, In d pci -> isNetworkDevice d = true ->
     inventory_names.NormalizePCIAddress (Address d)
     = inventory_names.NormalizePCIAddress (Address pciDev) ->
     Address d = Address pciDev) ->
  (forall mac, ProviderAttributes h mac !! AttrInterfaceName = None) ->
  GetNetInterfaceName h' (Run [h] db).1.2
    (inventory_names.NormalizePCIAddress (Address pciDev)) = inr ifName.
Proof.
  intros Hpci Hin Hnet Hif Hsame Hprov.
  set (name := inventory_names.NormalizePCIAddress (Address pciDev)).
  cbn [Run]. unfold buildDevices. rewrite Hpci.
  set (devices := map (pciToDRAdev h db) (filter (fun d => isNetworkDevice d = true) pci)).
  assert (In (pciToDRAdev h db pciDev) devices) as Hdev.
  { apply in_map, list_elem_of_In, list_elem_of_filter. split; [exact Hnet|].
    now apply list_elem_of_In. }
  assert ((0 <? length devices)%nat = true) as Hlen.
  { destruct devices; [destruct Hdev | reflexivity]. }
  unfold notify. rewrite Hlen. cbn [orb fst snd].
  unfold GetNetInterfaceName, GetDevice, updateDeviceStore. cbn [deviceStore].
  rewrite store_fold_lookup, lookup_empty.
  assert (pciToDRAdev h db pciDev ∈ filter (fun d => Name d = name) devices) as Hf.
  { apply list_elem_of_filter. split; [apply pciToDRAdev_Name | now apply list_elem_of_In]. }
  destruct (last (filter (fun d => Name d = name) devices)) as [d|] eqn:Hlast.
  2:{ apply last_None in Hlast. rewrite Hlast in Hf. now apply elem_of_nil in Hf. }
  apply last_Some_elem_of, list_elem_of_filter in Hlast as [Hname Hd].
  apply list_elem_of_In, in_map_iff in Hd as (pd & <- & Hpd).
  apply list_elem_of_In, list_elem_of_filter in Hpd as [Hpdnet Hpd].
  apply list_elem_of_In in Hpd.
  rewrite pciToDRAdev_Name in Hname.
  rewrite (pciToDRAdev_ifName h db pd ifName); [reflexivity | | exact Hprov].
  now rewrite (Hsame pd Hpd Hpdnet Hname).
Qed.

Lemma GetNetInterfaceName_remembers_witness :
  GetNetworkInterface sample_moved.node "0000:00:04.0"
  = inl (errors.New "no net directory for pci device 0000:00:04.0")
  /\ GetNetInterfaceName sample_moved.node (Run [sample_host.node] New).1.2 "net1-0000-00-04-0"
     = inr "eth0".
Proof.
  split; [reflexivity|].
  apply (GetNetInterfaceName_remembers sample_host.node sample_moved.node New
           [sample_host.scsi; sample_host.gvnic] sample_host.gvnic "eth0").
  - reflexivity.
  - right. now left.
  - reflexivity.
  - reflexivity.
  - intros d [<-|[<-|[]]]; [intros H; discriminate H | reflexivity].
  - intros mac. apply lookup_empty.
Defined.

End InterfaceName.

(** ** The table of pod namespaces *)

Section PodNetNs.
Context {net : NetLib} {W : Type} {kernel : driver.Kernel W}.
Import inventory inventory_db.

(** X9. [AddPodNetNs], [GetPodNetNs] and [RemovePodNetNs]: a namespace path
    that opens is recorded under the pod and read back; a path that does not
    open leaves the database as it is, an older entry of the pod included;
    after the removal the pod reads as the empty string; the entries of
    other pods and the device store are not touched. *)
Theorem PodNetNs_lookup (w : W) (db : DB) (pod netNsPath : string) :
  (forall ns, driver.GetFromPath w netNsPath = inr ns ->
     GetPodNetNs (driver.AddPodNetNs w db pod netNsPath) pod = netNsPath)
  /\ (forall err, driver.GetFromPath w netNsPath = inl err ->
        driver.AddPodNetNs w db pod netNsPath = db)
  /\ GetPodNetNs (RemovePodNetNs db pod) pod = EmptyString
  /\ (forall other, other <> pod ->
        GetPodNetNs (driver.AddPodNetNs w db pod netNsPath) other = GetPodNetNs db other
        /\ GetPodNetNs (RemovePodNetNs db pod) other = GetPodNetNs db other)
  /\ deviceStore (driver.AddPodNetNs w db pod netNsPath) = deviceStore db
  /\ deviceStore (RemovePodNetNs db pod) = deviceStore db.
Proof.
  unfold driver.AddPodNetNs, GetPodNetNs, RemovePodNetNs. repeat split.
  - intros ns ->. cbn [netNsForPod]. now rewrite lookup_insert, decide_True.
  - now intros err ->.
  - cbn [netNsForPod]. now rewrite lookup_delete, decide_True.
  - destruct (driver.GetFromPath w netNsPath); [reflexivity|].
    cbn [netNsForPod]. now rewrite lookup_insert_ne.
  - cbn [netNsForPod]. now rewrite lookup_delete_ne.
  - now destruct (driver.GetFromPath w netNsPath).
Qed.

End PodNetNs.

(** ** The interfaces of the default gateway *)

Section DefaultGateway.
Import inventory.

Lemma fold_union_elem {A : Type} (f : A -> gset string) (l : list A) (x : string) :
  forall acc : gset string,
    x ∈ fold_left (fun acc a => f a ∪ acc) l acc <-> x ∈ acc \/ exists a, In a l /\ x ∈ f a.
Proof.
  induction l as [|a rest IH]; intros acc; cbn [fold_left].
  - split; [now left | intros [H|(a & [] & _)]; exact H].
  - rewrite IH, elem_of_union. split.
    + intros [[H|H]|(b & Hb & H)].
      * right. exists a. split; [now left | exact H].
      * now left.
      * right. exists b. split; [now right | exact H].
    + intros [H|(b & [<-|Hb] & H)].
      * left. now right.
      * left. now left.
      * right. now exists b.
Qed.

Lemma multipath_elem (h : Host) (r : Route) (x : string) (hops : list NexthopInfo) :
  forall acc : gset string,
    x ∈ fold_left (fun (acc : gset string) nh =>
                     match NhGw nh with
                     | None => acc
                     | Some _ =>
                         match LinkByIndex h (RtLinkIndex r) with
                         | inl _ => acc
                         | inr intfLink => {[LinkName intfLink]} ∪ acc
                         end
                     end) hops acc
    <-> x ∈ acc
        \/ ((exists nh, In nh hops /\ NhGw nh <> None)
            /\ exists intfLink,
                 LinkByIndex h (RtLinkIndex r) = inr intfLink /\ LinkName intfLink = x).
Proof.
  induction hops as [|nh rest IH]; intros acc; cbn [fold_left].
  - split; [now left | intros [H|[(nh & [] & _) _]]; exact H].
  - rewrite IH. split.
    + intros [H|[(nh' & Hin & Hgw) Hl]].
      * destruct (NhGw nh) as [gw|] eqn:Hgw; [|now left].
        destruct (LinkByIndex h (RtLinkIndex r)) as [e|intfLink] eqn:Hl; [now left|].
        apply elem_of_union in H as [H|H]; [|now left].
        apply elem_of_singleton in H. right. split.
        -- exists nh. split; [now left | congruence].
        -- now exists intfLink.
      * right. split; [|exact Hl]. exists nh'. split; [now right | exact Hgw].
    + intros [H|[(nh' & [<-|Hin] & Hgw) (intfLink & Hl & Hn)]].
      * left. destruct (NhGw nh); [|exact H].
        destruct (LinkByIndex h (RtLinkIndex r)); [exact H | apply elem_of_union; now right].
      * left. destruct (NhGw nh); [|congruence]. rewrite Hl.
        apply elem_of_union. left. now apply elem_of_singleton.
      * right. split; [now exists nh' | now exists intfLink].
Qed.

Lemma gwOfRoute_elem (h : Host) (r : Route) (x : string) :
  x ∈ gwOfRoute h r <-> defaultGatewayRoute h r x.
Proof.
  unfold gwOfRoute, defaultGatewayRoute, FAMILY_V4, FAMILY_V6.
  destruct (Z.eqb_spec (RtFamily r) 2) as [H4|H4];
    destruct (Z.eqb_spec (RtFamily r) 10) as [H6|H6]; cbn [negb andb];
    try (split; [intros H; now apply elem_of_empty in H | intros ([?|?] & _); congruence]).
  all: destruct (RtDst r) as [[text []]|] eqn:Hdst;
    try (split; [intros H; now apply elem_of_empty in H
                | intros (_ & [?|[? ?]] & _); congruence]).
  all: rewrite multipath_elem.
  all: split;
    [ intros [H|[Hnh Hl]];
      [ destruct (RtMultiPath r) as [|nh0 hops] eqn:Hmp; [|now apply elem_of_empty in H];
        destruct (RtGw r) as [gw|] eqn:Hgw; [|now apply elem_of_empty in H];
        destruct (LinkByIndex h (RtLinkIndex r)) as [e|intfLink] eqn:Hl;
          [now apply elem_of_empty in H|];
        apply elem_of_singleton in H;
        (split; [first [now left | now right]|]);
        (split; [first [now left | right; now eexists]|]);
        (split; [left; split; [reflexivity | congruence] | now exists intfLink])
      | (split; [first [now left | now right]|]);
        (split; [first [now left | right; now eexists]|]);
        (split; [now right | exact Hl]) ]
    | intros (_ & _ & [[Hmp Hgw]|Hnh] & (intfLink & Hl & Hn));
      [ left; rewrite Hmp, Hl; destruct (RtGw r); [now apply elem_of_singleton | congruence]
      | right; split; [exact Hnh | now exists intfLink] ] ].
Qed.

(** X10. [getDefaultGwInterfaces] holds exactly the names of the links of
    the default routes that have a gateway: [name] is in the set if and only
    if some route of the main listing makes it a default-gateway interface.
    The link is the one of the route, also for a multipath hop. *)
Theorem getDefaultGwInterfaces_elem (h : Host) (name : string) :
  name ∈ getDefaultGwInterfaces h
  <-> exists routes r,
        RouteListFiltered h = inr routes /\ In r routes /\ defaultGatewayRoute h r name.
Proof.
  unfold getDefaultGwInterfaces. destruct (RouteListFiltered h) as [e|routes].
  - split; [intros H; now apply elem_of_empty in H | intros (? & ? & H & _); discriminate H].
  - rewrite fold_union_elem. split.
    + intros [H|(r & Hin & H)]; [now apply elem_of_empty in H|].
      exists routes, r. split; [reflexivity|]. split; [exact Hin|]. now apply gwOfRoute_elem.
    + intros (routes' & r & [= <-] & Hin & H). right. exists r. split; [exact Hin|].
      now apply gwOfRoute_elem.
Qed.

End DefaultGateway.

(** ** The eBPF probes *)

Section Filters.
Import inventory inventory_net.

Lemma tcFilters_fold (filters : list Filter) (x : string) :
  forall (names : gset string) (isEBPF : bool),
    let r := fold_left (fun '(names, isEBPF) f =>
                          match f with
                          | BpfFilter name => ({[name]} ∪ names, true)
                          | OtherFilter => (names, isEBPF)
                          end) filters (names, isEBPF) in
    (x ∈ fst r <-> x ∈ names \/ In (BpfFilter x) filters)
    /\ (snd r = true <-> isEBPF = true \/ exists name, In (BpfFilter name) filters).
Proof.
  induction filters as [|f rest IH]; intros names isEBPF; cbn [fold_left].
  - cbn. split; split; try (now left).
    + intros [H|[]]. exact H.
    + intros [H|[? []]]. exact H.
  - destruct f as [name|]; cbn zeta in IH |- *.
    + destruct (IH ({[name]} ∪ names) true) as [IH1 IH2]. rewrite IH1, IH2. split.
      * rewrite elem_of_union, elem_of_singleton. split.
        -- intros [[->|H]|H]; [right; now left | now left | right; now right].
        -- intros [H|[[= ->]|H]]; [left; now right | left; now left | now right].
      * split; [intros _; right; exists name; now left | intros _; now left].
    + destruct (IH names isEBPF) as [IH1 IH2]. rewrite IH1, IH2. split.
      * split; (intros [H|H]; [now left|right]); [now right|].
        destruct H as [H|H]; [discriminate H | exact H].
      * split; (intros [H|[name H]]; [now left|right; exists name]); [now right|].
        destruct H as [H|H]; [discriminate H | exact H].
Qed.

(** X11. [getTcFilters] lists the names of the BPF filters at the ingress
    and at the egress hook, and says eBPF exactly when it lists a name. *)
Theorem getTcFilters_names (p : Probe) (link : Link) :
  (forall name,
     name ∈ fst (getTcFilters p link)
     <-> exists parent filters,
           FilterList p link parent = inr filters /\ In (BpfFilter name) filters)
  /\ (snd (getTcFilters p link) = true <-> fst (getTcFilters p link) <> []).
Proof.
  unfold getTcFilters. cbn [fold_left].
  assert (forall parent (names : gset string) (isEBPF : bool),
            let r := match FilterList p link parent with
                     | inl _ => (names, isEBPF)
                     | inr filters =>
                         fold_left (fun '(names, isEBPF) f =>
                                      match f with
                                      | BpfFilter name => ({[name]} ∪ names, true)
                                      | OtherFilter => (names, isEBPF)
                                      end) filters (names, isEBPF)
                     end in
            (forall x, x ∈ fst r
                       <-> x ∈ names
                           \/ exists filters,
                                FilterList p link parent = inr filters
                                /\ In (BpfFilter x) filters)
            /\ (snd r = true
                <-> isEBPF = true
                    \/ exists filters name,
                         FilterList p link parent = inr filters
                         /\ In (BpfFilter name) filters)) as Hstep.
  { intros parent names isEBPF. cbn zeta.
    destruct (FilterList p link parent) as [e|filters].
    - cbn. split; [intros x|]; (split; [now left|]).
      + intros [H|(? & H & _)]; [exact H | discriminate H].
      + intros [H|(? & ? & H & _)]; [exact H | discriminate H].
    - split; [intros x|].
      + rewrite (proj1 (tcFilters_fold filters x names isEBPF)).
        split; (intros [H|H]; [now left | right]).
        * now exists filters.
        * destruct H as (? & [= <-] & H). exact H.
      + rewrite (proj2 (tcFilters_fold filters EmptyString names isEBPF)).
        split; (intros [H|H]; [now left | right]).
        * destruct H as [name H]. now exists filters, name.
        * destruct H as (? & name & [= <-] & H). now exists name. }
  pose proof (Hstep Ingress ∅ false) as [Hin1 Hin2]. cbn zeta in Hin1, Hin2.
  destruct (match FilterList p link Ingress with inl _ => _ | inr _ => _ end)
    as [names1 is1].
  pose proof (Hstep Egress names1 is1) as [Heg1 Heg2]. cbn zeta in Heg1, Heg2.
  destruct (match FilterList p link Egress with inl _ => _ | inr _ => _ end)
    as [names2 is2].
  cbn [fst snd] in *.
  assert (forall name,
            name ∈ names2
            <-> exists parent filters,
                  FilterList p link parent = inr filters /\ In (BpfFilter name) filters)
    as Hnames.
  { intros name. rewrite Heg1, Hin1. split.
    - intros [[H|(filters & H1 & H2)]|(filters & H1 & H2)].
      + now apply elem_of_empty in H.
      + now exists Ingress, filters.
      + now exists Egress, filters.
    - intros ([] & filters & H1 & H2); [left; right | right]; now exists filters. }
  split.
  - intros name. now rewrite elem_of_elements.
  - rewrite Heg2, Hin2. split.
    + intros [[H|(filters & name & H1 & H2)]|(filters & name & H1 & H2)]; [discriminate H| |].
      all: intros Hnil; apply elements_empty_inv in Hnil;
        assert (name ∈ names2) as Hn by (apply Hnames; eauto);
        rewrite (leibniz_equiv _ _ Hnil) in Hn; now apply elem_of_empty in Hn.
    + intros Hne. destruct (elements names2) as [|name rest] eqn:Hel; [congruence|].
      assert (name ∈ names2) as Hn.
      { apply elem_of_elements. rewrite Hel. apply list_elem_of_here. }
      apply Hnames in Hn as ([] & filters & H1 & H2);
        [left; right | right]; now exists filters, name.
Qed.

Lemma tcxPrograms_fold (p : Probe) (programs : list Z) (x : string) :
  forall names : gset string,
    x ∈ fold_left (fun names id =>
                     match NewProgramFromID p id with
                     | inl _ => names
                     | inr prog =>
                         match ProgramInfo p prog with
                         | inl _ => names
                         | inr name => {[name]} ∪ names
                         end
                     end) programs names
    <-> x ∈ names
        \/ exists id prog,
             In id programs /\ NewProgramFromID p id = inr prog /\ ProgramInfo p prog = inr x.
Proof.
  induction programs as [|id rest IH]; intros names; cbn [fold_left].
  - split; [now left | intros [H|(? & ? & [] & _)]; exact H].
  - rewrite IH. split.
    + intros [H|(id' & prog & Hin & H1 & H2)].
      * destruct (NewProgramFromID p id) as [e|prog] eqn:Hprog; [now left|].
        destruct (ProgramInfo p prog) as [e|name] eqn:Hinfo; [now left|].
        apply elem_of_union in H as [H|H]; [|now left].
        apply elem_of_singleton in H as ->. right. exists id, prog.
        split; [now left | now split].
      * right. exists id', prog. split; [now right | now split].
    + intros [H|(id' & prog & [<-|Hin] & H1 & H2)].
      * left. destruct (NewProgramFromID p id) as [e|prog]; [exact H|].
        destruct (ProgramInfo p prog); [exact H | apply elem_of_union; now right].
      * left. rewrite H1, H2. apply elem_of_union. left. now apply elem_of_singleton.
      * right. now exists id', prog.
Qed.

(** X12. [getTcxFilters] says eBPF as soon as the query of the ingress or of
    the egress hook succeeds; the names are those of the listed programs
    that can be opened and inspected. So an interface whose hooks can be
    queried and hold no program is reported as eBPF with no name. *)
Theorem getTcxFilters_query (p : Probe) (device : Link) :
  (snd (getTcxFilters p device) = true
   <-> exists attach programs, QueryPrograms p (LinkIndex device) attach = inr programs)
  /\ (forall name,
        name ∈ fst (getTcxFilters p device)
        <-> exists attach programs id prog,
              QueryPrograms p (LinkIndex device) attach = inr programs
              /\ In id programs /\ NewProgramFromID p id = inr prog
              /\ ProgramInfo p prog = inr name)
  /\ ((forall attach, QueryPrograms p (LinkIndex device) attach = inr []) ->
      getTcxFilters p device = ([], true)).
Proof.
  unfold getTcxFilters. cbn [fold_left]. split; [|split].
  - destruct (QueryPrograms p (LinkIndex device) Ingress) as [e1|ps1] eqn:H1;
      destruct (QueryPrograms p (LinkIndex device) Egress) as [e2|ps2] eqn:H2; cbn [snd].
    + split; [intros H; discriminate H | intros ([] & ? & H); congruence].
    + split; [intros _; now exists Egress, ps2 | reflexivity].
    + split; [intros _; now exists Ingress, ps1 | reflexivity].
    + split; [intros _; now exists Ingress, ps1 | reflexivity].
  - intros name.
    pose proof (fun ps names => tcxPrograms_fold p ps name names) as Hfold.
    destruct (QueryPrograms p (LinkIndex device) Ingress) as [e1|ps1] eqn:H1;
      destruct (QueryPrograms p (LinkIndex device) Egress) as [e2|ps2] eqn:H2;
      cbn [fst]; rewrite elem_of_elements, ?Hfold.
    + split; [intros H; now apply elem_of_empty in H
             | intros ([] & ? & ? & ? & H & _); congruence].
    + split.
      * intros [H|(id & prog & H)]; [now apply elem_of_empty in H|].
        now exists Egress, ps2, id, prog.
      * intros ([] & ps & id & prog & Hq & H); [congruence|]. right.
        assert (ps = ps2) as -> by congruence. now exists id, prog.
    + split.
      * intros [H|(id & prog & H)]; [now apply elem_of_empty in H|].
        now exists Ingress, ps1, id, prog.
      * intros ([] & ps & id & prog & Hq & H); [|congruence]. right.
        assert (ps = ps1) as -> by congruence. now exists id, prog.
    + split.
      * intros [[H|(id & prog & H)]|(id & prog & H)]; [now apply elem_of_empty in H| |].
        -- now exists Ingress, ps1, id, prog.
        -- now exists Egress, ps2, id, prog.
      * intros ([] & ps & id & prog & Hq & H).
        -- left. right. assert (ps = ps1) as -> by congruence. now exists id, prog.
        -- right. assert (ps = ps2) as -> by congruence. now exists id, prog.
  - intros Hq. rewrite !Hq. cbn [fold_left]. now rewrite elements_empty.
Qed.

End Filters.

(** ** cloud.go *)

Section Cloud.
Import inventory_cloud.

(** X13. [cloudNetwork] answers with the network of the first interface of
    the instance that has the MAC address, also when a later interface has
    the same address, and with the empty string when there is no instance or
    no interface with that address. *)
Theorem cloudNetwork_first_match (mac : string) (instance : cloudInstance) :
  (forall pre cloudInterface post,
     Interfaces instance = pre ++ cloudInterface :: post ->
     Mac cloudInterface = mac -> Forall (fun x => Mac x <> mac) pre ->
     cloudNetwork mac (Some instance) = Network cloudInterface)
  /\ (Forall (fun x => Mac x <> mac) (Interfaces instance) ->
      cloudNetwork mac (Some instance) = EmptyString)
  /\ cloudNetwork mac None = EmptyString.
Proof.
  unfold cloudNetwork. split; [|split; [|reflexivity]].
  - intros pre ci post -> Hmac Hpre.
    induction Hpre as [|x pre Hx Hpre IH]; cbn [app networkOf].
    + now rewrite (proj2 (String.eqb_eq _ _) Hmac).
    + now rewrite (proj2 (String.eqb_neq _ _) Hx).
  - induction 1 as [|x rest Hx Hrest IH]; cbn [networkOf]; [reflexivity|].
    now rewrite (proj2 (String.eqb_neq _ _) Hx).
Qed.

Lemma substring_length (n : nat) (s : string) :
  String.length (String.substring 0 n s) = Nat.min n (String.length s).
Proof.
  revert s. induction n as [|n IH]; intros s.
  - destruct s; reflexivity.
  - destruct s as [|c s]; [reflexivity|]. cbn [String.substring String.length Nat.min].
    now rewrite IH.
Qed.

Lemma substring_all (n : nat) (s : string) :
  (String.length s <= n)%nat -> String.substring 0 n s = s.
Proof.
  revert s. induction n as [|n IH]; intros s Hlen.
  - destruct s; [reflexivity | cbn in Hlen; lia].
  - destruct s as [|c s]; [reflexivity|]. cbn [String.substring]. f_equal. apply IH.
    cbn in Hlen. lia.
Qed.

Lemma last_cons_nonempty {A : Type} (a d : A) (l : list A) :
  l <> [] -> List.last (a :: l) d = List.last l d.
Proof. destruct l; [congruence | reflexivity]. Qed.

(** The last part of a split is what follows the last separator. *)
Lemma genSplit_last (x : ascii) (s : string) :
  forall cur : string,
    ~ In x (list_ascii_of_string cur) ->
    exists dir seg,
      cur +:+ s = dir +:+ seg
      /\ (dir = EmptyString \/ exists d, dir = d +:+ String x EmptyString)
      /\ ~ In x (list_ascii_of_string seg)
      /\ List.last (strings.genSplit (String x EmptyString) s 0 cur) EmptyString = seg.
Proof.
  induction s as [|c s IH]; intros cur Hcur.
  - exists EmptyString, cur. rewrite append_nil_r. cbn. tauto.
  - cbn [strings.genSplit]. rewrite HasPrefix_byte.
    destruct (Ascii.eqb_spec c x) as [->|Hne].
    + cbn [String.length Nat.sub].
      rewrite last_cons_nonempty by apply genSplit_nonempty.
      destruct (IH EmptyString (fun H => H)) as (dir & seg & Heq & Hdir & Hseg & Hlast).
      exists (cur +:+ String x EmptyString +:+ dir), seg.
      change (EmptyString +:+ s) with s in Heq.
      split; [|split; [|split; assumption]].
      * rewrite !append_assoc, <- Heq. reflexivity.
      * right. destruct Hdir as [->|[d ->]].
        -- exists cur. now rewrite append_nil_r.
        -- exists (cur +:+ String x EmptyString +:+ d). now rewrite !append_assoc.
    + destruct (IH (cur +:+ String c EmptyString)) as (dir & seg & Heq & H).
      { rewrite list_ascii_app. intros [H|[H|[]]]%in_app_or; [now apply Hcur|].
        now apply Hne. }
      exists dir, seg. split; [|exact H]. rewrite <- Heq. now rewrite append_assoc.
Qed.

(** X14. [getLastSegmentAndTruncate] with a limit that is not negative
    answers with what follows the last '/' of the string, cut to the limit;
    with a negative limit the slice expression panics, whatever the string. *)
Theorem getLastSegmentAndTruncate_segment (s : string) (maxLength : Z) :
  (0 <= maxLength ->
   exists dir seg,
     s = dir +:+ seg
     /\ (dir = EmptyString \/ exists d, dir = d +:+ "/")
     /\ ~ In "/"%char (list_ascii_of_string seg)
     /\ getLastSegmentAndTruncate s maxLength
        = Some (String.substring 0 (Z.to_nat maxLength) seg)
     /\ Z.of_nat (String.length (String.substring 0 (Z.to_nat maxLength) seg)) <= maxLength)
  /\ (maxLength < 0 -> getLastSegmentAndTruncate s maxLength = None).
Proof.
  unfold getLastSegmentAndTruncate, strings.Split.
  assert (Nat.eqb (length (strings.genSplit "/" s 0 EmptyString)) 0 = false) as ->.
  { pose proof (genSplit_nonempty "/" s 0 EmptyString) as H.
    destruct (strings.genSplit "/" s 0 EmptyString); [congruence | reflexivity]. }
  split.
  - intros Hmax.
    destruct (genSplit_last "/" s EmptyString (fun H => H)) as (dir & seg & Heq & Hdir & Hseg & ->).
    exists dir, seg. split; [exact Heq|]. split; [exact Hdir|]. split; [exact Hseg|]. split.
    + destruct (Z.gtb_spec (Z.of_nat (String.length seg)) maxLength) as [Hgt|Hle].
      * now rewrite (proj2 (Z.ltb_ge _ _) Hmax).
      * rewrite substring_all by lia. reflexivity.
    + rewrite substring_length. lia.
  - intros Hneg.
    destruct (Z.gtb_spec (Z.of_nat (String.length
               (List.last (strings.genSplit "/" s 0 EmptyString) EmptyString))) maxLength)
      as [Hgt|Hle]; [|lia].
    now rewrite (proj2 (Z.ltb_lt _ _) Hneg).
Qed.

Lemma getLastSegmentAndTruncate_witness :
  exists dir seg,
    "projects/628944397724/networks/default" = dir +:+ seg
    /\ (dir = EmptyString \/ exists d, dir = d +:+ "/")
    /\ ~ In "/"%char (list_ascii_of_string seg)
    /\ getLastSegmentAndTruncate "projects/628944397724/networks/default" 4
       = Some (String.substring 0 (Z.to_nat 4) seg)
    /\ Z.of_nat (String.length (String.substring 0 (Z.to_nat 4) seg)) <= 4.
Proof.
  apply (proj1 (getLastSegmentAndTruncate_segment "projects/628944397724/networks/default" 4)).
  lia.
Defined.

End Cloud.

(** ** PCI addresses in sysfs paths *)

Section Sysfs.
Import regexp inventory_names inventory_sysfs.

Lemma inClass_hexDigit (c : ascii) :
  inClass c [("0", "9"); ("a", "f"); ("A", "F")]%char = isHexDigit c.
Proof.
  unfold inClass, isHexDigit. cbn [existsb]. rewrite orb_false_r.
  change (nat_of_ascii "0") with 48%nat. change (nat_of_ascii "9") with 57%nat.
  change (nat_of_ascii "a") with 97%nat. change (nat_of_ascii "f") with 102%nat.
  change (nat_of_ascii "A") with 65%nat. change (nat_of_ascii "F") with 70%nat.
  now rewrite orb_assoc.
Qed.

Lemma run_hexDigit (c : ascii) (s : string) (caps : Submatches)
    (k : string -> Submatches -> option Submatches) :
  run hexDigit (String c s) caps k = if isHexDigit c then k s caps else None.
Proof. cbn [run hexDigit]. now rewrite inClass_hexDigit. Qed.

Lemma run_hexDigit_nil (caps : Submatches) (k : string -> Submatches -> option Submatches) :
  run hexDigit EmptyString caps k = None.
Proof. reflexivity. Qed.

Lemma run_Literal (x c : ascii) (s : string) (caps : Submatches)
    (k : string -> Submatches -> option Submatches) :
  run (Literal x) (String c s) caps k = if Ascii.eqb c x then k s caps else None.
Proof. reflexivity. Qed.

Ltac regexp_step :=
  first
    [ rewrite run_hexDigit
    | rewrite run_hexDigit_nil
    | match goal with
      | |- context [if isHexDigit ?c then _ else _] => destruct (isHexDigit c) eqn:?
      | |- context [if Ascii.eqb ?c ?x then _ else _] =>
          destruct (Ascii.eqb_spec c x); [subst c|]
      end
    | progress cbn [run String.eqb] ].

Lemma parsePCIAddress_sound (s : string) (a : pciAddress) :
  parsePCIAddress s = inr a -> bdfNotation a = true /\ pciAddress_String a = s.
Proof.
  unfold parsePCIAddress, FindStringSubmatch, pciAddressRegex.
  cbn [body NumSubexp seq map length Nat.eqb nth].
  do 13 (destruct s as [|? s];
         [repeat regexp_step;
          first [ intros H; discriminate H
                | intros [= <-]; cbn; unfold bdfNotation, hexOfLength; cbn;
                  repeat match goal with
                         | H : isHexDigit _ = true |- _ => rewrite H; clear H
                         end;
                  split; reflexivity ]|]).
  repeat regexp_step; intros H; discriminate H.
Qed.

Lemma hexOfLength_1 (s : string) :
  hexOfLength 1 s = true -> exists c, s = String c EmptyString /\ isHexDigit c = true.
Proof.
  unfold hexOfLength. destruct s as [|c [|? ?]]; try (intros H; discriminate H).
  cbn. rewrite andb_true_r. intros H. now exists c.
Qed.

Lemma hexOfLength_2 (s : string) :
  hexOfLength 2 s = true ->
  exists c1 c2, s = String c1 (String c2 EmptyString)
                /\ isHexDigit c1 = true /\ isHexDigit c2 = true.
Proof.
  unfold hexOfLength. destruct s as [|c1 [|c2 [|? ?]]]; try (intros H; discriminate H).
  cbn. rewrite andb_true_r. intros [H1 H2]%andb_prop. now exists c1, c2.
Qed.

Lemma hexOfLength_4 (s : string) :
  hexOfLength 4 s = true ->
  exists c1 c2 c3 c4,
    s = String c1 (String c2 (String c3 (String c4 EmptyString)))
    /\ isHexDigit c1 = true /\ isHexDigit c2 = true
    /\ isHexDigit c3 = true /\ isHexDigit c4 = true.
Proof.
  unfold hexOfLength.
  destruct s as [|c1 [|c2 [|c3 [|c4 [|? ?]]]]]; try (intros H; discriminate H).
  cbn. rewrite andb_true_r. intros [H1 [H2 [H3 H4]%andb_prop]%andb_prop]%andb_prop.
  now exists c1, c2, c3, c4.
Qed.

Ltac regexp_match :=
  repeat first
    [ rewrite run_hexDigit
    | match goal with
      | H : isHexDigit ?c = true |- context [isHexDigit ?c] => rewrite H
      end
    | progress change (isHexDigit ":"%char) with false
    | progress cbn [run String.eqb Ascii.eqb Bool.eqb] ].

Lemma parsePCIAddress_complete (a : pciAddress) :
  bdfNotation a = true -> parsePCIAddress (pciAddress_String a) = inr a.
Proof.
  destruct a as [d b v f]. unfold bdfNotation. cbn [domain bus device function].
  intros [[[Hd Hb]%andb_prop Hv]%andb_prop Hf]%andb_prop.
  apply hexOfLength_2 in Hb as (b1 & b2 & -> & Hb1 & Hb2).
  apply hexOfLength_2 in Hv as (v1 & v2 & -> & Hv1 & Hv2).
  apply hexOfLength_1 in Hf as (f1 & -> & Hf1).
  unfold parsePCIAddress, FindStringSubmatch, pciAddressRegex, pciAddress_String.
  cbn [body NumSubexp seq map length Nat.eqb nth domain bus device function].
  apply orb_prop in Hd as [Hd|Hd].
  - apply String.eqb_eq in Hd as ->. cbn [String.eqb].
    change (String b1 (String b2 "") +:+ ":" +:+ String v1 (String v2 "") +:+ "." +:+ String f1 "")
      with (String b1 (String b2 (String ":" (String v1 (String v2 (String "." (String f1 ""))))))).
    regexp_match. reflexivity.
  - apply hexOfLength_4 in Hd as (d1 & d2 & d3 & d4 & -> & Hd1 & Hd2 & Hd3 & Hd4).
    cbn [String.eqb].
    change (String d1 (String d2 (String d3 (String d4 ""))) +:+ ":" +:+
            String b1 (String b2 "") +:+ ":" +:+ String v1 (String v2 "") +:+ "." +:+ String f1 "")
      with (String d1 (String d2 (String d3 (String d4 (String ":"
             (String b1 (String b2 (String ":" (String v1 (String v2 (String "."
             (String f1 "")))))))))))).
    regexp_match. reflexivity.
Qed.

(** X15. [parsePCIAddress] reads exactly the texts that [pciAddress.String]
    writes for the addresses in the notation of the pattern, the short form
    without domain included, and reads each one back to its address. *)
Theorem parsePCIAddress_String (s : string) (a : pciAddress) :
  parsePCIAddress s = inr a <-> bdfNotation a = true /\ pciAddress_String a = s.
Proof.
  split.
  - apply parsePCIAddress_sound.
  - intros [Ha <-]. now apply parsePCIAddress_complete.
Qed.

Lemma lastAddress_rev (parts : list string) (a : pciAddress) :
  lastAddress (rev parts) = Some a
  <-> exists pre current post,
        parts = pre ++ current :: post /\ parsePCIAddress current = inr a
        /\ Forall (fun x => exists e, parsePCIAddress x = inl e) post.
Proof.
  induction parts as [|p parts IH] using rev_ind.
  - cbn. split; [intros H; discriminate H | intros (pre & c & post & H & _)].
    now destruct pre.
  - rewrite rev_app_distr. cbn [rev app lastAddress]. split.
    + destruct (parsePCIAddress p) as [e|addr] eqn:Hp.
      * intros (pre & c & post & -> & Hc & Hpost)%IH.
        exists pre, c, (post ++ [p]). split; [now rewrite <- app_assoc|]. split; [exact Hc|].
        apply Forall_app. split; [exact Hpost|]. constructor; [now exists e | constructor].
      * intros [= <-]. exists parts, p, []. split; [reflexivity|]. split; [exact Hp|constructor].
    + intros (pre & c & post & Heq & Hc & Hpost).
      destruct post as [|q post _] using rev_ind.
      * apply app_inj_tail in Heq as [-> ->]. now rewrite Hc.
      * rewrite app_comm_cons, app_assoc in Heq. apply app_inj_tail in Heq as [-> ->].
        apply Forall_app in Hpost as [Hpost Hq]. apply Forall_inv in Hq as [e ->].
        apply IH. now exists pre, c, post.
Qed.

(** X16. [pciAddressFromPath] finds the address of the last part of the path
    that is a PCI address, the one closest to the device, and fails exactly
    when no part is one. *)
Theorem pciAddressFromPath_last (path : string) (a : pciAddress) :
  pciAddressFromPath path = inr a
  <-> exists pre current post,
        strings.Split path "/" = pre ++ current :: post
        /\ parsePCIAddress current = inr a
        /\ Forall (fun x => exists e, parsePCIAddress x = inl e) post.
Proof.
  unfold pciAddressFromPath. rewrite <- lastAddress_rev.
  destruct (lastAddress (rev (strings.Split path "/"))) as [addr|].
  - split; [intros [= <-] | intros [= <-]]; reflexivity.
  - split; intros H; discriminate H.
Qed.

End Sysfs.

(** ** [ValidateConfig]: what is accepted and what is reported *)

Section ValidateConfigComplete.
Context {net : NetLib} {json : apis.JSONLib} {yaml : driverconfig.YAMLLib}.

Lemma Join_None (errs : list error) : errors.Join errs = None <-> errs = [].
Proof. destruct errs; cbn; split; congruence. Qed.

Lemma routeErrors_valid (i : Z) (route : apis.RouteConfig) :
  ~ invalidRoute route -> apis.routeErrors i route = [].
Proof.
  unfold invalidRoute, apis.routeErrors, apis.RT_SCOPE_UNIVERSE, apis.RT_SCOPE_LINK.
  intros Hvalid.
  destruct (String.eqb_spec (apis.Destination route) EmptyString) as [Hd|Hd];
    [exfalso; apply Hvalid; tauto|].
  destruct (ParseCIDR (apis.Destination route)) as [e|n] eqn:Hcidr.
  - destruct (ParseIP (apis.Destination route)) eqn:Hip;
      [|exfalso; apply Hvalid; right; right; right; right; split; [now exists e | reflexivity]].
    apply app_nil. split; [reflexivity|].
    destruct (Z.eqb_spec (apis.Scope route) 0) as [H0|H0];
      destruct (Z.eqb_spec (apis.Scope route) 253) as [H253|H253]; cbn [negb andb app];
      try (exfalso; apply Hvalid; tauto);
      destruct (String.eqb_spec (apis.Gateway route) EmptyString) as [Hg|Hg]; cbn [negb];
      try reflexivity; try (exfalso; apply Hvalid; tauto);
      destruct (ParseIP (apis.Gateway route)) eqn:Hgw; try reflexivity;
      exfalso; apply Hvalid; tauto.
  - apply app_nil. split; [reflexivity|].
    destruct (Z.eqb_spec (apis.Scope route) 0) as [H0|H0];
      destruct (Z.eqb_spec (apis.Scope route) 253) as [H253|H253]; cbn [negb andb app];
      try (exfalso; apply Hvalid; tauto);
      destruct (String.eqb_spec (apis.Gateway route) EmptyString) as [Hg|Hg]; cbn [negb];
      try reflexivity; try (exfalso; apply Hvalid; tauto);
      destruct (ParseIP (apis.Gateway route)) eqn:Hgw; try reflexivity;
      exfalso; apply Hvalid; tauto.
Qed.

Lemma routesErrors_nil (routes : list apis.RouteConfig) :
  forall i, apis.routesErrors i routes = []
            <-> forall route, In route routes -> ~ invalidRoute route.
Proof.
  induction routes as [|r rest IH]; intros i; cbn [apis.routesErrors].
  - split; [intros _ route [] | reflexivity].
  - rewrite app_nil, IH. split.
    + intros [Hr Hrest] route [<-|Hin]; [|now apply Hrest].
      intros Hinv. now apply (routeErrors_invalid i r).
    + intros H. split; [apply routeErrors_valid; apply H; now left|].
      intros route Hin. apply H. now right.
Qed.

Lemma addressErrors_nil (addresses : list string) :
  apis.addressErrors addresses = [] <-> forall ip, In ip addresses -> ParsePrefix ip = true.
Proof.
  unfold apis.addressErrors. induction addresses as [|ip rest IH]; cbn [flat_map].
  - split; [intros _ ip [] | reflexivity].
  - rewrite app_nil, IH. split.
    + intros [Hip Hrest] ip' [<-|Hin]; [|now apply Hrest].
      destruct (ParsePrefix ip); [reflexivity | discriminate Hip].
    + intros H. split; [now rewrite (H ip (or_introl eq_refl))|].
      intros ip' Hin. apply H. now right.
Qed.

(** X17. On a payload that decodes without complaint, [ValidateConfig]
    always hands back the decoded configuration, and its error is nil
    exactly when every address of the interface is a prefix and no route is
    one that validation has to reject. *)
Theorem ValidateConfig_accepts_iff (data : string) (config : apis.NetworkConfig) :
  data <> EmptyString ->
  apis.UnmarshalStrict data apis.zeroNetworkConfig = ([], None, config) ->
  fst (apis.ValidateConfig (Some (mkRawExtension (Some data)))) = Some config
  /\ (snd (apis.ValidateConfig (Some (mkRawExtension (Some data)))) = None
      <-> (forall ip, In ip (apis.Addresses (apis.Interface config)) -> ParsePrefix ip = true)
          /\ forall route, In route (apis.Routes config) -> ~ invalidRoute route).
Proof.
  intros Hne Hdec. rewrite (ValidateConfig_decoded data config Hne Hdec). cbn [fst snd].
  split; [reflexivity|].
  now rewrite Join_None, app_nil, addressErrors_nil, routesErrors_nil.
Qed.

Lemma legacy_routeErrors_nil (route : driverconfig.Route) :
  driverconfig.routeErrors route = [] <-> legacyValidRoute route.
Proof.
  unfold driverconfig.routeErrors, legacyValidRoute.
  destruct (String.eqb_spec (driverconfig.Destination route) EmptyString) as [Hd|Hd];
    destruct (String.eqb_spec (driverconfig.Gateway route) EmptyString) as [Hg|Hg];
    cbn [orb app];
    try (split; [intros H; discriminate H | intros (? & ? & _); congruence]).
  destruct (ParsePrefix (driverconfig.Destination route));
    destruct (ParseAddr (driverconfig.Gateway route)); cbn [app];
    split; try (intros H; discriminate H); try tauto.
  all: intros (_ & _ & H1 & H2); congruence.
Qed.

(** X18. The first [ValidateConfig], on a payload that decodes: the error is
    nil exactly when every ip is a prefix and every route has a destination
    that is a prefix and a gateway that is an address, neither of them
    empty. *)
Theorem legacy_ValidateConfig_accepts_iff (data : string)
    (config : driverconfig.NetworkConfig) :
  data <> EmptyString ->
  driverconfig.UnmarshalDisallowUnknownFields data driverconfig.zeroNetworkConfig
  = (None, config) ->
  fst (driverconfig.ValidateConfig (Some (mkRawExtension (Some data)))) = Some config
  /\ (snd (driverconfig.ValidateConfig (Some (mkRawExtension (Some data)))) = None
      <-> (forall ip, In ip (driverconfig.IPs config) -> ParsePrefix ip = true)
          /\ forall route, In route (driverconfig.Routes config) -> legacyValidRoute route).
Proof.
  intros Hne Hdec. rewrite (legacy_ValidateConfig_decoded data config Hne Hdec).
  cbn [fst snd]. split; [reflexivity|].
  rewrite Join_None, app_nil.
  change (driverconfig.ipErrors (driverconfig.IPs config))
    with (apis.addressErrors (driverconfig.IPs config)).
  rewrite addressErrors_nil.
  assert (flat_map driverconfig.routeErrors (driverconfig.Routes config) = []
          <-> forall route, In route (driverconfig.Routes config) -> legacyValidRoute route)
    as ->; [|reflexivity].
  induction (driverconfig.Routes config) as [|r rest IH]; cbn [flat_map].
  - split; [intros _ route [] | reflexivity].
  - rewrite app_nil, IH, legacy_routeErrors_nil. split.
    + intros [Hr Hrest] route [<-|Hin]; [exact Hr | now apply Hrest].
    + intros H. split; [apply H; now left | intros route Hin; apply H; now right].
Qed.

Lemma routesErrors_at (routes : list apis.RouteConfig) :
  forall (i0 : Z) (i : nat) (route : apis.RouteConfig) (msg : error),
    routes !! i = Some route -> In msg (apis.routeErrors (i0 + Z.of_nat i) route) ->
    In msg (apis.routesErrors i0 routes).
Proof.
  induction routes as [|r rest IH]; intros i0 i route msg; [intros H; discriminate H|].
  cbn [apis.routesErrors]. destruct i as [|i]; cbn [lookup list_lookup].
  - intros [= <-] Hin. apply in_or_app. left. now rewrite Z.add_0_r in Hin.
  - intros Hi Hin. apply in_or_app. right. apply (IH (i0 + 1) i route); [exact Hi|].
    now replace (i0 + 1 + Z.of_nat i) with (i0 + Z.of_nat (S i)) by lia.
Qed.

(** X19. [ValidateConfig] reports every failure it finds, not only the
    first: the text of its error names each address that is no prefix and
    holds each message of the route at position [i] under the number [i]; so
    a route with an empty destination is reported as "route i: destination
    cannot be empty". *)
Theorem ValidateConfig_reports_all (data : string) (config : apis.NetworkConfig) (e : error) :
  data <> EmptyString ->
  apis.UnmarshalStrict data apis.zeroNetworkConfig = ([], None, config) ->
  snd (apis.ValidateConfig (Some (mkRawExtension (Some data)))) = Some e ->
  (forall ip, In ip (apis.Addresses (apis.Interface config)) -> ParsePrefix ip = false ->
     strings.Contains (errors.Error e) ("invalid IP in CIDR format " +:+ ip))
  /\ (forall i route msg,
        apis.Routes config !! i = Some route ->
        In msg (apis.routeErrors (Z.of_nat i) route) ->
        strings.Contains (errors.Error e) (errors.Error msg))
  /\ (forall i route,
        apis.Routes config !! i = Some route -> apis.Destination route = EmptyString ->
        strings.Contains (errors.Error e)
          ("route " +:+ errors.Itoa (Z.of_nat i) +:+ ": destination cannot be empty")).
Proof.
  intros Hne Hdec. rewrite (ValidateConfig_decoded data config Hne Hdec). cbn [snd].
  set (errs := apis.addressErrors _ ++ apis.routesErrors 0 _).
  destruct errs as [|e0 rest] eqn:Herrs; [intros H; discriminate H|].
  cbn [errors.Join]. intros [= <-]. rewrite <- Herrs. clear Herrs e0 rest.
  assert (forall i route msg,
            apis.Routes config !! i = Some route ->
            In msg (apis.routeErrors (Z.of_nat i) route) ->
            strings.Contains (errors.Error (errors.JoinError errs)) (errors.Error msg)) as Hroute.
  { intros i route msg Hi Hmsg. apply JoinError_Contains. apply in_or_app. right.
    now apply (routesErrors_at _ 0 i route). }
  split; [|split; [exact Hroute|]].
  - intros ip Hin Hip.
    apply (JoinError_Contains errs (errors.New ("invalid IP in CIDR format " +:+ ip))).
    apply in_or_app. left. unfold apis.addressErrors. apply in_flat_map.
    exists ip. split; [exact Hin|]. rewrite Hip. now left.
  - intros i route Hi Hd.
    apply (Hroute i route (errors.New ("route " +:+ errors.Itoa (Z.of_nat i) +:+
                                       ": destination cannot be empty")) Hi).
    unfold apis.routeErrors. rewrite Hd. cbn [String.eqb]. now left.
Qed.

End ValidateConfigComplete.

(** ** What the effector asks of the kernel *)

Section EffectorCallsProperties.
Context {net : NetLib} {W : Type} {kernel : driver.Kernel W} {slices : Slices}.

Abbreviation Log := (Calls IP IPNet HardwareAddr).

(** One pass of the neighbor loop under the recording kernel. *)
Lemma applyNeighbor_recorded (ifName : string) (nh : driver.Handle) (nsLink : Z)
    (w : W) (log : Log) (errs : list error) (neigh : apis.NeighborConfig) :
  let st := @driver.applyNeighbor net _ (recorded kernel) ifName nh nsLink ((w, log), errs) neigh in
  neighAdds (snd (fst st)) = neighAdds log ++ option_list (neighFor nsLink neigh)
  /\ routeAdds (snd (fst st)) = routeAdds log
  /\ ruleAdds (snd (fst st)) = ruleAdds log
  /\ (exists more, snd st = errs ++ more /\ (neighFor nsLink neigh = None -> more <> [])).
Proof.
  cbn zeta. unfold driver.applyNeighbor, neighFor.
  destruct (ParseIP (apis.NeighDestination neigh)) as [ip|].
  2:{ cbn [fst snd option_list]. rewrite app_nil_r. repeat split.
      eexists. split; [reflexivity|]. intros _ H. discriminate H. }
  destruct (ParseMAC (apis.NeighHardwareAddr neigh)) as [mac|].
  2:{ cbn [fst snd option_list]. rewrite app_nil_r. repeat split.
      eexists. split; [reflexivity|]. intros _ H. discriminate H. }
  cbn [recorded driver.NeighAdd fst snd option_list].
  destruct (driver.NeighAdd w nh _) as [w' [e|]]; cbn [fst snd];
    [destruct (negb (errors.IsErrno e errors.EEXIST))|]; cbn [fst snd neighAdds routeAdds ruleAdds].
  - repeat split. eexists. split; [reflexivity|]. intros H. discriminate H.
  - repeat split. exists []. split; [now rewrite app_nil_r|]. intros H. discriminate H.
  - repeat split. exists []. split; [now rewrite app_nil_r|]. intros H. discriminate H.
Qed.

Lemma applyNeighbors_recorded (ifName : string) (nh : driver.Handle) (nsLink : Z)
    (neighConfig : list apis.NeighborConfig) :
  forall (w : W) (log : Log) (errs : list error),
    let st := fold_left (@driver.applyNeighbor net _ (recorded kernel) ifName nh nsLink)
                        neighConfig ((w, log), errs) in
    neighAdds (snd (fst st)) = neighAdds log ++ omap (neighFor nsLink) neighConfig
    /\ routeAdds (snd (fst st)) = routeAdds log
    /\ ruleAdds (snd (fst st)) = ruleAdds log
    /\ (exists more,
          snd st = errs ++ more
          /\ ((exists neigh, In neigh neighConfig /\ neighFor nsLink neigh = None) -> more <> [])).
Proof.
  induction neighConfig as [|neigh rest IH]; intros w log errs; cbn [fold_left].
  - cbn. rewrite app_nil_r. repeat split. exists []. split; [now rewrite app_nil_r|].
    intros (? & [] & _).
  - pose proof (applyNeighbor_recorded ifName nh nsLink w log errs neigh) as Hstep.
    cbn zeta in Hstep.
    destruct (@driver.applyNeighbor net _ (recorded kernel) ifName nh nsLink (w, log, errs) neigh)
      as [[w1 log1] errs1].
    cbn [fst snd] in Hstep. destruct Hstep as (Hn & Hr & Hu & more1 & -> & Hmore1).
    specialize (IH w1 log1 (errs ++ more1)). cbn zeta in IH.
    destruct IH as (IHn & IHr & IHu & more & IHe & Hmore).
    rewrite IHn, IHr, IHu, Hn, Hr, Hu, IHe. repeat split.
    + rewrite <- app_assoc. f_equal. cbn. now destruct (neighFor nsLink neigh).
    + exists (more1 ++ more). split; [now rewrite app_assoc|].
      intros (bad & [<-|Hin] & Hbad) Hnil; apply app_nil in Hnil as [H1 H2].
      * now apply Hmore1.
      * apply Hmore; [now exists bad | exact H2].
Qed.

(** X20. [applyNeighborConfig] asks the kernel for one permanent entry on
    the link of the interface for every configured neighbor whose address
    and MAC can be read, in the order of the configuration and whatever the
    kernel answered to the entries before; an entry that cannot be read is
    never handed to the kernel and makes the result an error. Nothing is
    asked when the namespace, the handle or the link is missing. *)
Theorem applyNeighborConfig_calls (path ifName : string)
    (neighConfig : list apis.NeighborConfig) (w : W) (log : Log) :
  let result := @driver.applyNeighborConfig net _ (recorded kernel) path ifName neighConfig
                  (w, log) in
  neighAdds (snd (fst result))
  = neighAdds log
    ++ match linkAt w path ifName with
       | Some nsLink => omap (neighFor nsLink) neighConfig
       | None => []
       end
  /\ routeAdds (snd (fst result)) = routeAdds log
  /\ ruleAdds (snd (fst result)) = ruleAdds log
  /\ (forall nsLink neigh,
        linkAt w path ifName = Some nsLink -> In neigh neighConfig ->
        neighFor nsLink neigh = None -> is_Some (snd result)).
Proof.
  cbn zeta. unfold driver.applyNeighborConfig, linkAt.
  cbn [recorded driver.GetFromPath driver.NewHandleAt driver.LinkByName fst].
  destruct (driver.GetFromPath w path) as [e|ns];
    [cbn; rewrite app_nil_r; repeat split; intros ? ? H; discriminate H|].
  destruct (driver.NewHandleAt w ns) as [e|nh];
    [cbn; rewrite app_nil_r; repeat split; intros ? ? H; discriminate H|].
  destruct (driver.LinkByName w nh ifName) as [e|nsLink];
    [cbn; rewrite app_nil_r; repeat split; intros ? ? H; discriminate H|].
  pose proof (applyNeighbors_recorded ifName nh nsLink neighConfig w log []) as H.
  cbn zeta in H. destruct (fold_left _ _ _) as [[w' log'] errs].
  cbn [fst snd] in H |- *. destruct H as (Hn & Hr & Hu & more & -> & Hmore).
  repeat split; try assumption.
  intros l neigh [= <-] Hin Hbad. cbn [app].
  destruct more as [|m rest]; [|now eexists].
  exfalso. apply Hmore; [now exists neigh | reflexivity].
Qed.

Lemma applyRule_recorded (path : string) (nh : driver.Handle)
    (w : W) (log : Log) (errs : list error) (ruleCfg : apis.RuleConfig) :
  let st := @driver.applyRule net _ (recorded kernel) path nh ((w, log), errs) ruleCfg in
  ruleAdds (snd (fst st)) = ruleAdds log ++ option_list (ruleFor ruleCfg)
  /\ routeAdds (snd (fst st)) = routeAdds log
  /\ neighAdds (snd (fst st)) = neighAdds log
  /\ (exists more, snd st = errs ++ more /\ (ruleFor ruleCfg = None -> more <> [])).
Proof.
  cbn zeta. unfold driver.applyRule, ruleFor.
  destruct (driver.ruleOf ruleCfg) as [e|rule].
  { cbn [fst snd option_list]. rewrite app_nil_r. repeat split.
    eexists. split; [reflexivity|]. intros _ H. discriminate H. }
  cbn [recorded driver.RuleAdd fst snd option_list].
  destruct (driver.RuleAdd w nh rule) as [w' [e|]]; cbn [fst snd];
    [destruct (negb (errors.IsErrno e errors.EEXIST))|]; cbn [fst snd neighAdds routeAdds ruleAdds].
  - repeat split. eexists. split; [reflexivity|]. intros H. discriminate H.
  - repeat split. exists []. split; [now rewrite app_nil_r|]. intros H. discriminate H.
  - repeat split. exists []. split; [now rewrite app_nil_r|]. intros H. discriminate H.
Qed.

Lemma applyRules_recorded (path : string) (nh : driver.Handle)
    (rulesConfig : list apis.RuleConfig) :
  forall (w : W) (log : Log) (errs : list error),
    let st := fold_left (@driver.applyRule net _ (recorded kernel) path nh)
                        rulesConfig ((w, log), errs) in
    ruleAdds (snd (fst st)) = ruleAdds log ++ omap ruleFor rulesConfig
    /\ routeAdds (snd (fst st)) = routeAdds log
    /\ neighAdds (snd (fst st)) = neighAdds log
    /\ (exists more,
          snd st = errs ++ more
          /\ ((exists ruleCfg, In ruleCfg rulesConfig /\ ruleFor ruleCfg = None) -> more <> [])).
Proof.
  induction rulesConfig as [|ruleCfg rest IH]; intros w log errs; cbn [fold_left].
  - cbn. rewrite app_nil_r. repeat split. exists []. split; [now rewrite app_nil_r|].
    intros (? & [] & _).
  - pose proof (applyRule_recorded path nh w log errs ruleCfg) as Hstep.
    cbn zeta in Hstep.
    destruct (@driver.applyRule net _ (recorded kernel) path nh (w, log, errs) ruleCfg)
      as [[w1 log1] errs1].
    cbn [fst snd] in Hstep. destruct Hstep as (Hu & Hr & Hn & more1 & -> & Hmore1).
    specialize (IH w1 log1 (errs ++ more1)). cbn zeta in IH.
    destruct IH as (IHu & IHr & IHn & more & IHe & Hmore).
    rewrite IHn, IHr, IHu, Hn, Hr, Hu, IHe. repeat split.
    + rewrite <- app_assoc. f_equal. cbn. now destruct (ruleFor ruleCfg).
    + exists (more1 ++ more). split; [now rewrite app_assoc|].
      intros (bad & [<-|Hin] & Hbad) Hnil; apply app_nil in Hnil as [H1 H2].
      * now apply Hmore1.
      * apply Hmore; [now exists bad | exact H2].
Qed.

(** X21. [applyRulesConfig] asks the kernel for one rule for every
    configured rule whose prefixes can be read, in the order of the
    configuration and whatever the kernel answered before; a rule with a
    source or a destination that is no prefix is never handed to the kernel
    and makes the result an error. *)
Theorem applyRulesConfig_calls (path : string) (rulesConfig : list apis.RuleConfig)
    (w : W) (log : Log) :
  let result := @driver.applyRulesConfig net _ (recorded kernel) path rulesConfig (w, log) in
  ruleAdds (snd (fst result))
  = ruleAdds log
    ++ match handleAt w path with
       | Some _ => omap ruleFor rulesConfig
       | None => []
       end
  /\ routeAdds (snd (fst result)) = routeAdds log
  /\ neighAdds (snd (fst result)) = neighAdds log
  /\ (forall ruleCfg,
        is_Some (handleAt w path) -> In ruleCfg rulesConfig -> ruleFor ruleCfg = None ->
        is_Some (snd result)).
Proof.
  cbn zeta. unfold driver.applyRulesConfig, handleAt.
  cbn [recorded driver.GetFromPath driver.NewHandleAt fst].
  destruct (driver.GetFromPath w path) as [e|ns];
    [cbn; rewrite app_nil_r; repeat split; intros ? [? H]; discriminate H|].
  destruct (driver.NewHandleAt w ns) as [e|nh];
    [cbn; rewrite app_nil_r; repeat split; intros ? [? H]; discriminate H|].
  pose proof (applyRules_recorded path nh rulesConfig w log []) as H.
  cbn zeta in H. destruct (fold_left _ _ _) as [[w' log'] errs].
  cbn [fst snd] in H |- *. destruct H as (Hu & Hr & Hn & more & -> & Hmore).
  repeat split; try assumption.
  intros ruleCfg _ Hin Hbad. cbn [app].
  destruct more as [|m rest]; [|now eexists].
  exfalso. apply Hmore; [now exists ruleCfg | reflexivity].
Qed.

Lemma applyRoute_recorded (path ifName : string) (nh : driver.Handle) (nsLink : Z)
    (w : W) (log : Log) (errs : list error) (route : apis.RouteConfig) :
  let st := @driver.applyRoute net _ (recorded kernel) path ifName nh nsLink ((w, log), errs)
              route in
  (exists added,
     routeAdds (snd (fst st)) = routeAdds log ++ added
     /\ added `sublist_of` option_list (routeFor nsLink route))
  /\ neighAdds (snd (fst st)) = neighAdds log
  /\ ruleAdds (snd (fst st)) = ruleAdds log
  /\ (exists more, snd st = errs ++ more /\ (routeFor nsLink route = None -> more <> [])).
Proof.
  cbn zeta. unfold driver.applyRoute, routeFor.
  destruct (ParseCIDR (apis.Destination route)) as [e|[ip dst]].
  { cbn [fst snd option_list]. repeat split.
    - exists []. now rewrite app_nil_r.
    - eexists. split; [reflexivity|]. intros _ H. discriminate H. }
  cbn [recorded driver.RouteList driver.RouteAdd fst snd option_list].
  destruct (driver.RouteList w nh nsLink) as [e|existing].
  { cbn [fst snd]. repeat split.
    - exists []. rewrite app_nil_r. split; [reflexivity | apply sublist_nil_l].
    - eexists. split; [reflexivity|]. intros H. discriminate H. }
  destruct (existsb _ existing).
  { cbn [fst snd]. repeat split.
    - exists []. rewrite app_nil_r. split; [reflexivity | apply sublist_nil_l].
    - exists []. split; [now rewrite app_nil_r|]. intros H. discriminate H. }
  destruct (driver.RouteAdd w nh _) as [w' [e|]]; cbn [fst snd];
    [destruct (negb (errors.IsErrno e errors.EEXIST))|]; cbn [fst snd neighAdds routeAdds ruleAdds].
  - repeat split; [now eexists|]. eexists. split; [reflexivity|]. intros H. discriminate H.
  - repeat split; [now eexists|]. exists []. split; [now rewrite app_nil_r|].
    intros H. discriminate H.
  - repeat split; [now eexists|]. exists []. split; [now rewrite app_nil_r|].
    intros H. discriminate H.
Qed.

Lemma applyRoutes_recorded (path ifName : string) (nh : driver.Handle) (nsLink : Z)
    (routes : list apis.RouteConfig) :
  forall (w : W) (log : Log) (errs : list error),
    let st := fold_left (@driver.applyRoute net _ (recorded kernel) path ifName nh nsLink)
                        routes ((w, log), errs) in
    (exists added,
       routeAdds (snd (fst st)) = routeAdds log ++ added
       /\ added `sublist_of` omap (routeFor nsLink) routes)
    /\ neighAdds (snd (fst st)) = neighAdds log
    /\ ruleAdds (snd (fst st)) = ruleAdds log
    /\ (exists more,
          snd st = errs ++ more
          /\ ((exists route, In route routes /\ routeFor nsLink route = None) -> more <> [])).
Proof.
  induction routes as [|route rest IH]; intros w log errs; cbn [fold_left].
  - cbn. repeat split.
    + exists []. now rewrite app_nil_r.
    + exists []. split; [now rewrite app_nil_r|]. intros (? & [] & _).
  - pose proof (applyRoute_recorded path ifName nh nsLink w log errs route) as Hstep.
    cbn zeta in Hstep.
    destruct (@driver.applyRoute net _ (recorded kernel) path ifName nh nsLink (w, log, errs) route)
      as [[w1 log1] errs1].
    cbn [fst snd] in Hstep.
    destruct Hstep as ((added1 & Hr & Hsub1) & Hn & Hu & more1 & -> & Hmore1).
    specialize (IH w1 log1 (errs ++ more1)). cbn zeta in IH.
    destruct IH as ((added & IHr & Hsub) & IHn & IHu & more & IHe & Hmore).
    rewrite IHn, IHr, IHu, Hn, Hr, Hu, IHe. repeat split.
    + exists (added1 ++ added). split; [now rewrite app_assoc|].
      replace (omap (routeFor nsLink) (route :: rest))
        with (option_list (routeFor nsLink route) ++ omap (routeFor nsLink) rest)
        by (cbn; now destruct (routeFor nsLink route)).
      now apply sublist_app.
    + exists (more1 ++ more). split; [now rewrite app_assoc|].
      intros (bad & [<-|Hin] & Hbad) Hnil; apply app_nil in Hnil as [H1 H2].
      * now apply Hmore1.
      * apply Hmore; [now exists bad | exact H2].
Qed.

(** X22. [applyRoutingConfig] hands to the kernel only routes of the
    configuration whose destination is a prefix, on the link of the
    interface, each configured route at most once and in the order of the
    sorted configuration; a route whose destination is no prefix is never
    handed to the kernel and makes the result an error. Nothing is asked
    when the namespace, the handle or the link is missing. *)
Theorem applyRoutingConfig_calls (path ifName : string)
    (routeConfig : list apis.RouteConfig) (w : W) (log : Log) :
  let result := @driver.applyRoutingConfig net _ (recorded kernel) slices path ifName
                  routeConfig (w, log) in
  (exists added,
     routeAdds (snd (fst result)) = routeAdds log ++ added
     /\ added `sublist_of`
          match linkAt w path ifName with
          | Some nsLink =>
              omap (routeFor nsLink) (SortFunc routeConfig driver.byScopeDescending)
          | None => []
          end)
  /\ neighAdds (snd (fst result)) = neighAdds log
  /\ ruleAdds (snd (fst result)) = ruleAdds log
  /\ (forall nsLink route,
        linkAt w path ifName = Some nsLink -> In route routeConfig ->
        routeFor nsLink route = None -> is_Some (snd result)).
Proof.
  cbn zeta. unfold driver.applyRoutingConfig, linkAt.
  cbn [recorded driver.GetFromPath driver.NewHandleAt driver.LinkByName fst].
  destruct (driver.GetFromPath w path) as [e|ns];
    [cbn; repeat split; [exists []; now rewrite app_nil_r | intros ? ? H; discriminate H]|].
  destruct (driver.NewHandleAt w ns) as [e|nh];
    [cbn; repeat split; [exists []; now rewrite app_nil_r | intros ? ? H; discriminate H]|].
  destruct (driver.LinkByName w nh ifName) as [e|nsLink];
    [cbn; repeat split; [exists []; now rewrite app_nil_r | intros ? ? H; discriminate H]|].
  pose proof (applyRoutes_recorded path ifName nh nsLink
                (SortFunc routeConfig driver.byScopeDescending) w log []) as H.
  cbn zeta in H. destruct (fold_left _ _ _) as [[w' log'] errs].
  cbn [fst snd] in H |- *. destruct H as (Hr & Hn & Hu & more & -> & Hmore).
  repeat split; try assumption.
  intros l route [= <-] Hin Hbad. cbn [app].
  destruct more as [|m rest]; [|now eexists].
  exfalso. apply Hmore; [|reflexivity]. exists route. split; [|exact Hbad].
  eapply Permutation_in; [symmetry; apply SortFunc_Permutation | exact Hin].
Qed.

End EffectorCallsProperties.

(** ** The other hooks of the runtime *)

Section HooksProperties.
Context {W : Type} {podStore : driver_hooks.Netdb W} {detach : driver_hooks.Detach W}.
Import driver driver_hooks.

(** X23. [Synchronize] hands to [AddPodNetns] exactly the pods of the list
    that have a network namespace, in the order of the list, each under its
    key namespace/name with the path of its namespace; a host-network pod is
    never recorded. *)
Theorem Synchronize_records (pods : list PodSandbox) (w : W) (log : list HookCall) :
  snd (@Synchronize _ (recordedNetdb podStore) pods (w, log))
  = log ++ map (fun pod => AddedPodNetns (PodNamespace pod +:+ "/" +:+ PodName pod)
                                         (getNetworkNamespace pod))
               (withNetworkNamespace pods).
Proof.
  unfold Synchronize, withNetworkNamespace. revert w log.
  induction pods as [|pod rest IH]; intros w log; cbn [fold_left].
  - cbn. now rewrite app_nil_r.
  - rewrite filter_cons.
    destruct (String.eqb_spec (getNetworkNamespace pod) EmptyString) as [Heq|Hne]; cbn [negb].
    + rewrite decide_False by (intros H; now apply H). apply IH.
    + rewrite decide_True by exact Hne. cbn [recordedNetdb AddPodNetns fst snd].
      rewrite IH. cbn [map]. now rewrite <- app_assoc.
Qed.

Lemma detachResults_recorded (np : NetworkDriver) (ns : string)
    (results : list DeviceRequestAllocationResult) :
  forall (w : W) (log : list HookCall),
    snd (fold_left (@detachResult _ (recordedDetach detach) np ns) results (w, log))
    = log ++ map (fun r => DetachedNetdev ns (Device r))
                 (filter (fun result => Driver result = driverName np) results).
Proof.
  induction results as [|r rest IH]; intros w log; cbn [fold_left].
  - cbn. now rewrite app_nil_r.
  - rewrite filter_cons. unfold detachResult at 2.
    destruct (String.eqb_spec (Driver r) (driverName np)) as [Heq|Hne]; cbn [negb].
    + rewrite decide_True by exact Heq. cbn [recordedDetach nsDetachNetdev fst snd].
      destruct (nsDetachNetdev w ns (Device r)) as [w' e]. cbn [fst].
      rewrite IH. cbn [map]. now rewrite <- app_assoc.
    + rewrite decide_False by exact Hne. apply IH.
Qed.

Lemma detachClaims_recorded (np : NetworkDriver) (ns : string) (objs : list Obj) :
  forall (w : W) (log : list HookCall),
    snd (@detachClaims _ (recordedDetach detach) np ns (w, log) objs)
    = log ++ map (fun r => DetachedNetdev ns (Device r)) (ownResults np objs).
Proof.
  unfold ownResults.
  induction objs as [|obj rest IH]; intros w log; cbn [detachClaims].
  - cbn. now rewrite app_nil_r.
  - unfold podResults. cbn [flat_map]. fold (podResults rest).
    rewrite filter_app, map_app.
    destruct obj as [claim|]; [|cbn [app filter map]; apply IH].
    destruct (Allocation claim) as [allocation|]; [|cbn [app filter map]; apply IH].
    pose proof (detachResults_recorded np ns (Results allocation) w log) as Hres.
    destruct (fold_left _ (Results allocation) (w, log)) as [w1 log1].
    cbn [snd] in Hres. rewrite IH, Hres. now rewrite <- app_assoc.
Qed.

(** X24. [StopPodSandbox] never returns an error. For a pod with claims and
    a network namespace it asks for the move back of every device that the
    driver itself was allocated, in the order of the results and whatever
    the moves before answered; for any other pod it asks for none. On every
    way out it then asks the database once to forget the pod, under its key
    namespace/name; it never asks the database to record a pod. *)
Theorem StopPodSandbox_calls (np : NetworkDriver) (pod : PodSandbox) (w : W)
    (log : list HookCall) :
  let result := @StopPodSandbox _ (recordedNetdb podStore) (recordedDetach detach) np pod
                  (w, log) in
  snd result = None
  /\ snd (fst result)
     = log ++ match claimAllocations np (Uid pod) with
              | inr objs =>
                  if String.eqb (getNetworkNamespace pod) EmptyString then []
                  else map (fun r => DetachedNetdev (getNetworkNamespace pod) (Device r))
                           (ownResults np objs)
              | inl _ => []
              end
           ++ [RemovedPodNetns (PodNamespace pod +:+ "/" +:+ PodName pod)].
Proof.
  cbn zeta. unfold StopPodSandbox.
  destruct (claimAllocations np (Uid pod)) as [e|objs];
    cbn [fst snd recordedNetdb RemovePodNetns app].
  { now split. }
  destruct objs as [|obj rest] eqn:Hobjs; cbn [length Nat.eqb fst snd app].
  { split; [reflexivity|]. now destruct (String.eqb _ _). }
  rewrite <- Hobjs. destruct (String.eqb (getNetworkNamespace pod) EmptyString);
    cbn [fst snd app].
  { now split. }
  split; [reflexivity|]. rewrite detachClaims_recorded. now rewrite <- app_assoc.
Qed.

End HooksProperties.

(** ** [RunPodSandbox]: what is moved *)

Section RunPodSandboxMoves.
Context {net : NetLib} {W : Type} {kernel : driver.Kernel W}.
Import driver.

Abbreviation Log := (Calls IP IPNet HardwareAddr).

Lemma nsAttachRdmadev_recorded (rdmaDev ns : string) (w : W) (log : Log) :
  netdevMoves (snd (fst (@nsAttachRdmadev net _ (recorded kernel) rdmaDev ns (w, log))))
  = netdevMoves log.
Proof.
  unfold nsAttachRdmadev. cbn [recorded GetFromPath RdmaLinkByName RdmaLinkSetNsFd fst snd].
  destruct (GetFromPath w ns) as [e|containerNs]; [reflexivity|].
  destruct (RdmaLinkByName w rdmaDev) as [e|hostDev]; [reflexivity|].
  destruct (RdmaLinkSetNsFd w hostDev containerNs) as [w' [e|]]; reflexivity.
Qed.

Lemma attachResult_recorded (np : NetworkDriver) (ns : string) (w : W) (log : Log)
    (result : DeviceRequestAllocationResult) :
  exists moved,
    netdevMoves (snd (fst (@attachResult net _ (recorded kernel) np ns (w, log) result)))
    = netdevMoves log ++ moved
    /\ moved `sublist_of`
         map (fun r => (Device r, ns, Device r))
             (filter (fun r => Driver r = driverName np) [result]).
Proof.
  unfold attachResult. rewrite filter_cons, filter_nil.
  destruct (String.eqb_spec (Driver result) (driverName np)) as [Heq|Hne]; cbn [negb].
  2:{ exists []. rewrite app_nil_r. split; [reflexivity | apply sublist_nil_l]. }
  rewrite decide_True by exact Heq. cbn [map].
  cbn [recorded GetRdmaDeviceForNetdevice fst].
  destruct (negb (String.eqb (GetRdmaDeviceForNetdevice w (Device result)) EmptyString)).
  - pose proof (nsAttachRdmadev_recorded (GetRdmaDeviceForNetdevice w (Device result)) ns w log)
      as Hrdma.
    destruct (@nsAttachRdmadev net _ (recorded kernel) _ ns (w, log)) as [[w1 log1] [e|]];
      cbn [fst snd] in Hrdma |- *.
    + exists []. rewrite app_nil_r. split; [exact Hrdma | apply sublist_nil_l].
    + cbn [recorded nsAttachNetdev fst snd].
      destruct (nsAttachNetdev w1 (Device result) ns (Device result)) as [w2 e].
      cbn [fst snd netdevMoves]. rewrite Hrdma. now eexists.
  - cbn [recorded nsAttachNetdev fst snd].
    destruct (nsAttachNetdev w (Device result) ns (Device result)) as [w2 e].
    cbn [fst snd netdevMoves]. now eexists.
Qed.

Lemma attachResults_recorded (np : NetworkDriver) (ns : string)
    (results : list DeviceRequestAllocationResult) :
  forall (w : W) (log : Log),
    exists moved,
      netdevMoves (snd (fst (@attachResults net _ (recorded kernel) np ns (w, log) results)))
      = netdevMoves log ++ moved
      /\ moved `sublist_of`
           map (fun r => (Device r, ns, Device r))
               (filter (fun r => Driver r = driverName np) results).
Proof.
  induction results as [|r rest IH]; intros w log; cbn [attachResults].
  - exists []. rewrite app_nil_r. split; [reflexivity | apply sublist_nil_l].
  - destruct (attachResult_recorded np ns w log r) as (moved1 & H1 & Hsub1).
    change (r :: rest) with ([r] ++ rest). rewrite filter_app, map_app.
    destruct (@attachResult net _ (recorded kernel) np ns (w, log) r) as [[w1 log1] [e|]];
      cbn [fst snd] in H1 |- *.
    + exists moved1. split; [exact H1|]. now apply sublist_inserts_r.
    + destruct (IH w1 log1) as (moved & H & Hsub).
      exists (moved1 ++ moved). split; [now rewrite H, H1, app_assoc|].
      now apply sublist_app.
Qed.

(** X25. [RunPodSandbox] moves only interfaces of devices that the driver
    itself was allocated for the pod, into the network namespace of the pod
    and under the name they have on the host, in the order of the results;
    for a pod without network namespace or without claims it moves none. *)
Theorem RunPodSandbox_moves (np : NetworkDriver) (pod : PodSandbox) (w : W) (log : Log) :
  let result := @RunPodSandbox net _ (recorded kernel) np pod (w, log) in
  exists moved,
    netdevMoves (snd (fst (fst result))) = netdevMoves log ++ moved
    /\ moved `sublist_of`
         match claimAllocations np (Uid pod) with
         | inr objs =>
             if String.eqb (getNetworkNamespace pod) EmptyString then []
             else map (fun r => (Device r, getNetworkNamespace pod, Device r))
                      (ownResults np objs)
         | inl _ => []
         end.
Proof.
  cbn zeta. unfold RunPodSandbox.
  destruct (claimAllocations np (Uid pod)) as [e|objs]; cbn [fst snd].
  { exists []. rewrite app_nil_r. split; [reflexivity | apply sublist_nil_l]. }
  destruct (Nat.eqb (length objs) 0); cbn [fst snd].
  { exists []. rewrite app_nil_r. split; [reflexivity | apply sublist_nil_l]. }
  destruct (String.eqb (getNetworkNamespace pod) EmptyString); cbn [fst snd].
  { exists []. rewrite app_nil_r. split; [reflexivity | apply sublist_nil_l]. }
  rewrite attachClaims_podResults.
  set (np' := mkNetworkDriver _ _ _).
  destruct (attachResults_recorded np' (getNetworkNamespace pod) (podResults objs) w log)
    as (moved & H & Hsub).
  destruct (@attachResults net _ (recorded kernel) np' _ (w, log) (podResults objs))
    as [[w' log'] e]. cbn [fst snd] in H |- *.
  exists moved. split; [exact H | exact Hsub].
Qed.

(** X26. When the RDMA device of a result cannot be moved, [RunPodSandbox]
    goes on with the results after it from the world that the failed move
    left: the network interface of the result is not moved and the error is
    not returned. *)
Theorem RunPodSandbox_rdma_failure (np : NetworkDriver) (pod : PodSandbox) (w w1 w2 : W)
    (objs : list Obj) (pre post : list DeviceRequestAllocationResult)
    (result : DeviceRequestAllocationResult) (err : error) :
  claimAllocations np (Uid pod) = inr objs ->
  getNetworkNamespace pod <> EmptyString ->
  podResults objs = pre ++ result :: post ->
  attachResults np (getNetworkNamespace pod) w pre = (w1, None) ->
  Driver result = driverName np ->
  GetRdmaDeviceForNetdevice w1 (Device result) <> EmptyString ->
  nsAttachRdmadev (GetRdmaDeviceForNetdevice w1 (Device result)) (getNetworkNamespace pod) w1
  = (w2, Some err) ->
  attachResult np (getNetworkNamespace pod) w1 result = (w2, None)
  /\ fst (fst (RunPodSandbox np pod w))
     = fst (attachResults np (getNetworkNamespace pod) w2 post)
  /\ snd (RunPodSandbox np pod w)
     = snd (attachResults np (getNetworkNamespace pod) w2 post).
Proof.
  intros Hobjs Hns Hres Hpre Hown Hdev Hrdma.
  assert (attachResult np (getNetworkNamespace pod) w1 result = (w2, None)) as Hstep.
  { unfold attachResult. rewrite Hown, String.eqb_refl. cbn [negb].
    apply String.eqb_neq in Hdev. rewrite Hdev. cbn [negb]. now rewrite Hrdma. }
  split; [exact Hstep|].
  unfold RunPodSandbox. rewrite Hobjs.
  destruct objs as [|obj rest] eqn:Hobj; [destruct pre; discriminate Hres|].
  cbn [length Nat.eqb]. apply String.eqb_neq in Hns. rewrite Hns.
  rewrite attachClaims_podResults.
  rewrite (attachResults_driverName np) by reflexivity.
  rewrite Hres, attachResults_app, Hpre. cbn [attachResults]. rewrite Hstep.
  destruct (attachResults np (getNetworkNamespace pod) w2 post) as [w' e]. now split.
Qed.

End RunPodSandboxMoves.

Section MoreExamples.

Lemma ValidateConfig_accepts_iff_witness :
  fst (@apis.ValidateConfig ipv4.lib decoders.json (payload linkScopePayload))
  = Some linkScopeConfig
  /\ (snd (@apis.ValidateConfig ipv4.lib decoders.json (payload linkScopePayload)) = None
      <-> (forall ip, In ip (apis.Addresses (apis.Interface linkScopeConfig)) ->
             @ParsePrefix ipv4.lib ip = true)
          /\ forall route, In route (apis.Routes linkScopeConfig) ->
               ~ @invalidRoute ipv4.lib route).
Proof.
  apply (@ValidateConfig_accepts_iff ipv4.lib decoders.json (quoted linkScopePayload)
           linkScopeConfig).
  - intros H. vm_compute in H. discriminate H.
  - vm_compute. reflexivity.
Defined.

Lemma legacy_ValidateConfig_accepts_iff_witness :
  fst (@driverconfig.ValidateConfig ipv4.lib decoders.yaml (payload legacyRoutePayload))
  = Some legacyRouteConfig
  /\ (snd (@driverconfig.ValidateConfig ipv4.lib decoders.yaml (payload legacyRoutePayload))
      = None
      <-> (forall ip, In ip (driverconfig.IPs legacyRouteConfig) ->
             @ParsePrefix ipv4.lib ip = true)
          /\ forall route, In route (driverconfig.Routes legacyRouteConfig) ->
               @legacyValidRoute ipv4.lib route).
Proof.
  apply (@legacy_ValidateConfig_accepts_iff ipv4.lib decoders.yaml (quoted legacyRoutePayload)
           legacyRouteConfig).
  - intros H. vm_compute in H. discriminate H.
  - vm_compute. reflexivity.
Defined.

Lemma ValidateConfig_reports_all_witness :
  exists e,
    snd (@apis.ValidateConfig ipv4.lib decoders.json (payload emptyDestinationPayload)) = Some e
    /\ strings.Contains (errors.Error e) "route 0: destination cannot be empty".
Proof.
  destruct (snd (@apis.ValidateConfig ipv4.lib decoders.json (payload emptyDestinationPayload)))
    as [e|] eqn:He.
  2:{ vm_compute in He. discriminate He. }
  exists e. split; [reflexivity|].
  assert (quoted emptyDestinationPayload <> EmptyString) as Hne.
  { intros H. vm_compute in H. discriminate H. }
  assert (@apis.UnmarshalStrict decoders.json (quoted emptyDestinationPayload)
            apis.zeroNetworkConfig = ([], None, emptyDestinationConfig)) as Hdec.
  { vm_compute. reflexivity. }
  destruct (@ValidateConfig_reports_all ipv4.lib decoders.json (quoted emptyDestinationPayload)
              emptyDestinationConfig e Hne Hdec He) as (_ & _ & H).
  exact (H 0%nat (apis.mkRouteConfig EmptyString "192.168.1.1" EmptyString 0 0)
           eq_refl eq_refl).
Defined.

(** The namespace of the pod does not open: the RDMA device of [eth2] is
    not moved, [eth2] stays on the host, and [RunPodSandbox] returns nil. *)
Lemma RunPodSandbox_rdma_failure_witness :
  fst (fst (@driver.RunPodSandbox ipv4.lib _ simkernel.kernel sample_rdma.networkDriver
              sample_rdma.pod sample_rdma.host)) = sample_rdma.host
  /\ snd (@driver.RunPodSandbox ipv4.lib _ simkernel.kernel sample_rdma.networkDriver
            sample_rdma.pod sample_rdma.host) = None.
Proof.
  refine (proj2 (@RunPodSandbox_rdma_failure ipv4.lib simkernel.World simkernel.kernel
           sample_rdma.networkDriver sample_rdma.pod sample_rdma.host sample_rdma.host
           sample_rdma.host sample_rdma.oneDevice [] []
           (driver.mkResult "nic-a" "dra.net" "node" "eth2")
           (errors.Wrap "could not get network namespace from path /proc/404/ns/net for network device mlx5_0 : "
              (errors.Errno errors.ENOENT) EmptyString)
           eq_refl _ eq_refl eq_refl eq_refl _ _)).
  - intros H. vm_compute in H. discriminate H.
  - intros H. vm_compute in H. discriminate H.
  - vm_compute. reflexivity.
Defined.

End MoreExamples.

(** ** The cache of the prepared claims *)

Section ClaimCache.
Import driver_claims.
Context (Sprint : Object -> string).

Lemma podUIDs_fold (uid : string) (refs : list ResourceClaimConsumerReference) :
  forall acc : list string,
    uid ∈ fold_left (fun result reserved =>
                       if negb (String.eqb (Resource reserved) "pods")
                          || negb (String.eqb (APIGroup reserved) EmptyString)
                       then result
                       else result ++ [RefUID reserved])
                    refs acc
    <-> uid ∈ acc
        \/ exists reserved,
             In reserved refs /\ Resource reserved = "pods"
             /\ APIGroup reserved = EmptyString /\ RefUID reserved = uid.
Proof.
  induction refs as [|r rest IH]; intros acc; cbn [fold_left].
  - split; [now left | intros [H|(r & [] & _)]; exact H].
  - rewrite IH. clear IH.
    destruct (String.eqb_spec (Resource r) "pods") as [Hres|Hres]; cbn [negb orb].
    + destruct (String.eqb_spec (APIGroup r) EmptyString) as [Hgrp|Hgrp]; cbn [negb].
      * rewrite elem_of_app, list_elem_of_singleton. split.
        -- intros [[H|H]|(x & Hin & Hx)].
           ++ now left.
           ++ right. exists r. split; [now left|]. now repeat split.
           ++ right. exists x. split; [now right | exact Hx].
        -- intros [H|(x & [<-|Hin] & Hx)].
           ++ left. now left.
           ++ left. right. symmetry. apply Hx.
           ++ right. now exists x.
      * split.
        -- intros [H|(x & Hin & Hx)]; [now left|]. right. exists x. split; [now right|exact Hx].
        -- intros [H|(x & [<-|Hin] & Hx)]; [now left| |right; now exists x].
           destruct Hx as (_ & Hx & _). contradiction.
    + split.
      * intros [H|(x & Hin & Hx)]; [now left|]. right. exists x. split; [now right|exact Hx].
      * intros [H|(x & [<-|Hin] & Hx)]; [now left| |right; now exists x].
        destruct Hx as (Hx & _). contradiction.
Qed.

Lemma podUIDIndexFunc_elem (uid : string) (claim : ReservedClaim) :
  uid ∈ podUIDIndexFunc (ClaimObject claim) <-> reservedForPod uid claim.
Proof.
  unfold podUIDIndexFunc, reservedForPod. rewrite podUIDs_fold. split.
  - intros [H|H]; [now apply elem_of_nil in H | exact H].
  - intros H. now right.
Qed.

Lemma ByIndex_elem (c : cache.Indexer Object) (indexName : string)
    (indexFunc : cache.IndexFunc Object) (v : string) :
  cache.indexers c !! indexName = Some indexFunc ->
  exists objs,
    cache.ByIndex c indexName v = inr objs
    /\ forall obj, obj ∈ objs
                   <-> v ∈ indexFunc obj /\ exists key, cache.items c !! key = Some obj.
Proof.
  intros Hi. unfold cache.ByIndex. unfold cache.IndexFunc in *. rewrite Hi.
  eexists. split; [reflexivity|].
  intros obj. rewrite list_elem_of_filter, list_elem_of_fmap. split.
  - intros [Hv ([key obj'] & -> & Hin)]. split; [exact Hv|].
    exists key. now apply elem_of_map_to_list in Hin.
  - intros [Hv (key & Hk)]. split; [exact Hv|].
    exists (key, obj). split; [reflexivity|]. now apply elem_of_map_to_list.
Qed.

Lemma newStore_podUIDIndex :
  cache.indexers newStore !! podUIDIndex = Some podUIDIndexFunc.
Proof.
  unfold newStore, cache.NewIndexer. cbn [cache.indexers].
  rewrite lookup_insert_ne by discriminate. now rewrite lookup_insert, decide_True.
Qed.

Lemma newStore_NamespaceIndex :
  cache.indexers newStore !! cache.NamespaceIndex = Some MetaNamespaceIndexFunc.
Proof.
  unfold newStore, cache.NewIndexer. cbn [cache.indexers].
  now rewrite lookup_insert, decide_True.
Qed.

Lemma keyOf_key (obj : Object) : MetaNamespaceKeyFunc obj = inr (keyOf obj).
Proof. reflexivity. Qed.

Lemma Add_storeOfDriver (c : cache.Indexer Object) (obj : Object) :
  storeOfDriver c ->
  cache.Add Sprint c obj
  = (cache.mkIndexer (cache.keyFunc c) (cache.indexers c) (<[keyOf obj := obj]> (cache.items c)),
     None)
  /\ storeOfDriver (fst (cache.Add Sprint c obj)).
Proof.
  intros (Hk & Hi & Hw). unfold cache.Add. rewrite Hk, keyOf_key. split; [reflexivity|].
  cbn [fst]. split; [reflexivity|]. split; [exact Hi|].
  intros key o. cbn [cache.items]. rewrite lookup_insert.
  destruct (decide (keyOf obj = key)) as [<-|Hne].
  - intros [= <-]. apply keyOf_key.
  - apply Hw.
Qed.

Lemma prepareResourceClaim_store (np : ClaimDriver) (claim : ReservedClaim) :
  storeOfDriver (claimCache np) ->
  storeOfDriver (claimCache (fst (prepareResourceClaim Sprint np claim)))
  /\ cache.items (claimCache (fst (prepareResourceClaim Sprint np claim)))
     = <[keyOf (ClaimObject claim) := ClaimObject claim]> (cache.items (claimCache np)).
Proof.
  intros Hs. destruct (Add_storeOfDriver (claimCache np) (ClaimObject claim) Hs) as [Hadd Hs'].
  unfold prepareResourceClaim. rewrite Hadd in Hs' |- *. cbn [fst] in Hs'.
  destruct (driver.Allocation (Claim claim)); cbn [fst claimCache]; now split.
Qed.

Lemma claimsOfPod_reserved (np : ClaimDriver) (claim : ReservedClaim) (uid : string) :
  storeOfDriver (claimCache np) ->
  cache.items (claimCache np) !! keyOf (ClaimObject claim) = Some (ClaimObject claim) ->
  reservedForPod uid claim ->
  exists objs, claimsOfPod np uid = inr objs /\ In (driver.ClaimObj (Claim claim)) objs.
Proof.
  intros (Hk & Hi & Hw) Hin Hres. unfold claimsOfPod.
  destruct (ByIndex_elem (claimCache np) podUIDIndex podUIDIndexFunc uid) as (objs & -> & Hobjs).
  { rewrite Hi. apply newStore_podUIDIndex. }
  eexists. split; [reflexivity|].
  apply in_map_iff. exists (ClaimObject claim). split; [reflexivity|].
  apply list_elem_of_In, Hobjs. split; [now apply podUIDIndexFunc_elem|].
  now exists (keyOf (ClaimObject claim)).
Qed.

(** X27. A claim that was prepared is found by the lookup of the pod hooks
    for exactly the pods it is reserved for; it takes the place of an older
    claim with its namespace and name, and what is stored under other keys
    is found as before. The store stays a store of the driver. *)
Theorem prepareResourceClaim_found_by_pod (np : ClaimDriver) (claim : ReservedClaim)
    (uid : string) :
  storeOfDriver (claimCache np) ->
  let np' := fst (prepareResourceClaim Sprint np claim) in
  storeOfDriver (claimCache np')
  /\ (exists objs,
        cache.ByIndex (claimCache np') podUIDIndex uid = inr objs
        /\ forall obj,
             obj ∈ objs
             <-> (obj = ClaimObject claim /\ reservedForPod uid claim)
                 \/ (uid ∈ podUIDIndexFunc obj
                     /\ exists key, key <> keyOf (ClaimObject claim)
                                    /\ cache.items (claimCache np) !! key = Some obj))
  /\ (reservedForPod uid claim ->
      exists objs, claimsOfPod np' uid = inr objs /\ In (driver.ClaimObj (Claim claim)) objs).
Proof.
  intros Hs. cbn zeta. destruct (prepareResourceClaim_store np claim Hs) as [Hs' Hitems].
  split; [exact Hs'|]. split.
  - destruct Hs' as (_ & Hi & _).
    destruct (ByIndex_elem (claimCache (fst (prepareResourceClaim Sprint np claim)))
                podUIDIndex podUIDIndexFunc uid) as (objs & Hby & Hobjs).
    { rewrite Hi. apply newStore_podUIDIndex. }
    exists objs. split; [exact Hby|]. intros obj. rewrite Hobjs, Hitems. split.
    + intros [Hv (key & Hkey)]. rewrite lookup_insert in Hkey.
      destruct (decide (keyOf (ClaimObject claim) = key)) as [Heq|Hne].
      * injection Hkey as <-. left. split; [reflexivity|]. now apply podUIDIndexFunc_elem.
      * right. split; [exact Hv|]. exists key. split; [congruence | exact Hkey].
    + intros [[-> Hres]|[Hv (key & Hne & Hkey)]].
      * split; [now apply podUIDIndexFunc_elem|]. exists (keyOf (ClaimObject claim)).
        now rewrite lookup_insert, decide_True.
      * split; [exact Hv|]. exists key. now rewrite lookup_insert_ne by congruence.
  - apply claimsOfPod_reserved; [exact Hs'|].
    now rewrite Hitems, lookup_insert, decide_True.
Qed.

(** X28. [prepareResourceClaim] answers with one device for every result of
    the allocation, in their order and whatever driver the result names; on
    a claim without allocation it panics, after the claim was put into the
    cache. *)
Theorem prepareResourceClaim_devices (np : ClaimDriver) (claim : ReservedClaim) :
  storeOfDriver (claimCache np) ->
  (forall allocation,
     driver.Allocation (Claim claim) = Some allocation ->
     exists devices,
       snd (prepareResourceClaim Sprint np claim) = Some (mkPrepareResult devices None)
       /\ map DeviceName devices = map driver.Device (driver.Results allocation)
       /\ map PoolName devices = map driver.Pool (driver.Results allocation)
       /\ map DeviceRequests devices
          = map (fun result => [driver.Request result]) (driver.Results allocation))
  /\ (driver.Allocation (Claim claim) = None ->
      snd (prepareResourceClaim Sprint np claim) = None
      /\ cache.items (claimCache (fst (prepareResourceClaim Sprint np claim)))
           !! keyOf (ClaimObject claim) = Some (ClaimObject claim)).
Proof.
  intros Hs. destruct (prepareResourceClaim_store np claim Hs) as [_ Hitems].
  destruct (Add_storeOfDriver (claimCache np) (ClaimObject claim) Hs) as [Hadd _].
  split.
  - intros allocation Ha. unfold prepareResourceClaim. rewrite Hadd, Ha. cbn [snd].
    eexists. split; [reflexivity|]. rewrite !map_map. now repeat split.
  - intros Ha. split.
    + unfold prepareResourceClaim. now rewrite Hadd, Ha.
    + now rewrite Hitems, lookup_insert, decide_True.
Qed.

Lemma fold_Delete (l : list Object) :
  forall c : cache.Indexer Object,
    cache.keyFunc c = MetaNamespaceKeyFunc ->
    fold_left (fun store obj => fst (cache.Delete Sprint store obj)) l c
    = cache.mkIndexer (cache.keyFunc c) (cache.indexers c)
        (fold_left (fun m obj => delete (keyOf obj) m) l (cache.items c)).
Proof.
  induction l as [|obj rest IH]; intros c Hk; cbn [fold_left].
  - now destruct c.
  - assert (fst (cache.Delete Sprint c obj)
            = cache.mkIndexer (cache.keyFunc c) (cache.indexers c)
                (delete (keyOf obj) (cache.items c))) as ->.
    { unfold cache.Delete. rewrite Hk. reflexivity. }
    rewrite IH by exact Hk. reflexivity.
Qed.

Lemma fold_delete_lookup (l : list Object) (key : string) :
  forall m : gmap string Object,
    fold_left (fun m obj => delete (keyOf obj) m) l m !! key
    = if bool_decide (key ∈ map keyOf l) then None else m !! key.
Proof.
  induction l as [|obj rest IH]; intros m; cbn [fold_left map].
  - now rewrite bool_decide_eq_false_2 by apply not_elem_of_nil.
  - rewrite IH. destruct (bool_decide_reflect (key ∈ map keyOf rest)) as [Hin|Hnin].
    + now rewrite bool_decide_eq_true_2 by now apply list_elem_of_further.
    + rewrite lookup_delete. destruct (decide (keyOf obj = key)) as [<-|Hne].
      * now rewrite bool_decide_eq_true_2 by apply list_elem_of_here.
      * rewrite bool_decide_eq_false_2; [reflexivity|].
        intros [?|?]%elem_of_cons; congruence.
Qed.

Lemma append_neq_self (s t : string) : s <> s +:+ "/" +:+ t.
Proof.
  intros H. apply (f_equal String.length) in H.
  rewrite !append_length in H. cbn in H. lia.
Qed.

Lemma unprepareResourceClaim_items (np : ClaimDriver) (ref : NamespacedObject) :
  storeOfDriver (claimCache np) ->
  snd (unprepareResourceClaim Sprint np ref) = None
  /\ cache.keyFunc (claimCache (fst (unprepareResourceClaim Sprint np ref)))
     = cache.keyFunc (claimCache np)
  /\ cache.indexers (claimCache (fst (unprepareResourceClaim Sprint np ref)))
     = cache.indexers (claimCache np)
  /\ forall key,
       cache.items (claimCache (fst (unprepareResourceClaim Sprint np ref))) !! key
       = match cache.items (claimCache np) !! key with
         | Some obj =>
             if isClaim obj && String.eqb (GetNamespace obj) (Namespace ref +:+ "/" +:+ Name ref)
             then None else Some obj
         | None => None
         end.
Proof.
  intros (Hk & Hi & Hw). unfold unprepareResourceClaim.
  destruct (ByIndex_elem (claimCache np) cache.NamespaceIndex MetaNamespaceIndexFunc
              (Namespace ref +:+ "/" +:+ Name ref)) as (objs & -> & Hobjs).
  { rewrite Hi. apply newStore_NamespaceIndex. }
  assert (forall obj, obj ∈ objs
                      <-> GetNamespace obj = Namespace ref +:+ "/" +:+ Name ref
                          /\ cache.items (claimCache np) !! keyOf obj = Some obj) as Hobjs'.
  { intros obj. rewrite Hobjs. unfold MetaNamespaceIndexFunc. rewrite list_elem_of_singleton.
    split.
    - intros [Hv (key & Hkey)]. split; [now symmetry|].
      pose proof (Hw key obj Hkey) as Hkk. rewrite keyOf_key in Hkk. now injection Hkk as ->.
    - intros [Hv Hkey]. split; [now symmetry | now exists (keyOf obj)]. }
  clear Hobjs.
  assert (forall key,
            match cache.items (claimCache np) !! key with
            | Some obj =>
                if isClaim obj && String.eqb (GetNamespace obj) (Namespace ref +:+ "/" +:+ Name ref)
                then None else Some obj
            | None => None
            end
            = if bool_decide (key ∈ map keyOf (rev (filter (fun obj => isClaim obj = true) objs)))
              then None else cache.items (claimCache np) !! key) as Hchar.
  { intros key.
    destruct (bool_decide_reflect
                (key ∈ map keyOf (rev (filter (fun obj => isClaim obj = true) objs))))
      as [Hin|Hnin].
    - apply list_elem_of_In, in_map_iff in Hin as (obj & <- & Hin).
      apply in_rev, list_elem_of_In, list_elem_of_filter in Hin as [Hc Hin].
      apply Hobjs' in Hin as [Hv Hkey]. rewrite Hkey, Hc, Hv, String.eqb_refl. reflexivity.
    - destruct (cache.items (claimCache np) !! key) as [obj|] eqn:Hkey; [|reflexivity].
      destruct (isClaim obj) eqn:Hc; [|reflexivity]. cbn [andb].
      destruct (String.eqb_spec (GetNamespace obj) (Namespace ref +:+ "/" +:+ Name ref))
        as [Hv|Hv]; [|reflexivity].
      exfalso. apply Hnin. apply list_elem_of_In, in_map_iff. exists obj.
      pose proof (Hw key obj Hkey) as Hkk. rewrite keyOf_key in Hkk. injection Hkk as Hkk.
      split; [exact Hkk|]. apply in_rev. rewrite rev_involutive.
      apply list_elem_of_In, list_elem_of_filter. split; [exact Hc|].
      apply Hobjs'. split; [exact Hv|]. now rewrite Hkk. }
  destruct (Nat.eqb (length objs) 0) eqn:Hlen; cbn [fst snd claimCache].
  - split; [reflexivity|]. split; [reflexivity|]. split; [reflexivity|].
    intros key. rewrite Hchar. apply Nat.eqb_eq in Hlen. destruct objs; [|discriminate Hlen].
    now rewrite bool_decide_eq_false_2 by apply not_elem_of_nil.
  - rewrite fold_Delete by exact Hk. cbn [cache.keyFunc cache.indexers cache.items].
    split; [reflexivity|]. split; [reflexivity|]. split; [reflexivity|].
    intros key. now rewrite fold_delete_lookup, Hchar.
Qed.

Lemma unprepareResourceClaim_store (np : ClaimDriver) (ref : NamespacedObject) :
  storeOfDriver (claimCache np) ->
  storeOfDriver (claimCache (fst (unprepareResourceClaim Sprint np ref))).
Proof.
  intros Hs. destruct (unprepareResourceClaim_items np ref Hs) as (_ & Hk' & Hi' & Hitems).
  destruct Hs as (Hk & Hi & Hw).
  split; [now rewrite Hk'|]. split; [now rewrite Hi'|].
  intros key obj. rewrite Hitems.
  destruct (cache.items (claimCache np) !! key) as [o|] eqn:Hkey; [|intros H; discriminate H].
  destruct (_ && _); [intros H; discriminate H|]. intros [= <-]. now apply Hw.
Qed.

Lemma unprepareResourceClaim_same_namespace (np : ClaimDriver) (ref : NamespacedObject)
    (key : string) (obj : Object) :
  storeOfDriver (claimCache np) ->
  cache.items (claimCache np) !! key = Some obj ->
  GetNamespace obj = Namespace ref ->
  cache.items (claimCache (fst (unprepareResourceClaim Sprint np ref))) !! key = Some obj.
Proof.
  intros Hs Hkey Hns. destruct (unprepareResourceClaim_items np ref Hs) as (_ & _ & _ & Hitems).
  rewrite Hitems, Hkey, Hns.
  destruct (String.eqb_spec (Namespace ref) (Namespace ref +:+ "/" +:+ Name ref)) as [H|H].
  - now apply append_neq_self in H.
  - now rewrite andb_false_r.
Qed.

(** X29. [unprepareResourceClaim] returns nil and removes from the cache
    exactly the claims whose namespace is the text [namespace/name] of the
    reference; every other object stays, and nothing is added. A claim in
    the namespace of the reference, the claim that is unprepared among them,
    is never removed. *)
Theorem unprepareResourceClaim_removes (np : ClaimDriver) (ref : NamespacedObject) :
  storeOfDriver (claimCache np) ->
  let np' := fst (unprepareResourceClaim Sprint np ref) in
  snd (unprepareResourceClaim Sprint np ref) = None
  /\ storeOfDriver (claimCache np')
  /\ (forall key obj,
        cache.items (claimCache np') !! key = Some obj
        <-> cache.items (claimCache np) !! key = Some obj
            /\ ~ (isClaim obj = true
                  /\ GetNamespace obj = Namespace ref +:+ "/" +:+ Name ref))
  /\ (forall key obj,
        cache.items (claimCache np) !! key = Some obj ->
        GetNamespace obj = Namespace ref ->
        cache.items (claimCache np') !! key = Some obj).
Proof.
  intros Hs. cbn zeta.
  destruct (unprepareResourceClaim_items np ref Hs) as (Hret & _ & _ & Hitems).
  split; [exact Hret|]. split; [now apply unprepareResourceClaim_store|]. split.
  - intros key obj. rewrite Hitems.
    destruct (cache.items (claimCache np) !! key) as [o|];
      [|split; [intros H; discriminate H | intros [H _]; discriminate H]].
    destruct (isClaim o) eqn:Hc; cbn [andb].
    + destruct (String.eqb_spec (GetNamespace o) (Namespace ref +:+ "/" +:+ Name ref))
        as [Hv|Hv].
      * split; [intros H; discriminate H|]. intros [[= <-] Hn]. exfalso. now apply Hn.
      * split; [intros [= <-]; split; [reflexivity | now intros [_ H]] | now intros [H _]].
    + split; [intros [= <-]; split; [reflexivity|] | now intros [H _]].
      intros [H _]. congruence.
  - intros key obj. now apply unprepareResourceClaim_same_namespace.
Qed.

(** X30. A claim that was prepared and then unprepared is still in the
    cache, and the lookup of the pod hooks still finds it for the pods it is
    reserved for. *)
Theorem prepare_unprepare_keeps_claim (np : ClaimDriver) (claim : ReservedClaim) :
  storeOfDriver (claimCache np) ->
  let prepared := fst (prepareResourceClaim Sprint np claim) in
  let unprepared := fst (unprepareResourceClaim Sprint prepared (referenceTo claim)) in
  cache.items (claimCache unprepared) !! keyOf (ClaimObject claim) = Some (ClaimObject claim)
  /\ forall uid,
       reservedForPod uid claim ->
       exists objs,
         claimsOfPod unprepared uid = inr objs /\ In (driver.ClaimObj (Claim claim)) objs.
Proof.
  intros Hs. cbn zeta. destruct (prepareResourceClaim_store np claim Hs) as [Hs1 Hitems].
  assert (cache.items
            (claimCache (fst (unprepareResourceClaim Sprint
                                (fst (prepareResourceClaim Sprint np claim))
                                (referenceTo claim))))
            !! keyOf (ClaimObject claim) = Some (ClaimObject claim)) as Hkept.
  { apply unprepareResourceClaim_same_namespace; [exact Hs1| |reflexivity].
    now rewrite Hitems, lookup_insert, decide_True. }
  split; [exact Hkept|]. intros uid Hres.
  apply claimsOfPod_reserved; [|exact Hkept|exact Hres].
  now apply unprepareResourceClaim_store.
Qed.

End ClaimCache.

Section ClaimCacheExamples.
Import driver_claims.

Lemma newStore_storeOfDriver : storeOfDriver newStore.
Proof.
  split; [reflexivity|]. split; [reflexivity|].
  intros key obj H. cbn in H. rewrite lookup_empty in H. discriminate H.
Qed.

Lemma prepareResourceClaim_found_by_pod_witness :
  exists objs,
    claimsOfPod (fst (prepareResourceClaim sample_claims.Sprint sample_claims.networkDriver
                        sample_claims.nics)) "pod-uid" = inr objs
    /\ In (driver.ClaimObj (Claim sample_claims.nics)) objs.
Proof.
  refine (proj2 (proj2 (prepareResourceClaim_found_by_pod sample_claims.Sprint
                         sample_claims.networkDriver sample_claims.nics "pod-uid"
                         newStore_storeOfDriver)) _).
  eexists. split; [now left|]. now repeat split.
Defined.

Lemma prepareResourceClaim_devices_witness :
  exists devices,
    snd (prepareResourceClaim sample_claims.Sprint sample_claims.networkDriver
           sample_claims.nics) = Some (mkPrepareResult devices None)
    /\ map DeviceName devices = ["eth2"; "gpu0"].
Proof.
  destruct (proj1 (prepareResourceClaim_devices sample_claims.Sprint
                     sample_claims.networkDriver sample_claims.nics newStore_storeOfDriver)
              _ eq_refl) as (devices & Hres & Hnames & _).
  exists devices. split; [exact Hres | exact Hnames].
Defined.

(** [nics] and [stray] were prepared; then [nics] is unprepared: it stays in
    the cache and [stray] is removed. *)
Lemma unprepareResourceClaim_removes_witness :
  let prepared :=
    fst (prepareResourceClaim sample_claims.Sprint
           (fst (prepareResourceClaim sample_claims.Sprint sample_claims.networkDriver
                   sample_claims.nics))
           sample_claims.stray) in
  let unprepared :=
    fst (unprepareResourceClaim sample_claims.Sprint prepared
           (referenceTo sample_claims.nics)) in
  cache.items (claimCache prepared) !! "default/nics"
  = Some (ClaimObject sample_claims.nics)
  /\ cache.items (claimCache prepared) !! "default/nics/stray"
     = Some (ClaimObject sample_claims.stray)
  /\ snd (unprepareResourceClaim sample_claims.Sprint prepared
            (referenceTo sample_claims.nics)) = None
  /\ cache.items (claimCache unprepared) !! "default/nics"
     = Some (ClaimObject sample_claims.nics)
  /\ cache.items (claimCache unprepared) !! "default/nics/stray" = None.
Proof.
  cbn zeta.
  set (prepared :=
         fst (prepareResourceClaim sample_claims.Sprint
                (fst (prepareResourceClaim sample_claims.Sprint
                        sample_claims.networkDriver sample_claims.nics))
                sample_claims.stray)).
  assert (storeOfDriver (claimCache prepared)) as Hstore.
  { apply prepareResourceClaim_store, prepareResourceClaim_store, newStore_storeOfDriver. }
  assert (cache.items (claimCache prepared) !! "default/nics"
          = Some (ClaimObject sample_claims.nics)) as Hnics by (vm_compute; reflexivity).
  assert (cache.items (claimCache prepared) !! "default/nics/stray"
          = Some (ClaimObject sample_claims.stray)) as Hstray by (vm_compute; reflexivity).
  destruct (unprepareResourceClaim_removes sample_claims.Sprint prepared
              (referenceTo sample_claims.nics) Hstore) as (Hnil & _ & Hiff & Hkeep).
  split; [exact Hnics|]. split; [exact Hstray|]. split; [exact Hnil|]. split.
  - apply Hkeep; [exact Hnics | reflexivity].
  - destruct (cache.items
                (claimCache (fst (unprepareResourceClaim sample_claims.Sprint prepared
                                    (referenceTo sample_claims.nics))))
                !! "default/nics/stray") as [obj|] eqn:Hobj; [|reflexivity].
    apply Hiff in Hobj as [Hwas Hnot]. rewrite Hstray in Hwas. injection Hwas as <-.
    exfalso. apply Hnot. split; reflexivity.
Defined.

Lemma prepare_unprepare_keeps_claim_witness :
  exists objs,
    claimsOfPod
      (fst (unprepareResourceClaim sample_claims.Sprint
              (fst (prepareResourceClaim sample_claims.Sprint sample_claims.networkDriver
                      sample_claims.nics))
              (referenceTo sample_claims.nics))) "pod-uid" = inr objs
    /\ In (driver.ClaimObj (Claim sample_claims.nics)) objs.
Proof.
  refine (proj2 (prepare_unprepare_keeps_claim sample_claims.Sprint
                   sample_claims.networkDriver sample_claims.nics newStore_storeOfDriver)
            "pod-uid" _).
  eexists. split; [now left|]. now repeat split.
Defined.

End ClaimCacheExamples.
